(* ===================================================================== *)
(* http-over-netpoll: the response writer (pkg/adaptor) and the          *)
(* per-connection request loop (pkg/engine), embedded in Rocq.           *)
(*                                                                       *)
(* The Go code mutates a *ResponseWriter, the connection's               *)
(* netpoll.Writer and process-wide pools; here those live in one state   *)
(* record threaded by a small state-and-fault monad.  A Go runtime panic *)
(* (a handler fault or a nil dereference) is the monad's Fault, which    *)
(* keeps the state reached so far, as a recover()/defer sees it.         *)
(* ===================================================================== *)

From Stdlib Require Import ZArith String Ascii List Lia.
From Stdlib Require Import DecimalString HexadecimalString.
From stdpp Require Import base strings gmap list fin_maps.

Open Scope string_scope.

(* --------------------------------------------------------------------- *)
(* Bytes, text and number formatting                                     *)
(* --------------------------------------------------------------------- *)

(* []byte and string are both sequences of octets. *)
Definition CR : ascii := ascii_of_nat 13.
Definition LF : ascii := ascii_of_nat 10.
Definition CRLF : string := String CR (String LF EmptyString).

(* strconv.Itoa *)
Definition Itoa (z : Z) : string :=
  DecimalString.NilZero.string_of_int (Z.to_int z).

(* strconv.FormatInt(n, 16) for a length (never negative) *)
Definition FormatHex (n : nat) : string :=
  HexadecimalString.NilZero.string_of_uint (N.to_hex_uint (N.of_nat n)).

(* sniffBuf[:512] *)
Definition take512 (s : string) : string :=
  if (512 <? String.length s)%nat then String.substring 0 512 s else s.

Definition StatusOK : Z := 200.
Definition StatusInternalServerError : Z := 500.

(* net/http.StatusText: the reason phrases of the Go standard library. *)
Definition StatusText (code : Z) : string :=
  match code with
  | 100 => "Continue" | 101 => "Switching Protocols" | 102 => "Processing"
  | 103 => "Early Hints"
  | 200 => "OK" | 201 => "Created" | 202 => "Accepted"
  | 203 => "Non-Authoritative Information" | 204 => "No Content"
  | 205 => "Reset Content" | 206 => "Partial Content" | 207 => "Multi-Status"
  | 208 => "Already Reported" | 226 => "IM Used"
  | 300 => "Multiple Choices" | 301 => "Moved Permanently" | 302 => "Found"
  | 303 => "See Other" | 304 => "Not Modified" | 305 => "Use Proxy"
  | 307 => "Temporary Redirect" | 308 => "Permanent Redirect"
  | 400 => "Bad Request" | 401 => "Unauthorized" | 402 => "Payment Required"
  | 403 => "Forbidden" | 404 => "Not Found" | 405 => "Method Not Allowed"
  | 406 => "Not Acceptable" | 407 => "Proxy Authentication Required"
  | 408 => "Request Timeout" | 409 => "Conflict" | 410 => "Gone"
  | 411 => "Length Required" | 412 => "Precondition Failed"
  | 413 => "Request Entity Too Large" | 414 => "Request URI Too Long"
  | 415 => "Unsupported Media Type"
  | 416 => "Requested Range Not Satisfiable" | 417 => "Expectation Failed"
  | 418 => "I'm a teapot" | 421 => "Misdirected Request"
  | 422 => "Unprocessable Entity" | 423 => "Locked"
  | 424 => "Failed Dependency" | 425 => "Too Early"
  | 426 => "Upgrade Required" | 428 => "Precondition Required"
  | 429 => "Too Many Requests" | 431 => "Request Header Fields Too Large"
  | 451 => "Unavailable For Legal Reasons"
  | 500 => "Internal Server Error" | 501 => "Not Implemented"
  | 502 => "Bad Gateway" | 503 => "Service Unavailable"
  | 504 => "Gateway Timeout" | 505 => "HTTP Version Not Supported"
  | 506 => "Variant Also Negotiates" | 507 => "Insufficient Storage"
  | 508 => "Loop Detected" | 510 => "Not Extended"
  | 511 => "Network Authentication Required"
  | _ => ""
  end%Z.

(* RFC 7230: Status codes 1xx, 204, and 304 MUST NOT have a response body.
   noBody := code >= 100 && code < 200 || code == 204 || code == 304 *)
Definition noBody (code : Z) : bool :=
  ((100 <=? code)%Z && (code <? 200)%Z) || (code =? 204)%Z || (code =? 304)%Z.

(* --------------------------------------------------------------------- *)
(* http.Header                                                           *)
(* --------------------------------------------------------------------- *)

(* map[string][]string.  Get, Set and Del canonicalise their key; every key
   the writer passes ("Date", "Content-Type", "Content-Length",
   "Transfer-Encoding", "Connection") is already canonical, so they act on
   the key as written. *)
Abbreviation Header := (gmap string (list string)).

Definition Header_Get (h : Header) (k : string) : string :=
  match h !! k with
  | Some (v :: _) => v
  | _ => ""
  end.

Definition Header_Set (k v : string) (h : Header) : Header := <[k := [v]]> h.
Definition Header_Del (k : string) (h : Header) : Header := delete k h.

(* _, ok := h[k] *)
Definition Header_has (h : Header) (k : string) : bool :=
  match h !! k with Some _ => true | None => false end.

Definition render_field (kv : string * string) : string :=
  kv.1 +:+ ": " +:+ kv.2 +:+ CRLF.

Fixpoint concat_str (l : list string) : string :=
  match l with
  | [] => ""
  | s :: r => s +:+ concat_str r
  end.

(* --------------------------------------------------------------------- *)
(* Errors, the transport writer, the byte-buffer pool                    *)
(* --------------------------------------------------------------------- *)

Inductive error : Type :=
| errHijacked                (* "connection has been hijacked" *)
| EOF                        (* io.EOF *)
| errFailedRead              (* "failed to read request" *)
| ErrShortWrite              (* io.ErrShortWrite *)
| errIO (msg : string).      (* a failure reported by the transport or a reader *)

Definition error_eqb (a b : error) : bool :=
  match a, b with
  | errHijacked, errHijacked | EOF, EOF | errFailedRead, errFailedRead
  | ErrShortWrite, ErrShortWrite => true
  | errIO m, errIO n => String.eqb m n
  | _, _ => false
  end.

(* netpoll.Writer of the connection.  WriteString and WriteBinary append to
   the pending output, Flush moves it to the wire.  The two fault fields say
   how the transport answers: a failing write appends nothing and returns
   the error, a failing Flush leaves the pending bytes where they are. *)
Record Writer : Type := mkWriter {
  pending : string;
  wire : string;
  write_err : option error;
  flush_err : option error
}.

(* every byte handed to the writer so far, in order *)
Definition written (w : Writer) : string := wire w +:+ pending w.

Definition Writer_write (p : string) (w : Writer) : Writer * (nat * option error) :=
  match write_err w with
  | Some e => (w, (0, Some e))
  | None => (mkWriter (pending w +:+ p) (wire w) (write_err w) (flush_err w),
             (String.length p, None))
  end.

Definition Writer_flush (w : Writer) : Writer * option error :=
  match flush_err w with
  | Some e => (w, Some e)
  | None => (mkWriter "" (wire w +:+ pending w) (write_err w) (flush_err w), None)
  end.

(* bytebufferpool.ByteBuffer: a growable buffer with an identity. *)
Record ByteBuffer : Type := mkBuf { bid : nat; B : string }.

(** Modelled from the spec: the byte-buffer pool (pkg/bytebufferpool is not
    among the sources).  It recycles growable byte buffers: Put checks a
    buffer in, Get hands out an empty buffer, a checked-in one when there is
    one and a new one otherwise.  [idle] lists the checked-in buffers, the
    latest first, one entry per Put. *)
Record BufPool : Type := mkBufPool { idle : list nat; fresh : nat }.

Definition bytebufferpool_Get (p : BufPool) : ByteBuffer * BufPool :=
  match idle p with
  | b :: rest => (mkBuf b "", mkBufPool rest (fresh p))
  | [] => (mkBuf (fresh p) "", mkBufPool [] (S (fresh p)))
  end.

Definition bytebufferpool_Put (b : ByteBuffer) (p : BufPool) : BufPool :=
  mkBufPool (bid b :: idle p) (fresh p).

(* how many times buffer [i] is checked in *)
Definition checkins (i : nat) (p : BufPool) : nat := count_occ Nat.eq_dec (idle p) i.

(* --------------------------------------------------------------------- *)
(* Requests and request contexts                                         *)
(* --------------------------------------------------------------------- *)

Definition Connection : Type := nat.      (* netpoll.Connection, a handle *)
Definition Scope : Type := nat.           (* context.Context, a handle *)

(* The fields of http.Request the adaptor and the engine read or set. *)
Record Request : Type := mkRequest {
  Proto : string;
  Close : bool;
  ReqHeader : Header;
  Host : string;
  URLScheme : string;
  URLHost : string;
  RemoteAddr : string;
  Body : option string        (* what is left unread of the body; nil when None *)
}.

(* appcontext.RequestContext; [reader] is the transport the reusable
   bufio.Reader is bound to, None while no reader was ever made. *)
Record RequestContext : Type := mkCtx {
  conn : option Connection;
  parent : option Scope;
  reader : option (option Connection)
}.

(* --------------------------------------------------------------------- *)
(* ResponseWriter                                                        *)
(* --------------------------------------------------------------------- *)

Record ResponseWriter : Type := mkRW {
  ctx : option RequestContext;
  req : option Request;
  header : Header;
  statusCode : Z;
  wroteHeader : bool;
  hijacked : bool;
  chunked : bool;
  body : option ByteBuffer
}.

(* rwPool.New *)
Definition rwPool_New : ResponseWriter :=
  mkRW None None ∅ 0 false false false None.

(* The state the methods run in: the receiver [rw], the connection's writer,
   the process-wide pools, the current request context of the connection
   loop and the number of requests read off the transport so far. *)
Record St : Type := mkSt {
  rw : ResponseWriter;
  tw : Writer;
  bufPool : BufPool;
  rwPool : list ResponseWriter;
  ctxPool : list RequestContext;
  nread : nat
}.

Inductive Res (A : Type) : Type :=
| Val (a : A) (s : St)
| Fault (s : St).
Arguments Val {A} a s.
Arguments Fault {A} s.

Definition M (A : Type) : Type := St -> Res A.

Definition ret {A} (a : A) : M A := fun s => Val a s.
Definition bind {A B} (m : M A) (k : A -> M B) : M B :=
  fun s => match m s with
           | Val a s' => k a s'
           | Fault s' => Fault s'
           end.
Definition panic {A} : M A := fun s => Fault s.

Notation "'do' x <- m ; k" := (bind m (fun x => k))
  (at level 10, x pattern, m at level 100, k at level 200,
   format "'[v' 'do'  x  <-  m ; '/' k ']'").
Notation "m ;; k" := (bind m (fun _ => k))
  (at level 100, k at level 200, right associativity).

Definition when (b : bool) (m : M unit) : M unit := if b then m else ret tt.

(* field updates of the receiver *)
Definition set_ctx (v : option RequestContext) (r : ResponseWriter) : ResponseWriter :=
  mkRW v (req r) (header r) (statusCode r) (wroteHeader r) (hijacked r) (chunked r) (body r).
Definition set_req (v : option Request) (r : ResponseWriter) : ResponseWriter :=
  mkRW (ctx r) v (header r) (statusCode r) (wroteHeader r) (hijacked r) (chunked r) (body r).
Definition set_header (v : Header) (r : ResponseWriter) : ResponseWriter :=
  mkRW (ctx r) (req r) v (statusCode r) (wroteHeader r) (hijacked r) (chunked r) (body r).
Definition set_statusCode (v : Z) (r : ResponseWriter) : ResponseWriter :=
  mkRW (ctx r) (req r) (header r) v (wroteHeader r) (hijacked r) (chunked r) (body r).
Definition set_wroteHeader (v : bool) (r : ResponseWriter) : ResponseWriter :=
  mkRW (ctx r) (req r) (header r) (statusCode r) v (hijacked r) (chunked r) (body r).
Definition set_hijacked (v : bool) (r : ResponseWriter) : ResponseWriter :=
  mkRW (ctx r) (req r) (header r) (statusCode r) (wroteHeader r) v (chunked r) (body r).
Definition set_chunked (v : bool) (r : ResponseWriter) : ResponseWriter :=
  mkRW (ctx r) (req r) (header r) (statusCode r) (wroteHeader r) (hijacked r) v (body r).
Definition set_body (v : option ByteBuffer) (r : ResponseWriter) : ResponseWriter :=
  mkRW (ctx r) (req r) (header r) (statusCode r) (wroteHeader r) (hijacked r) (chunked r) v.

Definition with_rw (r : ResponseWriter) (s : St) : St :=
  mkSt r (tw s) (bufPool s) (rwPool s) (ctxPool s) (nread s).
Definition with_tw (w : Writer) (s : St) : St :=
  mkSt (rw s) w (bufPool s) (rwPool s) (ctxPool s) (nread s).
Definition with_bufPool (p : BufPool) (s : St) : St :=
  mkSt (rw s) (tw s) p (rwPool s) (ctxPool s) (nread s).
Definition with_rwPool (p : list ResponseWriter) (s : St) : St :=
  mkSt (rw s) (tw s) (bufPool s) p (ctxPool s) (nread s).
Definition with_ctxPool (p : list RequestContext) (s : St) : St :=
  mkSt (rw s) (tw s) (bufPool s) (rwPool s) p (nread s).
Definition with_nread (n : nat) (s : St) : St :=
  mkSt (rw s) (tw s) (bufPool s) (rwPool s) (ctxPool s) n.

Definition self : M ResponseWriter := fun s => Val (rw s) s.
Definition update (f : ResponseWriter -> ResponseWriter) : M unit :=
  fun s => Val tt (with_rw (f (rw s)) s).

(* rw.body.X: a nil body is a nil dereference *)
Definition theBody : M ByteBuffer :=
  fun s => match body (rw s) with
           | Some b => Val b s
           | None => Fault s
           end.
Definition body_Len : M nat := do b <- theBody; ret (String.length (B b)).
Definition body_Bytes : M string := do b <- theBody; ret (B b).
Definition body_Write (p : string) : M (nat * option error) :=
  do b <- theBody;
  update (set_body (Some (mkBuf (bid b) (B b +:+ p))));;
  ret (String.length p, None).
Definition body_Reset : M unit :=
  do b <- theBody; update (set_body (Some (mkBuf (bid b) ""))).

(* rw.req.Proto *)
Definition req_Proto : M string :=
  fun s => match req (rw s) with
           | Some q => Val (Proto q) s
           | None => Fault s
           end.

(* rw.ctx.Conn() *)
Definition ctx_Conn : M (option Connection) :=
  fun s => match ctx (rw s) with
           | Some c => Val (conn c) s
           | None => Fault s
           end.

(* writer := rw.ctx.Conn().Writer() *)
Definition conn_Writer : M unit :=
  do c <- ctx_Conn;
  match c with
  | Some _ => ret tt
  | None => panic
  end.

Definition WriteString (p : string) : M (nat * option error) :=
  fun s => let '(w, r) := Writer_write p (tw s) in Val r (with_tw w s).
Definition WriteBinary (p : string) : M (nat * option error) :=
  fun s => let '(w, r) := Writer_write p (tw s) in Val r (with_tw w s).
Definition writer_Flush : M (option error) :=
  fun s => let '(w, r) := Writer_flush (tw s) in Val r (with_tw w s).

(* bytebufferpool.Put(rw.body); the pool reads the buffer it is given *)
Definition pool_Put (b : option ByteBuffer) : M unit :=
  match b with
  | Some b => fun s => Val tt (with_bufPool (bytebufferpool_Put b (bufPool s)) s)
  | None => panic
  end.
Definition pool_Get : M ByteBuffer :=
  fun s => let '(b, p) := bytebufferpool_Get (bufPool s) in Val b (with_bufPool p s).

(* an io.Reader, as the results of its successive Read calls; once they are
   used up Read gives (0, io.EOF) *)
Record ReadResult : Type := mkRead { rd_data : string; rd_err : option error }.
Definition Reader : Type := list ReadResult.

Inductive LoopExit : Type :=
| Returned (e : option error)     (* return n, err from inside the loop *)
| Broke (e : option error).       (* break, with err as set so far *)

Definition Conn_Hijacked : Type := (option Connection * option (option Connection) * option error)%type.

(* --------------------------------------------------------------------- *)
(* A concrete setting for the worked examples                            *)
(* --------------------------------------------------------------------- *)

Module Sample.

Definition now : string := "Mon, 02 Jan 2006 15:04:05 GMT".
Definition sniff (_ : string) : string := "text/plain; charset=utf-8".
Definition order (l : list (string * list string)) : list (string * list string) := l.
Definition addr (_ : Connection) : string := "127.0.0.1:8080".

(* a transport that accepts everything, nothing written yet *)
Definition writer : Writer := mkWriter "" "" None None.

(* GET / HTTP/1.1, keep-alive *)
Definition get : Request := mkRequest "HTTP/1.1" false ∅ "" "" "" "" (Some "").
(* the same with Connection: close *)
Definition getClose : Request :=
  mkRequest "HTTP/1.1" false {["Connection" := ["close"]]} "" "" "" "" (Some "").

Definition rc : RequestContext := mkCtx (Some 1) (Some 1) None.

(* the process before any request: empty pools *)
Definition boot : St := mkSt rwPool_New writer (mkBufPool [] 0) [] [] 0.

(* the state NewResponseWriter(rc, get) leaves from boot: a new writer
   holding buffer 0 *)
Definition fresh : St :=
  mkSt (mkRW (Some rc) (Some get) ∅ 0 false false false (Some (mkBuf 0 "")))
       writer (mkBufPool [] 1) [] [] 0.

End Sample.

(* --------------------------------------------------------------------- *)
(* The server: its options and what it sets on a new connection          *)
(* --------------------------------------------------------------------- *)

(* time.Duration counts nanoseconds *)
Definition Duration : Type := Z.
Definition Second : Duration := 1000000000%Z.

(* Server; [eventLoop] is nil until Serve has made the event loop.  The
   engine is a reference the options below do not look into. *)
Record Server (E : Type) : Type := mkServer {
  Engine : E;
  eventLoop : option nat;
  keepAliveTimeout : Duration;
  readTimeout : Duration;
  writeTimeout : Duration
}.
Arguments mkServer {E}.
Arguments Engine {E}.
Arguments eventLoop {E}.
Arguments keepAliveTimeout {E}.
Arguments readTimeout {E}.
Arguments writeTimeout {E}.

(* Option: a function that changes the Server it is given *)
Definition ServerOption (E : Type) : Type := Server E -> Server E.

Definition WithReadTimeout {E} (d : Duration) : ServerOption E :=
  fun s => mkServer (Engine s) (eventLoop s) (keepAliveTimeout s) d (writeTimeout s).
Definition WithWriteTimeout {E} (d : Duration) : ServerOption E :=
  fun s => mkServer (Engine s) (eventLoop s) (keepAliveTimeout s) (readTimeout s) d.
Definition WithKeepAliveTimeout {E} (d : Duration) : ServerOption E :=
  fun s => mkServer (Engine s) (eventLoop s) d (readTimeout s) (writeTimeout s).

Definition NewServer {E} (e : E) (opts : list (ServerOption E)) : Server E :=
  fold_left (fun s opt => opt s) opts
    (mkServer e None (30 * Second)%Z (10 * Second)%Z (10 * Second)%Z).

(* the calls OnPrepare makes on the new connection.  What the connection
   does with the value it is given is netpoll's business, which is not among
   the sources: only the calls are recorded. *)
Inductive ConnCall : Type :=
| SetReadTimeout (d : Duration)
| SetWriteTimeout (d : Duration).

(* the OnPrepare callback Serve registers, as far as the connection goes:
   conn.SetReadTimeout(s.readTimeout), and conn.SetWriteTimeout only
   under `if s.writeTimeout > 0` *)
Definition OnPrepare {E} (s : Server E) : list ConnCall :=
  SetReadTimeout (readTimeout s) ::
  (if (0 <? writeTimeout s)%Z then [SetWriteTimeout (writeTimeout s)] else []).

Section Adaptor.

(* time.Now().UTC().Format(http.TimeFormat) *)
Variable now : string.
(* net/http.DetectContentType *)
Variable DetectContentType : string -> string.
(* the order in which `range rw.header` visits the map: any order *)
Variable rangeOrder : list (string * list string) -> list (string * list string).
Hypothesis rangeOrder_perm : forall l, Permutation (rangeOrder l) l.

(* the (name, value) pairs the header loop emits, one line each *)
Definition fields (h : Header) : list (string * string) :=
  flat_map (fun kv => map (pair kv.1) kv.2) (rangeOrder (map_to_list h)).
Definition header_lines (h : Header) : string :=
  concat_str (map render_field (fields h)).

Definition status_line (proto : string) (code : Z) : string :=
  proto +:+ " " +:+ Itoa code +:+ " " +:+ StatusText code +:+ CRLF.

(* one chunk frame: "<hex-len>\r\n<data>\r\n" *)
Definition chunk_frame (p : string) : string :=
  FormatHex (String.length p) +:+ CRLF +:+ p +:+ CRLF.
Definition zero_chunk : string := "0" +:+ CRLF +:+ CRLF.

Definition header_Set (k v : string) : M unit :=
  do r <- self; update (set_header (Header_Set k v (header r))).
Definition header_Del (k : string) : M unit :=
  do r <- self; update (set_header (Header_Del k (header r))).

Definition WriteHeader (code : Z) : M unit :=
  do r <- self;
  if wroteHeader r || hijacked r then ret tt
  else update (set_statusCode code).

Definition defaultStatus : M unit :=
  do r <- self;
  when (statusCode r =? 0)%Z (update (set_statusCode StatusOK)).

Definition Write (p : string) : M (nat * option error) :=
  do r <- self;
  if hijacked r then ret (0, Some errHijacked)
  else
    when (negb (wroteHeader r)) defaultStatus;;
    body_Write p.

Definition writeHeaders (isStreaming : bool) : M unit :=
  do r <- self;
  if wroteHeader r then ret tt
  else
    update (set_wroteHeader true);;
    (do r <- self;
     when (String.eqb (Header_Get (header r) "Date") "") (header_Set "Date" now));;
    (do r <- self;
     when (String.eqb (Header_Get (header r) "Content-Type") "")
       (do n <- body_Len;
        when (0 <? n)%nat
          (do sniffBuf <- body_Bytes;
           header_Set "Content-Type" (DetectContentType (take512 sniffBuf)))));;
    do proto <- req_Proto;
    do r <- self;
    let buf := status_line proto (statusCode r) in
    let nb := noBody (statusCode r) in
    do buf <-
      (if isStreaming && negb nb then
         update (set_chunked true);;
         header_Del "Content-Length";;
         header_Del "Transfer-Encoding";;
         ret (buf +:+ "Transfer-Encoding: chunked" +:+ CRLF)
       else
         (do r <- self;
          when (String.eqb (Header_Get (header r) "Content-Length") "")
            (when (negb nb)
               (do n <- body_Len;
                header_Set "Content-Length" (Itoa (Z.of_nat n)))));;
         header_Del "Transfer-Encoding";;
         ret buf);
    do r <- self;
    WriteBinary (buf +:+ header_lines (header r) +:+ CRLF);;
    ret tt.

(* the body of `if rw.body.Len() > 0 { ... }`: one chunk frame *)
Definition writeChunk (p : string) : M unit :=
  WriteString (FormatHex (String.length p) +:+ CRLF);;
  WriteBinary p;;
  WriteString CRLF;;
  ret tt.

Definition Flush : M unit :=
  do r <- self;
  if hijacked r then ret tt
  else
    conn_Writer;;
    (do r <- self;
     when (negb (wroteHeader r)) (defaultStatus;; writeHeaders true));;
    (do n <- body_Len;
     when (0 <? n)%nat
       (do p <- body_Bytes; writeChunk p;; body_Reset));;
    writer_Flush;;
    ret tt.

Definition Hijack : M Conn_Hijacked :=
  do r <- self;
  if hijacked r then ret (None, None, Some errHijacked)
  else
    update (set_hijacked true);;
    do c <- ctx_Conn;
    ret (c, Some c, None).

Definition Hijacked : M bool := do r <- self; ret (hijacked r).

(* bytebufferpool.Put(rw.body); rw.body = nil; return writer.Flush() *)
Definition finishResponse : M (option error) :=
  (do r <- self; pool_Put (body r));;
  update (set_body None);;
  writer_Flush.

Definition EndResponse : M (option error) :=
  do r <- self;
  if hijacked r then pool_Put (body r);; ret None
  else
    conn_Writer;;
    do r <- self;
    let isStreaming := String.eqb (Header_Get (header r) "Transfer-Encoding") "chunked" in
    when (negb (wroteHeader r)) (defaultStatus;; writeHeaders isStreaming);;
    do r <- self;
    let nb := noBody (statusCode r) in
    if chunked r then
      (if negb nb then
         do n <- body_Len;
         when (0 <? n)%nat (do p <- body_Bytes; writeChunk p)
       else ret tt);;
      WriteString zero_chunk;;
      finishResponse
    else
      do werr <-
        (if negb nb then
           do n <- body_Len;
           if (0 <? n)%nat then
             do p <- body_Bytes;
             do (_, err) <- WriteBinary p;
             ret err
           else ret None
         else ret None);
      match werr with
      | Some err => (do r <- self; pool_Put (body r));; ret (Some err)
      | None => finishResponse
      end.

(* the chunked loop of ReadFrom: every block read is framed and flushed *)
Fixpoint chunkLoop (r : Reader) : M LoopExit :=
  match r with
  | [] => ret (Broke None)
  | rr :: rest =>
    do ferr <-
      (if (0 <? String.length (rd_data rr))%nat then
         writeChunk (rd_data rr);;
         writer_Flush
       else ret None);
    match ferr with
    | Some e => ret (Returned (Some e))
    | None =>
      match rd_err rr with
      | Some er => ret (Broke (if error_eqb er EOF then None else Some er))
      | None => chunkLoop rest
      end
    end
  end.

(* netpollWriterWrapper.Write *)
Definition wrapper_Write (p : string) : M (nat * option error) :=
  do (n, err) <- WriteBinary p;
  match err with
  | Some e => ret (n, Some e)
  | None => do ferr <- writer_Flush; ret (n, ferr)
  end.

(* io.CopyBuffer(netpollWriterWrapper{w: writer}, r, buf), its read/write
   loop; a source with its own WriteTo hands the same bytes to the same
   Write *)
Fixpoint copyBuffer (r : Reader) (n : Z) : M (Z * option error) :=
  match r with
  | [] => ret (n, None)
  | rr :: rest =>
    let nr := String.length (rd_data rr) in
    do (n, stop) <-
      (if (0 <? nr)%nat then
         do (nw, ew) <- wrapper_Write (rd_data rr);
         let n := (n + Z.of_nat nw)%Z in
         match ew with
         | Some e => ret (n, Some (Some e))
         | None => if (nr =? nw)%nat then ret (n, None)
                   else ret (n, Some (Some ErrShortWrite))
         end
       else ret (n, None));
    match stop with
    | Some err => ret (n, err)
    | None =>
      match rd_err rr with
      | Some er => ret (n, if error_eqb er EOF then None else Some er)
      | None => copyBuffer rest n
      end
    end
  end.

(* The connection's writer does not implement io.ReaderFrom (netpoll
   v0.7.2, as the source notes), so the fixed-length branch is the
   io.CopyBuffer one.  In the chunked branch the named result n is never
   assigned. *)
Definition ReadFrom (r : Reader) : M (Z * option error) :=
  do w <- self;
  if hijacked w then ret (0%Z, Some errHijacked)
  else
    conn_Writer;;
    do w <- self;
    do herr <-
      (if negb (wroteHeader w) then
         defaultStatus;;
         do w <- self;
         let hasCL := Header_has (header w) "Content-Length" in
         let hasChunked :=
           String.eqb (Header_Get (header w) "Transfer-Encoding") "chunked" in
         let shouldChunk := negb hasCL && negb hasChunked in
         let shouldChunk := if hasChunked then true else shouldChunk in
         writeHeaders shouldChunk;;
         writer_Flush
       else ret None);
    match herr with
    | Some e => ret (0%Z, Some e)
    | None =>
      do w <- self;
      if chunked w then
        do ex <- chunkLoop r;
        match ex with
        | Returned e => ret (0%Z, e)
        | Broke err =>
          do fErr <- writer_Flush;
          ret (0%Z, match fErr, err with
                    | Some fe, None => Some fe
                    | _, _ => err
                    end)
        end
      else copyBuffer r 0%Z
    end.

(* rwPool.Get(): a pooled writer when there is one, else rwPool.New *)
Definition rwPool_Get : M ResponseWriter :=
  fun s => match rwPool s with
           | r :: rest => Val r (with_rwPool rest s)
           | [] => Val rwPool_New s
           end.

(* The header map of the pooled object is kept as it is: "No need to
   re-allocate header map; it is cleared in Release()". *)
Definition NewResponseWriter (c : RequestContext) (q : Request) : M unit :=
  do r <- rwPool_Get;
  update (fun _ => r);;
  update (set_ctx (Some c));;
  update (set_req (Some q));;
  update (set_statusCode 0);;
  update (set_wroteHeader false);;
  update (set_hijacked false);;
  update (set_chunked false);;
  do b <- pool_Get;
  update (set_body (Some b)).

Definition Release : M unit :=
  update (set_ctx None);;
  update (set_req None);;
  (do r <- self;
   match body r with
   | Some b => pool_Put (Some b);; update (set_body None)
   | None => ret tt
   end);;
  update (set_header ∅);;
  fun s => Val tt (with_rwPool (rw s :: rwPool s) s).

(* --------------------------------------------------------------------- *)
(* The handler, as the calls it makes on the writer                      *)
(* --------------------------------------------------------------------- *)

(* One run of http.Handler.ServeHTTP is the sequence of calls it makes on
   the ResponseWriter, possibly ended by a panic.  OpHeader is any change
   made through the map that Header() returns.  A handler does not modify
   the request it is given (the http.Handler contract).  These are the
   calls of http.ResponseWriter, http.Flusher, http.Hijacker and
   io.ReaderFrom; a handler that reaches past these interfaces and calls
   the exported EndResponse or Release itself is not described by an Op
   list, and nothing below is about such a handler. *)
Inductive Op : Type :=
| OpHeader (f : Header -> Header)
| OpWriteHeader (code : Z)
| OpWrite (p : string)
| OpReadFrom (r : Reader)
| OpFlush
| OpHijack
| OpPanic.

Definition Handler : Type := Request -> list Op.

Definition runOp (o : Op) : M unit :=
  match o with
  | OpHeader f => do r <- self; update (set_header (f (header r)))
  | OpWriteHeader code => WriteHeader code
  | OpWrite p => Write p;; ret tt
  | OpReadFrom r => ReadFrom r;; ret tt
  | OpFlush => Flush
  | OpHijack => Hijack;; ret tt
  | OpPanic => panic
  end.

Fixpoint ServeHTTP (ops : list Op) : M unit :=
  match ops with
  | [] => ret tt
  | o :: rest => runOp o;; ServeHTTP rest
  end.

(* defer d: d runs when the body returns and when it panics alike *)
Definition defer_ {A} (d : M unit) (m : M A) : M A :=
  fun s => match m s with
           | Val a s1 => match d s1 with
                         | Val _ s2 => Val a s2
                         | Fault s2 => Fault s2
                         end
           | Fault s1 => match d s1 with
                         | Val _ s2 => Fault s2
                         | Fault s2 => Fault s2
                         end
           end.

(* defer func() { if r := recover(); r != nil { h } }() *)
Definition recover_ (h : M unit) (m : M unit) : M unit :=
  fun s => match m s with
           | Val a s1 => Val a s1
           | Fault s1 => h s1
           end.

(* --------------------------------------------------------------------- *)
(* appcontext.RequestContext and the engine                              *)
(* --------------------------------------------------------------------- *)

Definition NewRequestContext (cn : Connection) (p : Scope) : M RequestContext :=
  fun s => match ctxPool s with
           | c :: rest => Val (mkCtx (Some cn) (Some p) (reader c)) (with_ctxPool rest s)
           | [] => Val (mkCtx (Some cn) (Some p) None) s
           end.

(* reader is not nil-ed for reuse *)
Definition RequestContext_reset (c : RequestContext) : RequestContext :=
  mkCtx None None (reader c).

Definition RequestContext_Release (c : RequestContext) : M unit :=
  fun s => Val tt (with_ctxPool (RequestContext_reset c :: ctxPool s) s).

(* GetReader makes the reader or rebinds it to the current transport.  Only
   the binding is recorded.  The Reset of a reader that exists also throws
   away what the reader had read ahead; what that means for the requests is
   in the reading of [incoming] at ServeConn below. *)
Definition GetReader (c : RequestContext) : RequestContext :=
  mkCtx (conn c) (parent c) (Some (conn c)).

(* the result of one call of http.ReadRequest on the reader that GetReader
   has just made or reset *)
Inductive ParseResult : Type :=
| Parsed (q : Request)
| ParseEOF
| ParseError.

(* conn.RemoteAddr().String() *)
Variable remoteAddr : Connection -> string.

Definition GetRequest (c : RequestContext) (p : ParseResult)
  : M (RequestContext * option Request * option error) :=
  let c := GetReader c in
  (fun s => Val tt (with_nread (S (nread s)) s));;
  match p with
  | ParseEOF => ret (c, None, Some EOF)
  | ParseError => ret (c, None, Some errFailedRead)
  | Parsed q =>
    match conn c with
    | Some cn =>
      ret (c, Some (mkRequest (Proto q) (Close q) (ReqHeader q) (Host q)
                      "http" (Host q) (remoteAddr cn) (Body q)), None)
    | None => panic
    end
  end.

(* handleRequest.  The optional request timeout only bounds, in real time,
   how long the handler may run; it is not represented. *)
Definition handleRequest (h : Handler) (c : RequestContext) (p : ParseResult)
  : M (RequestContext * option Request * bool * option error) :=
  do (c, oq, err) <- GetRequest c p;
  match err, oq with
  | Some e, _ => ret (c, None, false, Some e)
  | None, None => panic
  | None, Some q =>
    NewResponseWriter c q;;
    defer_ Release
      (recover_ (WriteHeader StatusInternalServerError) (ServeHTTP (h q));;
       do err <- EndResponse;
       match err with
       | Some e => ret (c, None, false, Some e)
       | None => do hj <- Hijacked; ret (c, Some q, hj, None)
       end)
  end.

Inductive ConnExit : Type :=
| ReturnNil                      (* return nil: the connection is done *)
| ReturnErr (e : error)          (* return err *)
| AwaitDone.                     (* <-ctx.Done(); return nil, after a hijack *)

(* req.Close || req.Header.Get("Connection") == "close" *)
Definition wantsClose (q : Request) : bool :=
  Close q || String.eqb (Header_Get (ReqHeader q) "Connection") "close".

(* One turn of the for loop in ServeConn; [next] is the rest of the loop.
   Draining the request body reads through the same reader; the next turn
   starts from the result [incoming] below gives for it. *)
Definition serveOne (h : Handler) (cn : Connection) (sc : Scope)
    (p : ParseResult) (next : M ConnExit) : M ConnExit :=
  do c <- NewRequestContext cn sc;
  do (c, oq, hj, err) <- handleRequest h c p;
  match err with
  | Some e => RequestContext_Release c;; ret (ReturnErr e)
  | None =>
    if hj then ret AwaitDone
    else
      match oq with
      | None => panic
      | Some q =>
        RequestContext_Release c;;
        if wantsClose q then ret ReturnNil else next
      end
  end.

(* ServeConn over [incoming], the results of the successive calls of
   http.ReadRequest, one per turn of the loop; after the last of them the
   parser sees end of input.  [incoming] is not the list of the requests
   the client sent: every turn resets the reader, so a request that was
   read ahead together with the previous one (pipelined into the same read)
   is thrown away and never shows up as a result. *)
Fixpoint ServeConn (h : Handler) (cn : Connection) (sc : Scope)
    (incoming : list ParseResult) : M ConnExit :=
  match incoming with
  | [] => serveOne h cn sc ParseEOF (ret (ReturnErr EOF))
  | p :: rest => serveOne h cn sc p (ServeConn h cn sc rest)
  end.

(* --------------------------------------------------------------------- *)
(* What a commit puts on the wire, as functions of the writer's fields   *)
(* --------------------------------------------------------------------- *)

Definition final {A} (r : Res A) : St :=
  match r with
  | Val _ s => s
  | Fault s => s
  end.

(* the status a commit emits: 0 is "not set" and becomes 200 *)
Definition effStatus (code : Z) : Z := if (code =? 0)%Z then StatusOK else code.

Definition withDate (h : Header) : Header :=
  if String.eqb (Header_Get h "Date") "" then Header_Set "Date" now h else h.

Definition withContentType (bs : string) (h : Header) : Header :=
  if String.eqb (Header_Get h "Content-Type") "" then
    if (0 <? String.length bs)%nat
    then Header_Set "Content-Type" (DetectContentType (take512 bs)) h
    else h
  else h.

(* does a commit with this isStreaming and status choose chunked mode *)
Definition commitChunked (isStreaming : bool) (code : Z) : bool :=
  isStreaming && negb (noBody code).

(* the header map once writeHeaders is through with it *)
Definition committedHeader (isStreaming : bool) (code : Z) (bs : string)
    (h : Header) : Header :=
  let h := withContentType bs (withDate h) in
  if commitChunked isStreaming code then
    Header_Del "Transfer-Encoding" (Header_Del "Content-Length" h)
  else
    Header_Del "Transfer-Encoding"
      (if String.eqb (Header_Get h "Content-Length") "" then
         if negb (noBody code)
         then Header_Set "Content-Length" (Itoa (Z.of_nat (String.length bs))) h
         else h
       else h).

(* the bytes writeHeaders hands to the writer *)
Definition headerBlock (isStreaming : bool) (proto : string) (code : Z)
    (bs : string) (h : Header) : string :=
  (if commitChunked isStreaming code
   then status_line proto code +:+ "Transfer-Encoding: chunked" +:+ CRLF
   else status_line proto code) +:+
  header_lines (committedHeader isStreaming code bs h) +:+ CRLF.

(* the receiver after the commit *)
Definition committedRW (isStreaming : bool) (b : ByteBuffer) (r : ResponseWriter)
  : ResponseWriter :=
  mkRW (ctx r) (req r)
    (committedHeader isStreaming (statusCode r) (B b) (header r))
    (statusCode r) true (hijacked r)
    (if commitChunked isStreaming (statusCode r) then true else chunked r)
    (body r).

(* a buffered body as Flush and EndResponse frame it: nothing when empty *)
Definition framed (bs : string) : string :=
  if (0 <? String.length bs)%nat then chunk_frame bs else "".

(* the bytes an io.Copy moves: every block read, up to the first error *)
Fixpoint streamed (r : Reader) : string :=
  match r with
  | [] => ""
  | rr :: rest =>
    rd_data rr +:+ match rd_err rr with
                   | Some _ => ""
                   | None => streamed rest
                   end
  end.

(* the same blocks, each in its own chunk frame *)
Fixpoint streamedChunks (r : Reader) : string :=
  match r with
  | [] => ""
  | rr :: rest =>
    framed (rd_data rr) +:+ match rd_err rr with
                            | Some _ => ""
                            | None => streamedChunks rest
                            end
  end.

(* the writer can reach its transport, request and body *)
Definition bound (s : St) (q : Request) (b : ByteBuffer) : Prop :=
  (exists c cn, ctx (rw s) = Some c /\ conn c = Some cn) /\
  req (rw s) = Some q /\ body (rw s) = Some b.

(* the transport accepts every write and every flush *)
Definition healthy (w : Writer) : Prop :=
  write_err w = None /\ flush_err w = None.

(* neither committed nor hijacked; the chunked flag is only ever set by a
   commit *)
Definition uncommitted (s : St) : Prop :=
  hijacked (rw s) = false /\ wroteHeader (rw s) = false /\ chunked (rw s) = false.

(* TE: chunked was set explicitly in the header map *)
Definition explicitChunked (h : Header) : bool :=
  String.eqb (Header_Get h "Transfer-Encoding") "chunked".

(* what EndResponse writes after the header block *)
Definition endBody (isStreaming : bool) (code : Z) (bs : string) : string :=
  if commitChunked isStreaming code then framed bs +:+ zero_chunk
  else if noBody code then "" else bs.

(* a property of the state that survives whatever m does, also when m
   panics *)
Definition keeps (P : St -> Prop) {A} (m : M A) : Prop :=
  forall s, P s -> P (final (m s)).

(* P does not look at the receiver, the transport writer or the buffer pool *)
Definition indifferent (P : St -> Prop) : Prop :=
  (forall r s, P s -> P (with_rw r s)) /\
  (forall w s, P s -> P (with_tw w s)) /\
  (forall p s, P s -> P (with_bufPool p s)).

(* a field update that leaves the status and the two commit flags alone *)
Definition benign (f : ResponseWriter -> ResponseWriter) : Prop :=
  forall r, statusCode (f r) = statusCode r /\
            wroteHeader (f r) = wroteHeader r /\
            chunked (f r) = chunked r.

(* P survives writes to the transport, traffic of the buffer pool and benign
   updates of the receiver *)
Definition prim_safe (P : St -> Prop) : Prop :=
  (forall w s, P s -> P (with_tw w s)) /\
  (forall p s, P s -> P (with_bufPool p s)) /\
  (forall f, benign f -> forall s, P s -> P (with_rw (f (rw s)) s)).

(* ... and the three methods that touch the status and the commit flags *)
Definition method_safe (P : St -> Prop) : Prop :=
  prim_safe P /\
  keeps P defaultStatus /\
  (forall code, keeps P (WriteHeader code)) /\
  (forall isStreaming, keeps P (writeHeaders isStreaming)).

(* The commit flags agree: chunked is only set by a commit, and never for a
   status that has no body. *)
Definition coherent (r : ResponseWriter) : Prop :=
  (wroteHeader r = false -> chunked r = false) /\
  (chunked r = true -> noBody (statusCode r) = false).

(* P moreover survives the traffic of the writer pool and the context pool:
   taking a writer out, putting a cleared writer back, any change of the
   context pool *)
Definition pool_safe (P : St -> Prop) : Prop :=
  indifferent P /\
  (forall p s, P s -> P (with_ctxPool p s)) /\
  (forall s r rest, rwPool s = r :: rest -> P s -> P (with_rwPool rest s)) /\
  (forall s, header (rw s) = ∅ -> P s -> P (with_rwPool (rw s :: rwPool s) s)).

(* the writer Release puts back *)
Definition releasedRW (r : ResponseWriter) : ResponseWriter :=
  mkRW None None ∅ (statusCode r) (wroteHeader r) (hijacked r) (chunked r) None.

(* what Release leaves of a writer *)
Definition released (r : ResponseWriter) : Prop :=
  ctx r = None /\ req r = None /\ body r = None /\ header r = ∅.

(* The mode a writer is in once Flush has made sure the headers are out. *)
Definition flushMode (r : ResponseWriter) : bool :=
  if wroteHeader r then chunked r
  else negb (noBody (effStatus (statusCode r))).

(* every pooled writer has an empty header map *)
Definition rwPool_clean (s : St) : Prop :=
  Forall (fun r => header r = ∅) (rwPool s).

(* --------------------------------------------------------------------- *)
(* Further notions: the request cycle of a writer                        *)
(* --------------------------------------------------------------------- *)

(* the receiver is inside its request cycle: it holds a context with a
   connection, a request and a body buffer *)
Definition live (s : St) : Prop := exists q b, bound s q b.

(* s' is a later state of the same request cycle: same context, same
   request, same body buffer (by identity), and a transport that answers
   writes and flushes as before *)
Definition sameCycle (s s' : St) : Prop :=
  ctx (rw s') = ctx (rw s) /\ req (rw s') = req (rw s) /\
  option_map bid (body (rw s')) = option_map bid (body (rw s)) /\
  write_err (tw s') = write_err (tw s) /\ flush_err (tw s') = flush_err (tw s).


(* the mode EndResponse ends the response in: the mode of the commit when
   it commits itself, the committed mode otherwise *)
Definition endChunked (r : ResponseWriter) : bool :=
  (negb (wroteHeader r) &&
   commitChunked (explicitChunked (header r)) (effStatus (statusCode r)))
  || chunked r.

(* what EndResponse writes after the header block, if any: in chunked mode
   the buffered bytes as one frame and the zero chunk, else the buffered
   bytes as they are; no body bytes with a status that has no body *)
Definition endTail (r : ResponseWriter) (bs : string) : string :=
  if endChunked r then
    (if noBody (statusCode r) then "" else framed bs) +:+ zero_chunk
  else if noBody (statusCode r) then "" else bs.

(* the header block EndResponse writes when the headers are not committed *)
Definition endHead (r : ResponseWriter) (q : Request) (bs : string) : string :=
  if wroteHeader r then ""
  else headerBlock (explicitChunked (header r)) (Proto q)
         (effStatus (statusCode r)) bs (header r).

(* the header map after EndResponse *)
Definition endHeader (r : ResponseWriter) (bs : string) : Header :=
  if wroteHeader r then header r
  else committedHeader (explicitChunked (header r)) (effStatus (statusCode r))
         bs (header r).

(* the request GetRequest hands on: the parsed one with URL.Scheme, URL.Host
   and RemoteAddr filled in *)
Definition served (q : Request) (cn : Connection) : Request :=
  mkRequest (Proto q) (Close q) (ReqHeader q) (Host q) "http" (Host q)
    (remoteAddr cn) (Body q).

(* the context NewRequestContext returns: a pooled one, with whatever reader
   it has kept, else a new one *)
Definition pooledCtx (cn : Connection) (sc : Scope) (s : St) : RequestContext :=
  mkCtx (Some cn) (Some sc)
    (match ctxPool s with c :: _ => reader c | [] => None end).

(* the error a copy loop ends with: the first error a Read returns, io.EOF
   counting as none *)
Fixpoint readError (r : Reader) : option error :=
  match r with
  | [] => None
  | rr :: rest =>
    match rd_err rr with
    | Some er => if error_eqb er EOF then None else Some er
    | None => readError rest
    end
  end.

(* a handler that streams: each payload is written and flushed *)
Definition streaming (ps : list string) : list Op :=
  flat_map (fun p => [OpWrite p; OpFlush]) ps.

(* the same state with another header map in the receiver *)
Definition set_hdr (hd : Header) (s : St) : St := with_rw (set_header hd (rw s)) s.

Definition Res_map {A} (f : St -> St) (r : Res A) : Res A :=
  match r with
  | Val a s => Val a (f s)
  | Fault s => Fault (f s)
  end.

(* no pooled context refers to a connection or to a parent context *)
Definition ctxPool_reset (s : St) : Prop :=
  Forall (fun c => conn c = None /\ parent c = None) (ctxPool s).

(* --------------------------------------------------------------------- *)
(* A connection served by a handler that only writes                     *)
(* --------------------------------------------------------------------- *)

(* the response to a request whose handler wrote [sent] and set nothing *)
Definition plainResponse (q : Request) (sent : string) : string :=
  status_line (Proto q) StatusOK +:+
  header_lines (committedHeader false StatusOK sent ∅) +:+ CRLF +:+ sent.

(* the responses to the requests read on a connection, up to and with the
   first request that has Close set or carries Connection: close *)
Fixpoint responses (f : Request -> list string) (cn : Connection)
    (qs : list Request) : string :=
  match qs with
  | [] => ""
  | q :: rest =>
    plainResponse (served q cn) (concat_str (f (served q cn))) +:+
    (if Close q then ""
     else if String.eqb (Header_Get (ReqHeader q) "Connection") "close" then ""
     else responses f cn rest)
  end.

(* how ServeConn leaves such a connection: nil at the first request that has
   Close set or carries Connection: close, io.EOF when the input ends *)
Fixpoint outcome (qs : list Request) : ConnExit :=
  match qs with
  | [] => ReturnErr EOF
  | q :: rest =>
    if Close q then ReturnNil
    else if String.eqb (Header_Get (ReqHeader q) "Connection") "close" then ReturnNil
    else outcome rest
  end.
(* --------------------------------------------------------------------- *)
(* Strings and the transport writer                                      *)
(* --------------------------------------------------------------------- *)

Lemma append_assoc (a b c : string) : (a +:+ b) +:+ c = a +:+ (b +:+ c).
Proof.
  induction a as [|x a IH]; [reflexivity|].
  change (String x ((a +:+ b) +:+ c) = String x (a +:+ (b +:+ c))).
  f_equal. exact IH.
Qed.

Lemma append_nil_r (a : string) : a +:+ "" = a.
Proof.
  induction a as [|x a IH]; [reflexivity|].
  change (String x (a +:+ "") = String x a). f_equal. exact IH.
Qed.

Lemma written_write p w :
  write_err w = None -> written (Writer_write p w).1 = written w +:+ p.
Proof.
  intros Hw. unfold Writer_write, written. rewrite Hw.
  cbn [fst pending wire]. symmetry. apply append_assoc.
Qed.

Lemma written_flush w : written (Writer_flush w).1 = written w.
Proof.
  unfold Writer_flush, written. destruct (flush_err w);
    cbn [fst pending wire]; [reflexivity|].
  apply append_nil_r.
Qed.

Lemma write_err_write p w : write_err (Writer_write p w).1 = write_err w.
Proof. unfold Writer_write. destruct (write_err w) eqn:E; simpl; congruence. Qed.

Lemma write_err_flush w : write_err (Writer_flush w).1 = write_err w.
Proof. unfold Writer_flush. destruct (flush_err w) eqn:E; simpl; congruence. Qed.

Lemma flush_err_write p w : flush_err (Writer_write p w).1 = flush_err w.
Proof. unfold Writer_write. destruct (write_err w) eqn:E; simpl; congruence. Qed.

Lemma flush_err_flush w : flush_err (Writer_flush w).1 = flush_err w.
Proof. unfold Writer_flush. destruct (flush_err w) eqn:E; simpl; congruence. Qed.

(* --------------------------------------------------------------------- *)
(* writeHeaders                                                          *)
(* --------------------------------------------------------------------- *)

Ltac unfold_monad :=
  cbv [bind ret panic when self update theBody body_Len body_Bytes body_Write
       body_Reset req_Proto ctx_Conn conn_Writer WriteString WriteBinary
       writer_Flush pool_Put pool_Get header_Set header_Del defaultStatus
       Hijacked].

Ltac proj :=
  cbn [rw tw bufPool rwPool ctxPool nread ctx req header statusCode wroteHeader
       hijacked chunked body with_rw with_tw with_bufPool with_rwPool
       with_ctxPool with_nread set_ctx set_req set_header set_statusCode
       set_wroteHeader set_hijacked set_chunked set_body fst snd negb andb orb
       bid B].

Ltac step := unfold_monad; proj.

Lemma writeHeaders_commit isStreaming s q b :
  wroteHeader (rw s) = false -> req (rw s) = Some q -> body (rw s) = Some b ->
  writeHeaders isStreaming s =
  Val tt (with_tw
            (Writer_write (headerBlock isStreaming (Proto q) (statusCode (rw s))
                             (B b) (header (rw s))) (tw s)).1
            (with_rw (committedRW isStreaming b (rw s)) s)).
Proof.
  destruct s as [r w bp rp cp n]. destruct r as [c rq h code wh hj ch bd].
  proj. intros -> -> ->.
  unfold writeHeaders. step.
  unfold headerBlock, committedRW. unfold committedHeader.
  unfold commitChunked, withDate, withContentType. proj.
  destruct (String.eqb (Header_Get h "Date") ""); step.
  all: destruct (String.eqb (Header_Get _ "Content-Type") ""); step.
  all: destruct (0 <? String.length (B b))%nat; step.
  all: destruct isStreaming, (noBody code); step.
  all: repeat match goal with
       | |- context [String.eqb (Header_Get ?x "Content-Length") ""] =>
         destruct (String.eqb (Header_Get x "Content-Length") ""); step
       end.
  all: match goal with
       | |- context [Writer_write ?p ?w] => destruct (Writer_write p w)
       end; reflexivity.
Qed.

Lemma framed_nonempty bs :
  (0 <? String.length bs)%nat = true -> framed bs = chunk_frame bs.
Proof. intros H. unfold framed. now rewrite H. Qed.

Lemma framed_empty bs : (0 <? String.length bs)%nat = false -> bs = "".
Proof. destruct bs; [reflexivity | discriminate]. Qed.

Lemma effStatus_noBody code : noBody (effStatus code) = noBody code.
Proof.
  unfold effStatus. destruct (Z.eqb_spec code 0) as [->|]; reflexivity.
Qed.

(* EndResponse on a writer that is neither committed nor hijacked: it commits
   with isStreaming taken from an explicit Transfer-Encoding: chunked alone,
   writes the body, checks the buffer in and clears rw.body. *)
(* symbolic execution on a state whose records are all spelled out *)
Ltac exec :=
  cbv [bind ret panic when self update theBody body_Len body_Bytes body_Write
       body_Reset req_Proto ctx_Conn conn_Writer WriteString WriteBinary
       writer_Flush pool_Put pool_Get header_Set header_Del
       Hijacked writeChunk finishResponse
       with_rw with_tw with_bufPool with_rwPool with_ctxPool with_nread
       set_ctx set_req set_header set_statusCode set_wroteHeader set_hijacked
       set_chunked set_body committedRW commitChunked
       rw tw bufPool rwPool ctxPool nread
       ctx req header statusCode wroteHeader hijacked chunked body
       Writer_write Writer_flush pending wire write_err flush_err written
       fst snd negb andb orb bid B].

Lemma defaultStatus_spec s :
  defaultStatus s =
  Val tt (with_rw (set_statusCode (effStatus (statusCode (rw s))) (rw s)) s).
Proof.
  destruct s as [r w bp rp cp n]. destruct r as [c rq h code wh hj ch bd].
  unfold defaultStatus, effStatus. exec.
  now destruct (code =? 0)%Z.
Qed.

Lemma EndResponse_commit s q b :
  bound s q b -> uncommitted s -> healthy (tw s) ->
  let code := effStatus (statusCode (rw s)) in
  let str := explicitChunked (header (rw s)) in
  exists s',
    EndResponse s = Val None s' /\
    written (tw s') =
      written (tw s) +:+ headerBlock str (Proto q) code (B b) (header (rw s))
        +:+ endBody str code (B b) /\
    pending (tw s') = "" /\
    rw s' = set_body None (committedRW str b (set_statusCode code (rw s))) /\
    bufPool s' = bytebufferpool_Put b (bufPool s) /\
    rwPool s' = rwPool s /\ ctxPool s' = ctxPool s /\ nread s' = nread s.
Proof.
  destruct s as [r w bp rp cp n]. destruct r as [c rq h code0 wh hj ch bd].
  destruct w as [pe wi we fe]. destruct b as [i bs].
  intros [(c0 & cn & Hc & Hcn) [Hq Hb]] (Hhj & Hwh & Hch) [Hwe Hfe].
  cbn [rw tw ctx req body hijacked wroteHeader chunked write_err flush_err
       header statusCode] in *.
  subst. cbv zeta. unfold explicitChunked.
  cbn [rw tw ctx req body hijacked wroteHeader chunked header statusCode B].
  set (str := String.eqb (Header_Get h "Transfer-Encoding") "chunked").
  set (code := effStatus code0).
  unfold EndResponse. exec. rewrite Hcn. exec. fold str.
  rewrite defaultStatus_spec. exec. fold code.
  erewrite writeHeaders_commit by reflexivity. exec.
  unfold endBody, commitChunked, framed.
  destruct str, (noBody code) eqn:Hnb; exec; rewrite ?Hnb; exec.
  all: try (destruct (0 <? String.length bs)%nat eqn:Hlen; exec).
  all: eexists; repeat split.
  all: try (apply framed_empty in Hlen; rewrite Hlen).
  all: unfold chunk_frame, zero_chunk.
  all: rewrite ?append_assoc, ?append_nil_r; try reflexivity.
Qed.

(* --------------------------------------------------------------------- *)
(* The header lines of a commit                                          *)
(* --------------------------------------------------------------------- *)

(* The header loop emits a line "k: v" exactly for the values v stored under
   k, whatever the order of the range. *)
Lemma elem_of_fields (h : Header) (k v : string) :
  In (k, v) (fields h) <-> exists vs, h !! k = Some vs /\ In v vs.
Proof.
  unfold fields. rewrite in_flat_map. split.
  - intros [[k' vs] [Hin Hv]]. cbn [fst snd] in Hv.
    apply in_map_iff in Hv as (v' & Heq & Hv'). inversion Heq; subst.
    exists vs. split; [|exact Hv'].
    apply elem_of_map_to_list, list_elem_of_In.
    eapply Permutation_in; [apply rangeOrder_perm | exact Hin].
  - intros (vs & Hk & Hv). exists (k, vs). split.
    + eapply Permutation_in; [symmetry; apply rangeOrder_perm|].
      apply list_elem_of_In, elem_of_map_to_list, Hk.
    + cbn [fst snd]. apply in_map_iff. now exists v.
Qed.

Lemma lookup_withDate h k : k <> "Date" -> withDate h !! k = h !! k.
Proof.
  intros Hk. unfold withDate, Header_Set.
  destruct (String.eqb _ ""); [|reflexivity].
  now rewrite lookup_insert_ne.
Qed.

Lemma lookup_withContentType bs h k :
  k <> "Content-Type" -> withContentType bs h !! k = h !! k.
Proof.
  intros Hk. unfold withContentType, Header_Set.
  destruct (String.eqb _ ""); [|reflexivity].
  destruct (0 <? String.length bs)%nat; [|reflexivity].
  now rewrite lookup_insert_ne.
Qed.

Lemma lookup_prepared bs h k :
  k <> "Date" -> k <> "Content-Type" ->
  withContentType bs (withDate h) !! k = h !! k.
Proof.
  intros H1 H2. now rewrite lookup_withContentType, lookup_withDate.
Qed.

Lemma Header_Get_prepared bs h k :
  k <> "Date" -> k <> "Content-Type" ->
  Header_Get (withContentType bs (withDate h)) k = Header_Get h k.
Proof. intros H1 H2. unfold Header_Get. now rewrite lookup_prepared. Qed.

(* No commit leaves a Transfer-Encoding entry in the map: in chunked mode
   the only such line is the fixed one written before the loop. *)
Lemma committedHeader_TE str code bs h :
  committedHeader str code bs h !! "Transfer-Encoding" = None.
Proof.
  unfold committedHeader, Header_Del.
  destruct (commitChunked str code); apply lookup_delete_eq.
Qed.

(* A chunked commit strips Content-Length. *)
Lemma committedHeader_CL_chunked str code bs h :
  commitChunked str code = true ->
  committedHeader str code bs h !! "Content-Length" = None.
Proof.
  intros H. unfold committedHeader, Header_Del. rewrite H.
  rewrite lookup_delete_ne by discriminate. apply lookup_delete_eq.
Qed.

(* A commit that is not chunked keeps an explicit Content-Length as it is,
   and computes one only when none is set and the status allows a body. *)
Lemma committedHeader_CL_fixed str code bs h :
  commitChunked str code = false ->
  committedHeader str code bs h !! "Content-Length" =
  if String.eqb (Header_Get h "Content-Length") "" then
    if noBody code then h !! "Content-Length"
    else Some [Itoa (Z.of_nat (String.length bs))]
  else h !! "Content-Length".
Proof.
  intros H. unfold committedHeader, Header_Del, Header_Set. rewrite H.
  rewrite lookup_delete_ne by discriminate.
  rewrite Header_Get_prepared by discriminate.
  destruct (String.eqb (Header_Get h "Content-Length") "").
  - destruct (noBody code); cbn [negb].
    + apply lookup_prepared; discriminate.
    + apply lookup_insert_eq.
  - apply lookup_prepared; discriminate.
Qed.

(* --------------------------------------------------------------------- *)
(* Frame rules: what the writer's methods leave alone                    *)
(* --------------------------------------------------------------------- *)

Lemma keeps_ret P {A} (a : A) : keeps P (ret a).
Proof. intros s H. exact H. Qed.

Lemma keeps_panic P {A} : keeps P (@panic A).
Proof. intros s H. exact H. Qed.

Lemma keeps_bind P {A B} (m : M A) (k : A -> M B) :
  keeps P m -> (forall a, keeps P (k a)) -> keeps P (bind m k).
Proof.
  intros Hm Hk s H. unfold bind. specialize (Hm s H).
  destruct (m s) as [a s1|s1]; cbn [final] in *; [now apply Hk | exact Hm].
Qed.

Lemma keeps_when P b m : keeps P m -> keeps P (when b m).
Proof. intros H. destruct b; [exact H | apply keeps_ret]. Qed.

Lemma keeps_defer P {A} d (m : M A) :
  keeps P d -> keeps P m -> keeps P (defer_ d m).
Proof.
  intros Hd Hm s H. unfold defer_. specialize (Hm s H).
  destruct (m s) as [a s1|s1]; cbn [final] in Hm; specialize (Hd s1 Hm);
    destruct (d s1); exact Hd.
Qed.

Lemma keeps_recover P h m : keeps P h -> keeps P m -> keeps P (recover_ h m).
Proof.
  intros Hh Hm s H. unfold recover_. specialize (Hm s H).
  destruct (m s) as [a s1|s1]; cbn [final] in *; [exact Hm | now apply Hh].
Qed.

Create HintDb frame.

Lemma benign_set_body v : benign (set_body v).
Proof. intros r. repeat split. Qed.
Lemma benign_set_header v : benign (set_header v).
Proof. intros r. repeat split. Qed.
Lemma benign_set_hijacked v : benign (set_hijacked v).
Proof. intros r. repeat split. Qed.

Section FramePrim.

Variable P : St -> Prop.
Hypothesis HP : prim_safe P.

Lemma keeps_self : keeps P self.
Proof. intros s H. exact H. Qed.

Lemma keeps_update f : benign f -> keeps P (update f).
Proof. intros Hf s H. now apply HP. Qed.

Lemma keeps_theBody : keeps P theBody.
Proof. intros s H. unfold theBody. now destruct (body (rw s)). Qed.

Lemma keeps_req_Proto : keeps P req_Proto.
Proof. intros s H. unfold req_Proto. now destruct (req (rw s)). Qed.

Lemma keeps_ctx_Conn : keeps P ctx_Conn.
Proof. intros s H. unfold ctx_Conn. now destruct (ctx (rw s)). Qed.

Lemma keeps_WriteString p : keeps P (WriteString p).
Proof.
  intros s H. unfold WriteString. destruct (Writer_write p (tw s)).
  apply HP, H.
Qed.

Lemma keeps_WriteBinary p : keeps P (WriteBinary p).
Proof. apply keeps_WriteString. Qed.

Lemma keeps_writer_Flush : keeps P writer_Flush.
Proof.
  intros s H. unfold writer_Flush. destruct (Writer_flush (tw s)).
  apply HP, H.
Qed.

Lemma keeps_pool_Put b : keeps P (pool_Put b).
Proof. destruct b; [|apply keeps_panic]. intros s H. apply HP, H. Qed.

Lemma keeps_pool_Get : keeps P pool_Get.
Proof.
  intros s H. unfold pool_Get. destruct (bytebufferpool_Get (bufPool s)).
  apply HP, H.
Qed.

End FramePrim.

Hint Resolve keeps_ret keeps_panic keeps_self keeps_update keeps_theBody
  keeps_req_Proto keeps_ctx_Conn keeps_WriteString keeps_WriteBinary
  keeps_writer_Flush keeps_pool_Put keeps_pool_Get
  benign_set_body benign_set_header benign_set_hijacked : frame.

(* structural descent through a method body *)
Ltac frame :=
  repeat first
    [ progress auto with frame
    | apply keeps_bind; [|intros ?]
    | apply keeps_when
    | match goal with
      | |- keeps _ (if ?b then _ else _) => destruct b
      | |- keeps _ (match ?x with _ => _ end) => destruct x
      | |- keeps _ (let (_, _) := ?x in _) => destruct x
      end ].

Section FrameBody.

Variable P : St -> Prop.
Hypothesis HP : prim_safe P.

Lemma keeps_body_Len : keeps P body_Len.
Proof. unfold body_Len. frame. Qed.
Lemma keeps_body_Bytes : keeps P body_Bytes.
Proof. unfold body_Bytes. frame. Qed.
Lemma keeps_body_Write p : keeps P (body_Write p).
Proof. unfold body_Write. frame. Qed.
Lemma keeps_body_Reset : keeps P body_Reset.
Proof. unfold body_Reset. frame. Qed.
Lemma keeps_conn_Writer : keeps P conn_Writer.
Proof. unfold conn_Writer. frame. Qed.
Lemma keeps_header_Set k v : keeps P (header_Set k v).
Proof. unfold header_Set. frame. Qed.
Lemma keeps_header_Del k : keeps P (header_Del k).
Proof. unfold header_Del. frame. Qed.
Lemma keeps_writeChunk p : keeps P (writeChunk p).
Proof. unfold writeChunk. frame. Qed.
Lemma keeps_Hijacked : keeps P Hijacked.
Proof. unfold Hijacked. frame. Qed.

End FrameBody.

Hint Resolve keeps_body_Len keeps_body_Bytes keeps_body_Write keeps_body_Reset
  keeps_conn_Writer keeps_header_Set keeps_header_Del keeps_writeChunk
  keeps_Hijacked : frame.

Section Frame.

Variable P : St -> Prop.
Hypothesis HP : method_safe P.

Let HPp : prim_safe P := proj1 HP.

Lemma keeps_defaultStatus : keeps P defaultStatus.
Proof. apply HP. Qed.

Lemma keeps_WriteHeader code : keeps P (WriteHeader code).
Proof. apply HP. Qed.

Lemma keeps_writeHeaders str : keeps P (writeHeaders str).
Proof. apply HP. Qed.

Hint Resolve keeps_defaultStatus keeps_WriteHeader keeps_writeHeaders : frame.

Lemma keeps_Write p : keeps P (Write p).
Proof. unfold Write. frame. Qed.

Lemma keeps_finishResponse : keeps P finishResponse.
Proof. unfold finishResponse. frame. Qed.

Hint Resolve keeps_Write keeps_finishResponse : frame.

Lemma keeps_Flush : keeps P Flush.
Proof. unfold Flush. frame. Qed.

Lemma keeps_Hijack : keeps P Hijack.
Proof. unfold Hijack. frame. Qed.

Lemma keeps_EndResponse : keeps P EndResponse.
Proof. unfold EndResponse. frame. Qed.

Lemma keeps_chunkLoop r : keeps P (chunkLoop r).
Proof. induction r as [|rr rest IH]; cbn [chunkLoop]; frame. Qed.

Lemma keeps_wrapper_Write p : keeps P (wrapper_Write p).
Proof. unfold wrapper_Write. frame. Qed.

Hint Resolve keeps_wrapper_Write keeps_chunkLoop : frame.

Lemma keeps_copyBuffer r n : keeps P (copyBuffer r n).
Proof.
  revert n. induction r as [|rr rest IH]; intros n; cbn [copyBuffer]; frame.
Qed.

Hint Resolve keeps_copyBuffer keeps_Flush keeps_Hijack keeps_EndResponse : frame.

Lemma keeps_ReadFrom r : keeps P (ReadFrom r).
Proof. unfold ReadFrom. frame. Qed.

Hint Resolve keeps_ReadFrom : frame.

Lemma keeps_runOp o : keeps P (runOp o).
Proof. destruct o; cbn [runOp]; frame. Qed.

Lemma keeps_ServeHTTP ops : keeps P (ServeHTTP ops).
Proof.
  induction ops as [|o rest IH]; cbn [ServeHTTP]; [apply keeps_ret|].
  apply keeps_bind; [apply keeps_runOp | intros _; exact IH].
Qed.

End Frame.

(* A property that does not look at the receiver at all is safe. *)
Lemma indifferent_prim_safe P : indifferent P -> prim_safe P.
Proof.
  intros (Hrw & Htw & Hbp). repeat split; auto.
Qed.

Lemma keeps_update_any P f : indifferent P -> keeps P (update f).
Proof. intros HP s H. apply HP, H. Qed.

Lemma indifferent_method_safe P : indifferent P -> method_safe P.
Proof.
  intros HP. pose proof (indifferent_prim_safe P HP) as HPp.
  pose proof (fun f => keeps_update_any P f HP) as Hu.
  assert (Hd : keeps P defaultStatus) by (unfold defaultStatus; frame).
  split; [exact HPp|]. split; [exact Hd|]. split.
  - intros code. unfold WriteHeader. frame.
  - intros str. unfold writeHeaders. frame.
Qed.

(* Release never fails: the receiver is cleared and pushed on the pool, and
   its buffer is checked in when it still holds one. *)
Lemma Release_spec s :
  Release s =
  Val tt (with_rwPool (releasedRW (rw s) :: rwPool s)
            (with_bufPool (match body (rw s) with
                           | Some b => bytebufferpool_Put b (bufPool s)
                           | None => bufPool s
                           end)
               (with_rw (releasedRW (rw s)) s))).
Proof.
  destruct s as [r w bp rp cp n]. destruct r as [c rq h code wh hj ch bd].
  unfold Release, releasedRW. exec. destruct bd; reflexivity.
Qed.

Section EngineFrame.

Variable P : St -> Prop.
Hypothesis HP : pool_safe P.

Let HPi : indifferent P := proj1 HP.
Let HPm : method_safe P := indifferent_method_safe P HPi.

Lemma keeps_rwPool_Get : keeps P rwPool_Get.
Proof.
  intros s H. unfold rwPool_Get. destruct (rwPool s) eqn:E; [exact H|].
  cbn [final]. eapply HP; eauto.
Qed.

Lemma keeps_NewResponseWriter c q : keeps P (NewResponseWriter c q).
Proof.
  unfold NewResponseWriter.
  repeat first [ apply keeps_bind; [|intros ?]
               | apply keeps_rwPool_Get
               | apply keeps_update_any; exact HPi
               | apply keeps_pool_Get; exact (proj1 HPm) ].
Qed.

Lemma keeps_Release : keeps P Release.
Proof.
  intros s H. rewrite Release_spec. cbn [final].
  destruct HP as ((Hrw & Htw & Hbp) & Hcp & Hget & Hput).
  apply (Hput (with_bufPool _ (with_rw _ s))); [reflexivity|].
  apply Hbp, Hrw, H.
Qed.

Lemma keeps_NewRequestContext cn sc : keeps P (NewRequestContext cn sc).
Proof.
  intros s H. unfold NewRequestContext. destruct (ctxPool s); [exact H|].
  cbn [final]. apply HP, H.
Qed.

Lemma keeps_RequestContext_Release c : keeps P (RequestContext_Release c).
Proof. intros s H. unfold RequestContext_Release. cbn [final]. apply HP, H. Qed.

(* everything handleRequest does once the request is read *)
Lemma keeps_handle h c q :
  keeps P
    (NewResponseWriter c q;;
     defer_ Release
       (recover_ (WriteHeader StatusInternalServerError) (ServeHTTP (h q));;
        do err <- EndResponse;
        match err with
        | Some e => ret (c, None, false, Some e)
        | None => do hj <- Hijacked; ret (c, Some q, hj, None)
        end)).
Proof.
  apply keeps_bind; [apply keeps_NewResponseWriter | intros _].
  apply keeps_defer; [apply keeps_Release|].
  apply keeps_bind; [|intros _].
  - apply keeps_recover; [apply keeps_WriteHeader | apply keeps_ServeHTTP]; exact HPm.
  - apply keeps_bind; [apply keeps_EndResponse; exact HPm | intros [e|]].
    + apply keeps_ret.
    + apply keeps_bind; [apply keeps_Hijacked; exact (proj1 HPm) | intros ?; apply keeps_ret].
Qed.

End EngineFrame.

Lemma pool_safe_nread_eq k : pool_safe (fun s => nread s = k).
Proof. repeat split; intros; assumption. Qed.

Lemma pool_safe_nread_le k : pool_safe (fun s => k <= nread s).
Proof. repeat split; intros; assumption. Qed.

Lemma pool_safe_clean : pool_safe rwPool_clean.
Proof.
  unfold rwPool_clean. repeat split; intros; cbn [rwPool with_rwPool] in *;
    try assumption.
  - match goal with H : rwPool _ = _ :: _, F : Forall _ _ |- _ =>
      rewrite H in F; now inversion F end.
  - now constructor.
Qed.

(* --------------------------------------------------------------------- *)
(* The connection loop reads one request per turn                        *)
(* --------------------------------------------------------------------- *)

Lemma GetRequest_final c p s :
  final (GetRequest c p s) = with_nread (S (nread s)) s.
Proof.
  unfold GetRequest. exec. destruct p as [q| |]; try reflexivity.
  cbn [GetReader conn]. now destruct (conn c).
Qed.

Lemma handleRequest_nread h c p s :
  nread (final (handleRequest h c p s)) = S (nread s).
Proof.
  unfold handleRequest. unfold bind at 1.
  pose proof (GetRequest_final c p s) as Hg.
  destruct (GetRequest c p s) as [[[c' oq] err] s1|s1]; cbn [final] in Hg; subst s1.
  - destruct err as [e|]; [reflexivity|]. destruct oq as [q|]; [|reflexivity].
    now apply (keeps_handle _ (pool_safe_nread_eq (S (nread s)))).
  - reflexivity.
Qed.

Lemma handleRequest_keeps_lower h c p k :
  keeps (fun s => k <= nread s) (handleRequest h c p).
Proof.
  intros s H. cbv beta. rewrite handleRequest_nread. lia.
Qed.

Lemma serveOne_reads h cn sc p next s :
  (forall k, keeps (fun x => k <= nread x) next) ->
  S (nread s) <= nread (final (serveOne h cn sc p next s)).
Proof.
  intros Hnext. unfold serveOne. unfold bind at 1.
  assert (exists c s1, NewRequestContext cn sc s = Val c s1 /\ nread s1 = nread s)
    as (c & s1 & -> & Hc).
  { unfold NewRequestContext. destruct (ctxPool s); eauto. }
  unfold bind at 1. pose proof (handleRequest_nread h c p s1) as Hh.
  destruct (handleRequest h c p s1) as [[[[c' oq] hj] err] s2|s2];
    cbn [final] in Hh; [|cbn [final]; lia].
  assert (Hrel : forall m : M ConnExit,
            keeps (fun x => S (nread s) <= nread x) m ->
            S (nread s) <= nread (final ((RequestContext_Release c';; m) s2))).
  { intros m Hm.
    apply (keeps_bind (fun x => S (nread s) <= nread x)); [|intros _; exact Hm| lia].
    apply keeps_RequestContext_Release, pool_safe_nread_le. }
  destruct err as [e|].
  - apply Hrel, keeps_ret.
  - destruct hj; [cbn [final ret]; lia|].
    destruct oq as [q|]; [|cbn [final panic]; lia].
    apply Hrel. destruct (wantsClose q); [apply keeps_ret | apply Hnext].
Qed.

Lemma serveOne_keeps_lower h cn sc p next :
  (forall k, keeps (fun x => k <= nread x) next) ->
  forall k, keeps (fun x => k <= nread x) (serveOne h cn sc p next).
Proof.
  intros Hnext k s H. cbv beta.
  pose proof (serveOne_reads h cn sc p next s Hnext). lia.
Qed.

Lemma ServeConn_keeps_lower h cn sc incoming :
  forall k, keeps (fun x => k <= nread x) (ServeConn h cn sc incoming).
Proof.
  induction incoming as [|p rest IH]; cbn [ServeConn];
    apply serveOne_keeps_lower; [intros k; apply keeps_ret | exact IH].
Qed.

Lemma ServeConn_reads h cn sc incoming s :
  S (nread s) <= nread (final (ServeConn h cn sc incoming s)).
Proof.
  destruct incoming as [|p rest]; cbn [ServeConn]; apply serveOne_reads.
  - intros k. apply keeps_ret.
  - apply ServeConn_keeps_lower.
Qed.

(* handleRequest ends with the writer released to the pool *)
Lemma handleRequest_released h c p s x s1 :
  handleRequest h c p s = Val x s1 ->
  x.2 = None ->
  released (rw s1) /\ head (rwPool s1) = Some (rw s1).
Proof.
  unfold handleRequest. unfold bind at 1.
  destruct (GetRequest c p s) as [[[c' oq] err] s0|s0]; [|discriminate].
  destruct err as [e|].
  { intros H. inversion H; subst. discriminate. }
  destruct oq as [q|]; [|discriminate].
  unfold bind at 1. destruct (NewResponseWriter c' q s0) as [[] s2|s2]; [|discriminate].
  unfold defer_.
  match goal with |- match ?m with _ => _ end = _ -> _ => destruct m as [a s3|s3] end.
  - rewrite Release_spec. intros H _. inversion H; subst.
    cbn [rw rwPool with_rwPool with_bufPool with_rw head].
    unfold released, releasedRW; cbn [ctx req body header]. auto.
  - rewrite Release_spec. discriminate.
Qed.

(* --------------------------------------------------------------------- *)
(* WriteHeader                                                           *)
(* --------------------------------------------------------------------- *)

Lemma headerBlock_status str proto code bs h :
  headerBlock str proto code bs h =
  status_line proto code +:+
  (if commitChunked str code then "Transfer-Encoding: chunked" +:+ CRLF else "") +:+
  header_lines (committedHeader str code bs h) +:+ CRLF.
Proof.
  unfold headerBlock. destruct (commitChunked str code).
  - now rewrite !append_assoc.
  - reflexivity.
Qed.

(* spell a state out into its fields *)
Ltac open_state s :=
  destruct s as [[?c ?rq ?h ?code ?wh ?hj ?ch ?bd] [?pe ?wi ?we ?fe] ?bp ?rp ?cp ?n];
  cbn [rw tw bufPool rwPool ctxPool nread ctx req header statusCode wroteHeader
       hijacked chunked body pending wire write_err flush_err] in *.

Lemma WriteHeader_open code s :
  wroteHeader (rw s) = false -> hijacked (rw s) = false ->
  WriteHeader code s = Val tt (with_rw (set_statusCode code (rw s)) s).
Proof.
  open_state s. intros -> ->. unfold WriteHeader. exec. reflexivity.
Qed.

Lemma WriteHeader_closed code s :
  wroteHeader (rw s) = true \/ hijacked (rw s) = true ->
  WriteHeader code s = Val tt s.
Proof.
  open_state s. unfold WriteHeader. exec.
  intros [-> | ->]; [reflexivity | now destruct wh].
Qed.

Lemma WriteHeader_seq codes : forall s,
  wroteHeader (rw s) = false -> hijacked (rw s) = false ->
  ServeHTTP (map OpWriteHeader codes) s =
  Val tt (with_rw (set_statusCode
                     (fold_left (fun _ c => c) codes (statusCode (rw s))) (rw s)) s).
Proof.
  induction codes as [|c rest IH]; intros s Hw Hh.
  - open_state s. reflexivity.
  - cbn [map ServeHTTP runOp]. unfold bind at 1.
    rewrite WriteHeader_open by assumption.
    rewrite IH by (open_state s; assumption).
    open_state s. reflexivity.
Qed.

(** C5, amended.  Before the headers are committed and before a hijack every
    WriteHeader call overwrites the pending status, so of a sequence of calls
    the last one decides the status line that the commit emits (0 counts as
    not set and is emitted as 200); once the headers are committed or the
    connection is hijacked a call changes nothing. *)
Theorem WriteHeader_last_call_wins s q b codes c :
  bound s q b -> uncommitted s -> healthy (tw s) ->
  exists s1 s2 rest,
    ServeHTTP (map OpWriteHeader (codes ++ [c])) s = Val tt s1 /\
    rw s1 = set_statusCode c (rw s) /\
    EndResponse s1 = Val None s2 /\
    written (tw s2) =
      written (tw s) +:+ status_line (Proto q) (effStatus c) +:+ rest /\
    (forall s' c', wroteHeader (rw s') = true \/ hijacked (rw s') = true ->
                   WriteHeader c' s' = Val tt s').
Proof.
  intros Hb (Hhj & Hwh & Hch) Hw.
  rewrite WriteHeader_seq by assumption. rewrite fold_left_app. cbn [fold_left].
  set (s1 := with_rw (set_statusCode c (rw s)) s).
  destruct (EndResponse_commit s1 q b) as (s2 & He & Hout & _).
  { open_state s. exact Hb. }
  { open_state s. repeat split; assumption. }
  { open_state s. exact Hw. }
  exists s1, s2. eexists. split; [reflexivity|]. split; [open_state s; reflexivity|].
  split; [exact He|]. split.
  - rewrite Hout. rewrite headerBlock_status.
    replace (statusCode (rw s1)) with c by (open_state s; reflexivity).
    replace (written (tw s1)) with (written (tw s)) by (open_state s; reflexivity).
    rewrite !append_assoc. reflexivity.
  - intros s' c'. apply WriteHeader_closed.
Qed.

(* --------------------------------------------------------------------- *)
(* The commit flags stay coherent whatever a handler does                *)
(* --------------------------------------------------------------------- *)

Lemma coherent_prim_safe : prim_safe (fun s => coherent (rw s)).
Proof.
  split; [|split].
  - intros w s H. exact H.
  - intros p s H. exact H.
  - intros f Hf s H. destruct (Hf (rw s)) as (Hs & Hw & Hc).
    cbn [rw with_rw]. unfold coherent in *. rewrite Hs, Hw, Hc. exact H.
Qed.

Lemma coherent_defaultStatus : keeps (fun s => coherent (rw s)) defaultStatus.
Proof.
  intros s [H1 H2]. rewrite defaultStatus_spec. open_state s.
  cbn [final rw with_rw set_statusCode]. unfold coherent in *.
  cbn [wroteHeader chunked statusCode set_statusCode] in *.
  rewrite effStatus_noBody. tauto.
Qed.

Lemma coherent_WriteHeader code :
  keeps (fun s => coherent (rw s)) (WriteHeader code).
Proof.
  intros s [H1 H2]. open_state s. unfold WriteHeader. exec.
  destruct wh; [split; assumption|]. destruct hj; [split; assumption|].
  cbn [final]. exec. unfold coherent. cbn [wroteHeader chunked statusCode].
  rewrite (H1 eq_refl). split; [reflexivity | discriminate].
Qed.

Lemma coherent_committedRW str b r :
  wroteHeader r = false -> coherent r -> coherent (committedRW str b r).
Proof.
  intros Hw [H1 H2]. unfold coherent, committedRW, commitChunked.
  cbn [wroteHeader chunked statusCode]. rewrite (H1 Hw).
  split; [discriminate|].
  destruct str, (noBody (statusCode r)); cbn [andb negb]; congruence.
Qed.

Lemma coherent_writeHeaders str :
  keeps (fun s => coherent (rw s)) (writeHeaders str).
Proof.
  intros s H. destruct (wroteHeader (rw s)) eqn:Hw.
  - open_state s. subst. unfold writeHeaders. exec. exact H.
  - destruct (req (rw s)) as [q|] eqn:Hq, (body (rw s)) as [b|] eqn:Hb.
    1: { rewrite (writeHeaders_commit str s q b Hw Hq Hb).
         open_state s. cbn [final rw with_rw with_tw].
         now apply coherent_committedRW. }
    (* a nil request or a nil body: the commit may stop in a panic, with
       wroteHeader set; chunked is set only past the status test *)
    all: destruct H as [H1 H2]; open_state s; subst; specialize (H1 eq_refl); subst.
    all: destruct we; unfold writeHeaders; exec.
    all: repeat match goal with
                | |- context [if ?c then _ else _] => destruct c eqn:?; exec
                end.
    all: cbn [final]; exec; split; cbn [wroteHeader chunked statusCode];
         intros; try congruence.
    all: destruct str, (noBody code); congruence.
Qed.

Lemma coherent_method_safe : method_safe (fun s => coherent (rw s)).
Proof.
  split; [apply coherent_prim_safe|]. split; [apply coherent_defaultStatus|].
  split; [apply coherent_WriteHeader | apply coherent_writeHeaders].
Qed.

(* Whatever calls a handler makes on a coherent writer, and whether it
   returns or panics, the writer it leaves is coherent. *)
Lemma coherent_ServeHTTP ops s :
  coherent (rw s) -> coherent (rw (final (ServeHTTP ops s))).
Proof. apply (keeps_ServeHTTP _ coherent_method_safe ops s). Qed.

(* A writer just handed out by NewResponseWriter is coherent. *)
Lemma coherent_NewResponseWriter c q s :
  coherent (rw (final (NewResponseWriter c q s))).
Proof.
  open_state s. unfold NewResponseWriter, rwPool_Get.
  destruct rp as [|r0 rp']; exec; unfold bytebufferpool_Get;
    destruct bp as [[|b0 rest] f]; cbn [idle fresh]; exec;
    cbn [final rw]; split; cbn [wroteHeader chunked]; intros; congruence.
Qed.

(* --------------------------------------------------------------------- *)
(* EndResponse: statuses without a body, recovered handler faults        *)
(* --------------------------------------------------------------------- *)

Lemma noBody_effStatus code : noBody code = true -> effStatus code = code.
Proof.
  unfold effStatus. destruct (Z.eqb_spec code 0) as [->|]; [discriminate | reflexivity].
Qed.

Lemma no_TE_field str code bs h v :
  ~ In ("Transfer-Encoding", v) (fields (committedHeader str code bs h)).
Proof.
  rewrite elem_of_fields. intros (vs & Hk & _).
  rewrite committedHeader_TE in Hk. discriminate.
Qed.

(* EndResponse on a writer whose headers are already out in fixed-length
   mode: only the body, and none for a status without a body. *)
Lemma EndResponse_committed_fixed s q b :
  bound s q b -> hijacked (rw s) = false -> healthy (tw s) ->
  wroteHeader (rw s) = true -> chunked (rw s) = false ->
  exists s',
    EndResponse s = Val None s' /\
    written (tw s') =
      written (tw s) +:+ (if noBody (statusCode (rw s)) then "" else B b).
Proof.
  intros [(c0 & cn & Hc & Hcn) [Hq Hb]] Hhj [Hwe Hfe] Hwh Hch.
  open_state s. destruct b as [i bs]. subst.
  unfold EndResponse. exec. rewrite Hcn. exec.
  destruct (noBody code); exec.
  - eexists. split; [reflexivity|]. exec. now rewrite !append_nil_r.
  - destruct (0 <? String.length bs)%nat eqn:Hlen; exec.
    + eexists. split; [reflexivity|]. exec. now rewrite append_nil_r, ?append_assoc.
    + apply framed_empty in Hlen. subst bs.
      eexists. split; [reflexivity|]. exec. now rewrite !append_nil_r.
Qed.

(** C4, amended.  When the status set before the commit is 1xx, 204 or 304,
    EndResponse writes no body bytes, whatever was buffered with Write: if
    the headers were committed before, it writes nothing at all; if it
    commits them itself, it writes the status line, the header lines and the
    blank line, with no Transfer-Encoding among the header lines and a
    Content-Length line exactly for the values the caller stored under
    Content-Length: an explicit Content-Length is emitted unchanged, none is
    computed.  (Every writer a handler leaves is coherent:
    coherent_NewResponseWriter, coherent_ServeHTTP.) *)
Theorem EndResponse_noBody_status s q b :
  bound s q b -> hijacked (rw s) = false -> coherent (rw s) ->
  healthy (tw s) ->
  noBody (statusCode (rw s)) = true ->
  exists s',
    EndResponse s = Val None s' /\
    (wroteHeader (rw s) = true -> written (tw s') = written (tw s)) /\
    (wroteHeader (rw s) = false ->
     written (tw s') =
       written (tw s) +:+ status_line (Proto q) (statusCode (rw s)) +:+
       header_lines (header (rw s')) +:+ CRLF /\
     (forall v, ~ In ("Transfer-Encoding", v) (fields (header (rw s')))) /\
     (forall v, In ("Content-Length", v) (fields (header (rw s'))) <->
                exists vs, header (rw s) !! "Content-Length" = Some vs /\ In v vs)).
Proof.
  intros Hb Hhj [Hco1 Hco2] Hw Hnb.
  destruct (wroteHeader (rw s)) eqn:Hwh.
  - assert (Hch : chunked (rw s) = false).
    { destruct (chunked (rw s)); [|reflexivity]. specialize (Hco2 eq_refl). congruence. }
    destruct (EndResponse_committed_fixed s q b Hb Hhj Hw Hwh Hch) as (s' & He & Hout).
    rewrite Hnb, append_nil_r in Hout.
    exists s'. split; [exact He|]. split; [intros _; exact Hout | discriminate].
  - assert (Hu : uncommitted s) by (repeat split; auto).
    destruct (EndResponse_commit s q b Hb Hu Hw) as (s' & He & Hout & _ & Hrw & _).
    rewrite (noBody_effStatus _ Hnb) in Hout, Hrw.
    assert (Hcc : commitChunked (explicitChunked (header (rw s))) (statusCode (rw s)) = false).
    { unfold commitChunked. rewrite Hnb. now destruct (explicitChunked _). }
    assert (Hh : header (rw s') =
                 committedHeader (explicitChunked (header (rw s)))
                   (statusCode (rw s)) (B b) (header (rw s))).
    { rewrite Hrw. open_state s. reflexivity. }
    exists s'. split; [exact He|]. split; [discriminate|]. intros _.
    split; [|split].
    + rewrite Hout, Hh. unfold headerBlock, endBody. rewrite Hcc, Hnb.
      now rewrite append_nil_r, ?append_assoc.
    + intros v. rewrite Hh. apply no_TE_field.
    + intros v. rewrite Hh, elem_of_fields.
      rewrite (committedHeader_CL_fixed _ _ _ _ Hcc), Hnb.
      now destruct (String.eqb _ "").
Qed.

(* --------------------------------------------------------------------- *)
(* ReadFrom in fixed-length mode                                         *)
(* --------------------------------------------------------------------- *)

(* On a transport that accepts everything, the copy loop puts the blocks on
   the wire one after the other and nothing else. *)
Lemma copyBuffer_healthy r : forall n0 rw0 wi bp rp cp n,
  exists res,
    copyBuffer r n0 (mkSt rw0 (mkWriter "" wi None None) bp rp cp n) =
    Val res (mkSt rw0 (mkWriter "" (wi +:+ streamed r) None None) bp rp cp n).
Proof.
  induction r as [|[data err] rest IH]; intros n0 rw0 wi bp rp cp n.
  - cbn [copyBuffer streamed]. rewrite append_nil_r. eexists. reflexivity.
  - cbn [copyBuffer streamed rd_data rd_err].
    destruct (0 <? String.length data)%nat eqn:Hlen.
    + unfold wrapper_Write. exec. rewrite Nat.eqb_refl.
      change ("" +:+ data) with data.
      destruct err as [e|].
      * rewrite append_nil_r. eexists. reflexivity.
      * destruct (IH (n0 + Z.of_nat (String.length data))%Z rw0 (wi +:+ data) bp rp cp n)
          as [res Hres].
        rewrite Hres, append_assoc. eexists. reflexivity.
    + apply framed_empty in Hlen. subst data. exec.
      change ("" +:+ ?x) with x.
      destruct err as [e|].
      * rewrite append_nil_r. eexists. reflexivity.
      * destruct (IH n0 rw0 wi bp rp cp n) as [res Hres].
        rewrite Hres. eexists. reflexivity.
Qed.

Lemma Header_Get_has h k : Header_Get h k <> "" -> Header_has h k = true.
Proof.
  unfold Header_Get, Header_has. destruct (h !! k); [reflexivity | congruence].
Qed.

(* ReadFrom on a writer that is neither committed nor hijacked and holds a
   Content-Length entry but no explicit chunked: the headers go out in
   fixed-length mode and are flushed, then the source is copied unframed.
   The buffered body stays in the buffer. *)
Lemma ReadFrom_fixed r s q b :
  bound s q b -> uncommitted s -> healthy (tw s) ->
  Header_has (header (rw s)) "Content-Length" = true ->
  explicitChunked (header (rw s)) = false ->
  exists res s',
    ReadFrom r s = Val res s' /\
    rw s' = committedRW false b (set_statusCode (effStatus (statusCode (rw s))) (rw s)) /\
    written (tw s') =
      written (tw s) +:+
      headerBlock false (Proto q) (effStatus (statusCode (rw s))) (B b) (header (rw s)) +:+
      streamed r /\
    pending (tw s') = "" /\ healthy (tw s').
Proof.
  intros [(c0 & cn & Hc & Hcn) [Hq Hb]] (Hhj & Hwh & Hch) [Hwe Hfe] Hcl Hte.
  open_state s. destruct b as [i bs]. subst.
  unfold explicitChunked in Hte.
  unfold ReadFrom. exec. rewrite Hcn. exec.
  rewrite defaultStatus_spec. exec. rewrite Hcl, Hte. exec.
  erewrite writeHeaders_commit by reflexivity. exec.
  match goal with
  | |- context [copyBuffer r 0%Z (mkSt ?rw0 (mkWriter "" ?wi None None) bp rp cp n)] =>
    destruct (copyBuffer_healthy r 0%Z rw0 wi bp rp cp n) as [res Hres]
  end.
  rewrite Hres. eexists. eexists. split; [reflexivity|]. unfold healthy. exec.
  repeat split. now rewrite append_nil_r, ?append_assoc.
Qed.

(* On a transport that accepts everything, the chunked loop puts every
   block on the wire in a frame of its own and ends by break. *)
Lemma chunkLoop_healthy r : forall rw0 wi bp rp cp n,
  exists e,
    chunkLoop r (mkSt rw0 (mkWriter "" wi None None) bp rp cp n) =
    Val (Broke e)
      (mkSt rw0 (mkWriter "" (wi +:+ streamedChunks r) None None) bp rp cp n).
Proof.
  induction r as [|[data err] rest IH]; intros rw0 wi bp rp cp n.
  - cbn [chunkLoop streamedChunks]. rewrite append_nil_r. eexists. reflexivity.
  - cbn [chunkLoop streamedChunks rd_data rd_err]. unfold framed.
    destruct (0 <? String.length data)%nat eqn:Hlen.
    + exec. unfold chunk_frame.
      replace (wi +:+ (("" +:+ FormatHex (String.length data) +:+ CRLF) +:+ data) +:+ CRLF)
        with (wi +:+ FormatHex (String.length data) +:+ CRLF +:+ data +:+ CRLF)
        by (change ("" +:+ ?x) with x; now rewrite !append_assoc).
      destruct err as [e|].
      * rewrite append_nil_r. eexists. reflexivity.
      * destruct (IH rw0 (wi +:+ FormatHex (String.length data) +:+ CRLF +:+ data +:+ CRLF)
                    bp rp cp n) as [e He].
        rewrite He, !append_assoc. eexists. reflexivity.
    + exec. change ("" +:+ ?x) with x.
      destruct err as [e|].
      * rewrite append_nil_r. eexists. reflexivity.
      * destruct (IH rw0 wi bp rp cp n) as [e He]. rewrite He. eexists. reflexivity.
Qed.

(* ReadFrom on a writer that is neither committed nor hijacked and holds no
   Content-Length entry: the commit is chunked (unless the status has no
   body), explicit Transfer-Encoding or not, and every block read goes out
   in a chunk frame.  This is the default that EndResponse does not have. *)
Lemma ReadFrom_default_chunked r s q b :
  bound s q b -> uncommitted s -> healthy (tw s) ->
  Header_has (header (rw s)) "Content-Length" = false ->
  noBody (statusCode (rw s)) = false ->
  exists res s',
    ReadFrom r s = Val res s' /\
    chunked (rw s') = true /\
    written (tw s') =
      written (tw s) +:+
      headerBlock true (Proto q) (effStatus (statusCode (rw s))) (B b) (header (rw s)) +:+
      streamedChunks r.
Proof.
  intros [(c0 & cn & Hc & Hcn) [Hq Hb]] (Hhj & Hwh & Hch) [Hwe Hfe] Hcl Hnb.
  open_state s. destruct b as [i bs]. subst.
  unfold ReadFrom. exec. rewrite Hcn. exec.
  rewrite defaultStatus_spec. exec. rewrite Hcl. exec.
  destruct (String.eqb (Header_Get h "Transfer-Encoding") "chunked"); exec.
  all: erewrite writeHeaders_commit by reflexivity; exec.
  all: rewrite effStatus_noBody, Hnb; exec.
  all: match goal with
       | |- context [chunkLoop ?r0 (mkSt ?rw0 (mkWriter "" ?wi None None) ?bp0 ?rp0 ?cp0 ?n0)] =>
         destruct (chunkLoop_healthy r0 rw0 wi bp0 rp0 cp0 n0) as [e He]
       end.
  all: rewrite He; exec; eexists; eexists; (split; [reflexivity|]); exec.
  all: split; [reflexivity|]; now rewrite ?append_nil_r, ?append_assoc, ?append_nil_r.
Qed.

Lemma committedHeader_CL_kept code bs h :
  Header_Get h "Content-Length" <> "" ->
  committedHeader false code bs h !! "Content-Length" = h !! "Content-Length".
Proof.
  intros Hcl. rewrite committedHeader_CL_fixed by reflexivity.
  destruct (String.eqb_spec (Header_Get h "Content-Length") ""); [contradiction | reflexivity].
Qed.

(** C6, amended.  When a Content-Length is set explicitly before the first
    commit and Transfer-Encoding: chunked is not set explicitly, EndResponse
    and ReadFrom commit in fixed-length mode: no Transfer-Encoding line is
    emitted, the Content-Length lines are the ones the caller stored, and
    the body follows the header block unframed: the buffered bytes for
    EndResponse (none for a 1xx, 204 or 304 status), the bytes read from the
    source for ReadFrom, after which EndResponse adds the buffered bytes,
    again unframed and with no zero chunk.  The number of bytes is not
    compared with the declared length. *)
Theorem explicit_ContentLength_fixed s q b r :
  bound s q b -> uncommitted s -> healthy (tw s) ->
  Header_Get (header (rw s)) "Content-Length" <> "" ->
  explicitChunked (header (rw s)) = false ->
  (exists s',
     EndResponse s = Val None s' /\
     chunked (rw s') = false /\
     written (tw s') =
       written (tw s) +:+
       status_line (Proto q) (effStatus (statusCode (rw s))) +:+
       header_lines (header (rw s')) +:+ CRLF +:+
       (if noBody (statusCode (rw s)) then "" else B b) /\
     (forall v, ~ In ("Transfer-Encoding", v) (fields (header (rw s')))) /\
     (forall v, In ("Content-Length", v) (fields (header (rw s'))) <->
                exists vs, header (rw s) !! "Content-Length" = Some vs /\ In v vs)) /\
  (exists res s' s'',
     ReadFrom r s = Val res s' /\
     chunked (rw s') = false /\
     written (tw s') =
       written (tw s) +:+
       status_line (Proto q) (effStatus (statusCode (rw s))) +:+
       header_lines (header (rw s')) +:+ CRLF +:+ streamed r /\
     (forall v, ~ In ("Transfer-Encoding", v) (fields (header (rw s')))) /\
     (forall v, In ("Content-Length", v) (fields (header (rw s'))) <->
                exists vs, header (rw s) !! "Content-Length" = Some vs /\ In v vs) /\
     EndResponse s' = Val None s'' /\
     written (tw s'') =
       written (tw s') +:+ (if noBody (statusCode (rw s)) then "" else B b)).
Proof.
  intros Hb Hu Hw Hcl Hte.
  pose proof Hu as (Hhj & Hwh & Hch).
  set (code := effStatus (statusCode (rw s))).
  set (H' := committedHeader false code (B b) (header (rw s))).
  assert (Hfields :
    (forall v, ~ In ("Transfer-Encoding", v) (fields H')) /\
    (forall v, In ("Content-Length", v) (fields H') <->
               exists vs, header (rw s) !! "Content-Length" = Some vs /\ In v vs)).
  { split; intros v; [apply no_TE_field|].
    unfold H'. now rewrite elem_of_fields, committedHeader_CL_kept. }
  split.
  - destruct (EndResponse_commit s q b Hb Hu Hw) as (s' & He & Hout & _ & Hrw & _).
    rewrite Hte in Hout, Hrw. fold code in Hout, Hrw.
    assert (Hh : header (rw s') = H') by (rewrite Hrw; open_state s; reflexivity).
    exists s'. split; [exact He|]. split; [|split].
    + rewrite Hrw. open_state s. exec. exact Hch.
    + rewrite Hout, Hh. unfold headerBlock, endBody, commitChunked. cbn [andb].
      fold H'. unfold code at 2. rewrite effStatus_noBody.
      now rewrite ?append_assoc.
    + rewrite Hh. exact Hfields.
  - destruct (ReadFrom_fixed r s q b Hb Hu Hw (Header_Get_has _ _ Hcl) Hte)
      as (res & s' & He & Hrw & Hout & _ & Hw').
    fold code in Hout, Hrw.
    assert (Hh : header (rw s') = H') by (rewrite Hrw; open_state s; reflexivity).
    assert (Hch' : chunked (rw s') = false).
    { rewrite Hrw. open_state s. exec. exact Hch. }
    assert (Hsame : ctx (rw s') = ctx (rw s) /\ req (rw s') = req (rw s) /\
                    body (rw s') = body (rw s) /\
                    hijacked (rw s') = hijacked (rw s) /\
                    wroteHeader (rw s') = true /\ statusCode (rw s') = code).
    { rewrite Hrw. open_state s. repeat split. }
    destruct Hsame as (Hc' & Hq' & Hb' & Hhj' & Hwh' & Hst').
    destruct (EndResponse_committed_fixed s' q b) as (s'' & He2 & Hout2).
    { unfold bound. rewrite Hc', Hq', Hb'. exact Hb. }
    { now rewrite Hhj'. }
    { exact Hw'. }
    { exact Hwh'. }
    { exact Hch'. }
    exists res, s', s''. split; [exact He|]. split; [exact Hch'|].
    split; [|split; [rewrite Hh; apply Hfields|
             split; [rewrite Hh; apply Hfields|split; [exact He2|]]]].
    + rewrite Hout, Hh. unfold headerBlock, commitChunked. cbn [andb].
      fold H'. now rewrite ?append_assoc.
    + rewrite Hout2, Hst'. unfold code. now rewrite effStatus_noBody.
Qed.

(* --------------------------------------------------------------------- *)
(* Flush                                                                 *)
(* --------------------------------------------------------------------- *)

Lemma Write_open p s b :
  hijacked (rw s) = false -> body (rw s) = Some b ->
  Write p s =
  Val (String.length p, None)
    (with_rw (set_body (Some (mkBuf (bid b) (B b +:+ p)))
                (if wroteHeader (rw s) then rw s
                 else set_statusCode (effStatus (statusCode (rw s))) (rw s))) s).
Proof.
  open_state s. intros -> ->. unfold Write. exec.
  destruct wh; exec; [reflexivity|].
  rewrite defaultStatus_spec. exec. reflexivity.
Qed.

(* What Flush does on a writer that is not hijacked: the header block first
   when the headers are not committed yet, then the buffered bytes in one
   chunk frame, whatever the mode; the buffer is emptied and the transport
   flushed. *)
Lemma Flush_spec s q b :
  bound s q b -> hijacked (rw s) = false -> healthy (tw s) ->
  (wroteHeader (rw s) = false -> chunked (rw s) = false) ->
  exists s',
    Flush s = Val tt s' /\
    wroteHeader (rw s') = true /\ hijacked (rw s') = false /\
    chunked (rw s') = flushMode (rw s) /\
    bound s' q (mkBuf (bid b) "") /\ healthy (tw s') /\
    pending (tw s') = "" /\
    written (tw s') =
      written (tw s) +:+
      (if wroteHeader (rw s) then ""
       else headerBlock true (Proto q) (effStatus (statusCode (rw s))) (B b)
              (header (rw s))) +:+
      framed (B b).
Proof.
  intros [(c0 & cn & Hc & Hcn) [Hq Hb]] Hhj [Hwe Hfe] Hch.
  open_state s. destruct b as [i bs]. subst.
  unfold flushMode, bound, healthy. cbn [wroteHeader chunked statusCode].
  unfold Flush. exec. rewrite Hcn. exec.
  destruct wh; exec.
  - destruct (0 <? String.length bs)%nat eqn:Hlen; exec.
    + eexists. split; [reflexivity|]. exec. unfold framed, chunk_frame. rewrite Hlen.
      repeat split; eauto; try now rewrite ?append_assoc.
    + apply framed_empty in Hlen. subst bs.
      eexists. split; [reflexivity|]. exec. unfold framed. cbn [String.length Nat.ltb Nat.leb].
      repeat split; eauto; try now rewrite ?append_nil_r.
  - rewrite (Hch eq_refl).
    rewrite defaultStatus_spec. exec.
    erewrite writeHeaders_commit by reflexivity. exec.
    destruct (noBody (effStatus code)) eqn:Hnb; exec.
    all: destruct (0 <? String.length bs)%nat eqn:Hlen; exec.
    all: eexists; (split; [reflexivity|]); exec; unfold framed, chunk_frame; rewrite Hlen.
    all: repeat split; eauto; try now rewrite ?append_nil_r, ?append_assoc.
    all: apply framed_empty in Hlen; now subst bs.
Qed.

(** C7, amended.  On a writer that is not hijacked Flush commits the headers
    when they are not committed yet, in chunked mode unless the status is
    1xx, 204 or 304 (then the header block carries no Transfer-Encoding and
    the writer is not in chunked mode); when the writer is in chunked mode
    after that, the bytes buffered so far go out as one chunk frame, the
    buffer is emptied and the transport flushed, and a later Flush frames
    whatever was written since. *)
Theorem Flush_commits_and_frames s q b :
  bound s q b -> hijacked (rw s) = false -> healthy (tw s) ->
  (wroteHeader (rw s) = false -> chunked (rw s) = false) ->
  exists s' tail,
    Flush s = Val tt s' /\
    wroteHeader (rw s') = true /\
    chunked (rw s') = flushMode (rw s) /\
    pending (tw s') = "" /\
    written (tw s') =
      written (tw s) +:+
      (if wroteHeader (rw s) then ""
       else headerBlock true (Proto q) (effStatus (statusCode (rw s))) (B b)
              (header (rw s))) +:+
      tail /\
    (flushMode (rw s) = true ->
     tail = framed (B b) /\
     body (rw s') = Some (mkBuf (bid b) "") /\
     forall p, exists s'',
       (Write p;; Flush) s' = Val tt s'' /\
       written (tw s'') = written (tw s') +:+ framed p).
Proof.
  intros Hb Hhj Hw Hch.
  destruct (Flush_spec s q b Hb Hhj Hw Hch)
    as (s' & Hf & Hwh' & Hhj' & Hch' & Hb' & Hw' & Hpe & Hout).
  exists s', (framed (B b)). repeat split; try assumption.
  - apply Hb'.
  - intros p. unfold bind.
    rewrite (Write_open p s' (mkBuf (bid b) "")) by (assumption || apply Hb').
    rewrite Hwh'. cbn [bid B]. change ("" +:+ p) with p.
    set (s1 := with_rw (set_body (Some (mkBuf (bid b) p)) (rw s')) s').
    destruct (Flush_spec s1 q (mkBuf (bid b) p)) as (s'' & Hf2 & _ & _ & _ & _ & _ & _ & Hout2).
    + destruct Hb' as (Hc & Hq & _). unfold s1. open_state s'.
      repeat split; assumption.
    + unfold s1. open_state s'. exact Hhj'.
    + unfold s1. open_state s'. exact Hw'.
    + unfold s1. open_state s'. exec. intros; congruence.
    + exists s''. split; [exact Hf2|]. rewrite Hout2.
      replace (wroteHeader (rw s1)) with true
        by (unfold s1; open_state s'; exec; congruence).
      replace (written (tw s1)) with (written (tw s'))
        by (unfold s1; open_state s'; reflexivity).
      reflexivity.
Qed.

(* --------------------------------------------------------------------- *)
(* The connection loop                                                   *)
(* --------------------------------------------------------------------- *)

Section LoopFrame.

Variable P : St -> Prop.
Hypothesis HP : pool_safe P.
Hypothesis HPn : forall s, P s -> P (with_nread (S (nread s)) s).

Lemma keeps_handleRequest h c p : keeps P (handleRequest h c p).
Proof.
  unfold handleRequest. apply keeps_bind.
  - intros s H. rewrite GetRequest_final. apply HPn, H.
  - intros [[c' oq] err]. destruct err as [e|]; [apply keeps_ret|].
    destruct oq as [q|]; [|apply keeps_panic].
    apply keeps_handle, HP.
Qed.

Lemma keeps_serveOne h cn sc p next :
  keeps P next -> keeps P (serveOne h cn sc p next).
Proof.
  intros Hnext. unfold serveOne.
  apply keeps_bind; [apply keeps_NewRequestContext, HP | intros c].
  apply keeps_bind; [apply keeps_handleRequest | intros [[[c' oq] hj] err]].
  destruct err as [e|].
  - apply keeps_bind; [apply keeps_RequestContext_Release, HP | intros _; apply keeps_ret].
  - destruct hj; [apply keeps_ret|]. destruct oq as [q|]; [|apply keeps_panic].
    apply keeps_bind; [apply keeps_RequestContext_Release, HP | intros _].
    destruct (wantsClose q); [apply keeps_ret | exact Hnext].
Qed.

Lemma keeps_ServeConn h cn sc incoming : keeps P (ServeConn h cn sc incoming).
Proof.
  induction incoming as [|p rest IH]; cbn [ServeConn]; apply keeps_serveOne;
    [apply keeps_ret | exact IH].
Qed.

End LoopFrame.

(* the test at the end of a turn, req.Close ||
   req.Header.Get("Connection") == "close", in words *)
Lemma wantsClose_true q :
  wantsClose q = true <->
  Close q = true \/ Header_Get (ReqHeader q) "Connection" = "close".
Proof.
  unfold wantsClose. rewrite Bool.orb_true_iff, String.eqb_eq. reflexivity.
Qed.

(** C8.  When a request is read and finalized without error and without
    hijack, the writer has been released to its pool, and the loop releases
    the request context and then returns nil right there if the request has
    Close set or its Connection header is "close"; if neither holds it goes
    on to the next turn on the same transport.  So the turn is the last
    one, with no further read, exactly when the request has Close set or
    carries Connection: close. *)
Theorem ServeConn_closes_iff_asked h cn sc p rest s c' q s1 :
  (do c <- NewRequestContext cn sc; handleRequest h c p) s =
    Val (c', Some q, false, None) s1 ->
  let s2 := with_ctxPool (RequestContext_reset c' :: ctxPool s1) s1 in
  released (rw s1) /\ head (rwPool s1) = Some (rw s1) /\
  (Close q = true \/ Header_Get (ReqHeader q) "Connection" = "close" ->
   ServeConn h cn sc (p :: rest) s = Val ReturnNil s2) /\
  (~ (Close q = true \/ Header_Get (ReqHeader q) "Connection" = "close") ->
   ServeConn h cn sc (p :: rest) s = ServeConn h cn sc rest s2) /\
  (nread (final (ServeConn h cn sc (p :: rest) s)) = S (nread s) <->
   Close q = true \/ Header_Get (ReqHeader q) "Connection" = "close").
Proof.
  intros H s2.
  assert (exists c s0, NewRequestContext cn sc s = Val c s0 /\ nread s0 = nread s)
    as (c & s0 & Hnew & Hn0).
  { unfold NewRequestContext. destruct (ctxPool s); eauto. }
  unfold bind in H. rewrite Hnew in H.
  pose proof (handleRequest_nread h c p s0) as Hn1. rewrite H in Hn1. cbn [final] in Hn1.
  destruct (handleRequest_released _ _ _ _ _ _ H eq_refl) as [Hrel Hhead].
  assert (Heq : ServeConn h cn sc (p :: rest) s =
                (if wantsClose q then Val ReturnNil s2 else ServeConn h cn sc rest s2)).
  { cbn [ServeConn]. unfold serveOne. unfold bind at 1. rewrite Hnew.
    unfold bind at 1. rewrite H. unfold bind, RequestContext_Release. fold s2.
    now destruct (wantsClose q). }
  split; [exact Hrel|]. split; [exact Hhead|].
  rewrite <- wantsClose_true. rewrite Heq.
  destruct (wantsClose q).
  - split; [reflexivity|]. split; [intros Hn; now contradiction Hn|].
    cbn [final]. unfold s2. cbn [nread with_ctxPool]. split; [reflexivity | lia].
  - split; [discriminate|]. split; [reflexivity|].
    pose proof (ServeConn_reads h cn sc rest s2) as Hr.
    unfold s2 in Hr at 1. cbn [nread with_ctxPool] in Hr.
    split; [lia | discriminate].
Qed.

(** C9.  Whenever every writer in the pool has an empty header map,
    NewResponseWriter returns a writer with status 0, the three flags false,
    an empty header map, a body buffer taken from the buffer pool and the
    context and request of the new request; and the pool keeps that property through any run of
    the connection loop, whatever the handler did to its writer, since
    Release clears the map before the writer goes back. *)
Theorem NewResponseWriter_fresh s c q :
  rwPool_clean s ->
  (exists s' b,
     NewResponseWriter c q s = Val tt s' /\
     rw s' = mkRW (Some c) (Some q) ∅ 0 false false false (Some b) /\
     rwPool_clean s') /\
  (forall h cn sc incoming, rwPool_clean (final (ServeConn h cn sc incoming s))).
Proof.
  intros Hclean. split.
  - pose proof (keeps_NewResponseWriter _ pool_safe_clean c q s Hclean) as Hk.
    unfold rwPool_clean in Hclean.
    open_state s. unfold NewResponseWriter in *. unfold rwPool_Get in *.
    destruct rp as [|r0 rp']; exec; unfold bytebufferpool_Get;
      destruct bp as [[|b0 rest] f]; cbn [idle fresh]; exec.
    all: eexists; eexists; split; [reflexivity|]; cbn [rw B].
    all: repeat split; try exact Hk.
    all: inversion Hclean as [|? ? Hr0 ?]; subst; destruct r0; cbn [header] in Hr0;
         now subst.
  - intros h cn sc incoming.
    apply (keeps_ServeConn _ pool_safe_clean); [|exact Hclean].
    intros s0 H0. exact H0.
Qed.

(* --------------------------------------------------------------------- *)
(* Hijack, the default framing of EndResponse, the buffer check-ins      *)
(* --------------------------------------------------------------------- *)

(* Hijack looks at the hijacked flag only: on a writer that is not hijacked
   it succeeds, committed or not. *)
Lemma Hijack_not_hijacked s c :
  hijacked (rw s) = false -> ctx (rw s) = Some c ->
  Hijack s =
  Val (conn c, Some (conn c), None) (with_rw (set_hijacked true (rw s)) s).
Proof.
  open_state s. intros -> ->. unfold Hijack. exec. reflexivity.
Qed.

Lemma Hijack_hijacked s :
  hijacked (rw s) = true ->
  Hijack s = Val (None, None, Some errHijacked) s.
Proof.
  open_state s. intros ->. unfold Hijack. exec. reflexivity.
Qed.

(* With no explicit Transfer-Encoding: chunked, an EndResponse that commits
   never chooses chunked mode, with or without a Content-Length. *)
Lemma EndResponse_default_fixed s q b :
  bound s q b -> uncommitted s -> healthy (tw s) ->
  explicitChunked (header (rw s)) = false ->
  exists s',
    EndResponse s = Val None s' /\
    chunked (rw s') = false /\
    written (tw s') =
      written (tw s) +:+
      status_line (Proto q) (effStatus (statusCode (rw s))) +:+
      header_lines (header (rw s')) +:+ CRLF +:+
      (if noBody (statusCode (rw s)) then "" else B b).
Proof.
  intros Hb Hu Hw Hte. pose proof Hu as (Hhj & Hwh & Hch).
  destruct (EndResponse_commit s q b Hb Hu Hw) as (s' & He & Hout & _ & Hrw & _).
  rewrite Hte in Hout, Hrw.
  exists s'. split; [exact He|]. split.
  - rewrite Hrw. open_state s. exec. exact Hch.
  - rewrite Hout, Hrw. unfold headerBlock, endBody, commitChunked. cbn [andb].
    rewrite effStatus_noBody.
    replace (header (set_body None (committedRW false b
               (set_statusCode (effStatus (statusCode (rw s))) (rw s)))))
      with (committedHeader false (effStatus (statusCode (rw s))) (B b) (header (rw s)))
      by (open_state s; reflexivity).
    now rewrite ?append_assoc.
Qed.

(* On the normal path the body buffer is checked in once: EndResponse clears
   rw.body and Release finds nothing to put back. *)
Lemma checkins_normal_path s q b :
  bound s q b -> uncommitted s -> healthy (tw s) ->
  exists s',
    (EndResponse;; Release) s = Val tt s' /\
    checkins (bid b) (bufPool s') = S (checkins (bid b) (bufPool s)).
Proof.
  intros Hb Hu Hw.
  destruct (EndResponse_commit s q b Hb Hu Hw) as (s1 & He & _ & _ & Hrw & Hbp & _).
  unfold bind. rewrite He, Release_spec. eexists. split; [reflexivity|].
  cbn [bufPool with_rwPool with_bufPool]. rewrite Hrw. cbn [body set_body].
  rewrite Hbp. unfold checkins, bytebufferpool_Put. cbn [idle count_occ].
  destruct (Nat.eq_dec (bid b) (bid b)); [reflexivity | contradiction].
Qed.

(* After a hijack EndResponse checks the buffer in and leaves rw.body set,
   so Release checks it in a second time. *)
Lemma checkins_hijacked_path s b :
  hijacked (rw s) = true -> body (rw s) = Some b ->
  exists s',
    (EndResponse;; Release) s = Val tt s' /\
    checkins (bid b) (bufPool s') = S (S (checkins (bid b) (bufPool s))).
Proof.
  intros Hhj Hb. open_state s. destruct b as [i bs]. subst.
  unfold bind at 1. unfold EndResponse. exec.
  rewrite Release_spec. eexists. split; [reflexivity|]. exec.
  unfold checkins, bytebufferpool_Put. cbn [idle count_occ bid].
  destruct (Nat.eq_dec i i); [reflexivity | contradiction].
Qed.

(* --------------------------------------------------------------------- *)
(* Inside a request cycle no call on the writer panics                   *)
(* --------------------------------------------------------------------- *)

Lemma sameCycle_refl s : sameCycle s s.
Proof. repeat split. Qed.

Lemma sameCycle_trans s1 s2 s3 :
  sameCycle s1 s2 -> sameCycle s2 s3 -> sameCycle s1 s3.
Proof.
  intros (A1 & A2 & A3 & A4 & A5) (B1 & B2 & B3 & B4 & B5).
  repeat split; congruence.
Qed.

Lemma live_sameCycle s s' : live s -> sameCycle s s' -> live s'.
Proof.
  intros (q & b & (c & cn & Hc & Hcn) & Hq & Hb) (H1 & H2 & H3 & _).
  rewrite Hb in H3. destruct (body (rw s')) as [b'|] eqn:Hb'; [|discriminate].
  exists q, b'. split; [exists c, cn; split; congruence|]. split; congruence.
Qed.

(* the loops of ReadFrom only write to the transport *)
Lemma chunkLoop_total r : forall s,
  exists ex w, chunkLoop r s = Val ex (with_tw w s) /\
               write_err w = write_err (tw s) /\ flush_err w = flush_err (tw s).
Proof.
  induction r as [|[data err] rest IH]; intros s.
  - exists (Broke None), (tw s). open_state s. repeat split.
  - cbn [chunkLoop rd_data rd_err]. open_state s.
    destruct we, fe, (0 <? String.length data)%nat, err; exec;
      try (eexists; eexists; split; [reflexivity|]; split; reflexivity).
    all: match goal with
         | H : forall s, exists ex w, chunkLoop ?r0 s = _ /\ _
           |- context [chunkLoop ?r0 ?s0] =>
           destruct (H s0) as (ex & w & -> & Hw1 & Hw2);
           eexists; eexists; split; [reflexivity|]; split; assumption
         end.
Qed.

Lemma copyBuffer_total r : forall n s,
  exists res w, copyBuffer r n s = Val res (with_tw w s) /\
                write_err w = write_err (tw s) /\ flush_err w = flush_err (tw s).
Proof.
  induction r as [|[data err] rest IH]; intros n s.
  - exists (n, None), (tw s). open_state s. repeat split.
  - cbn [copyBuffer rd_data rd_err]. unfold wrapper_Write. open_state s.
    destruct we, fe, (0 <? String.length data)%nat eqn:Hlen, err; exec;
      rewrite ?Nat.eqb_refl;
      try (eexists; eexists; split; [reflexivity|]; split; reflexivity).
    all: match goal with
         | H : forall n s, exists res w, copyBuffer ?r0 n s = _ /\ _
           |- context [copyBuffer ?r0 ?m ?s0] =>
           destruct (H m s0) as (res & w & -> & Hw1 & Hw2);
           eexists; eexists; split; [reflexivity|]; split; assumption
         end.
Qed.

Ltac open_live s :=
  let q := fresh "q" in let b := fresh "b" in
  let c0 := fresh "c0" in let cn := fresh "cn" in
  let Hc := fresh "Hc" in let Hcn := fresh "Hcn" in
  let Hq := fresh "Hq" in let Hb := fresh "Hb" in
  intros (q & b & (c0 & cn & Hc & Hcn) & Hq & Hb);
  open_state s; destruct b as [?i ?bs]; subst.

Ltac split_ifs :=
  repeat match goal with
         | |- context [if ?c then _ else _] => destruct c eqn:?; exec
         end.

Lemma Write_total p s :
  live s ->
  exists r s', Write p s = Val r s' /\ sameCycle s s' /\
               hijacked (rw s') = hijacked (rw s).
Proof.
  open_live s. unfold Write. exec. destruct hj, wh; exec;
    rewrite ?defaultStatus_spec; exec;
    eexists; eexists; (split; [reflexivity|]); repeat split.
Qed.

Lemma Flush_total s :
  live s ->
  exists s', Flush s = Val tt s' /\ sameCycle s s' /\
             hijacked (rw s') = hijacked (rw s).
Proof.
  open_live s. unfold Flush. exec. destruct hj; exec.
  { eexists. split; [reflexivity|]. repeat split. }
  rewrite Hcn. exec. destruct we, fe, wh; exec.
  all: rewrite ?defaultStatus_spec; exec.
  all: try (erewrite writeHeaders_commit by reflexivity; exec).
  all: destruct (0 <? String.length bs)%nat; exec.
  all: eexists; (split; [reflexivity|]); repeat split.
Qed.

Lemma Hijack_total s :
  live s -> exists r s', Hijack s = Val r s' /\ sameCycle s s'.
Proof.
  open_live s. unfold Hijack. exec. destruct hj; exec;
    eexists; eexists; (split; [reflexivity|]); repeat split.
Qed.

Lemma WriteHeader_total code s :
  exists s', WriteHeader code s = Val tt s' /\ sameCycle s s' /\
             hijacked (rw s') = hijacked (rw s).
Proof.
  open_state s. unfold WriteHeader. exec. destruct wh, hj; exec;
    eexists; (split; [reflexivity|]); repeat split.
Qed.

Lemma ReadFrom_total r s :
  live s ->
  exists res s', ReadFrom r s = Val res s' /\ sameCycle s s' /\
                 hijacked (rw s') = hijacked (rw s).
Proof.
  open_live s. unfold ReadFrom. exec. destruct hj; exec.
  { eexists. eexists. split; [reflexivity|]. repeat split. }
  rewrite Hcn. exec. destruct wh; exec.
  - destruct ch.
    + match goal with
      | |- context [chunkLoop r ?s0] =>
        destruct (chunkLoop_total r s0) as (ex & w & -> & Hw1 & Hw2)
      end.
      destruct w as [pe' wi' we' fe']. cbn [tw write_err flush_err] in Hw1, Hw2.
      subst we' fe'.
      destruct ex; exec.
      * eexists. eexists. split; [reflexivity|]. repeat split.
      * destruct fe; exec;
          eexists; eexists; (split; [reflexivity|]); repeat split.
    + match goal with
      | |- context [copyBuffer r ?m ?s0] =>
        destruct (copyBuffer_total r m s0) as (res & w & -> & Hw1 & Hw2)
      end.
      eexists. eexists. split; [reflexivity|]. repeat split; assumption.
  - rewrite defaultStatus_spec. exec.
    erewrite writeHeaders_commit by reflexivity. exec.
    destruct we, fe; exec.
    all: try (eexists; eexists; (split; [reflexivity|]); repeat split; fail).
    all: match goal with
         | |- context [if ?c then _ else _] => destruct c eqn:?
         end.
    all: try match goal with
         | |- context [chunkLoop ?r0 ?s0] =>
           destruct (chunkLoop_total r0 s0) as (ex & w & -> & Hw1 & Hw2);
           destruct w as [pe' wi' we' fe'];
           cbn [tw write_err flush_err] in Hw1, Hw2; subst we' fe';
           destruct ex; exec
         end.
    all: try match goal with
         | |- context [copyBuffer ?r0 ?m ?s0] =>
           destruct (copyBuffer_total r0 m s0) as (res & w & -> & Hw1 & Hw2)
         end.
    all: eexists; eexists; (split; [reflexivity|]); repeat split; assumption.
Qed.

Lemma EndResponse_total s :
  live s -> exists e s', EndResponse s = Val e s'.
Proof.
  open_live s. unfold EndResponse. exec. destruct hj; exec.
  { eexists. eexists. reflexivity. }
  rewrite Hcn. exec. destruct we, fe, wh; exec.
  all: rewrite ?defaultStatus_spec; exec.
  all: try (erewrite writeHeaders_commit by reflexivity; exec).
  all: split_ifs.
  all: eexists; eexists; reflexivity.
Qed.

Lemma classic_OpPanic o : o = OpPanic \/ o <> OpPanic.
Proof. destruct o; (now left) || (right; discriminate). Qed.

(* every call but an explicit panic returns, in the same request cycle; only
   Hijack changes the hijacked flag *)
Lemma runOp_total o s :
  live s -> o <> OpPanic ->
  exists s', runOp o s = Val tt s' /\ sameCycle s s' /\
             (o <> OpHijack -> hijacked (rw s') = hijacked (rw s)).
Proof.
  intros Hl Ho. destruct o; cbn [runOp]; try contradiction.
  - open_state s. exec. eexists. split; [reflexivity|]. repeat split.
  - destruct (WriteHeader_total code s) as (s' & He & Hs & Hh). eauto.
  - destruct (Write_total p s Hl) as (r & s' & He & Hs & Hh). unfold bind. rewrite He.
    eauto.
  - destruct (ReadFrom_total r s Hl) as (res & s' & He & Hs & Hh). unfold bind.
    rewrite He. eauto.
  - destruct (Flush_total s Hl) as (s' & He & Hs & Hh). eauto.
  - destruct (Hijack_total s Hl) as (r & s' & He & Hs). unfold bind. rewrite He.
    exists s'. split; [reflexivity|]. split; [exact Hs|]. intros H. now contradiction H.
Qed.

(* a handler run, ended by a panic or not, stays in the request cycle *)
Lemma ServeHTTP_sameCycle ops : forall s,
  live s -> sameCycle s (final (ServeHTTP ops s)).
Proof.
  induction ops as [|o rest IH]; intros s Hl; cbn [ServeHTTP].
  - apply sameCycle_refl.
  - destruct (classic_OpPanic o) as [->|Ho].
    + apply sameCycle_refl.
    + destruct (runOp_total o s Hl Ho) as (s' & He & Hs & _). unfold bind. rewrite He.
      eapply sameCycle_trans; [exact Hs|]. apply IH. eapply live_sameCycle; eauto.
Qed.

(* ... and a handler that does not call Hijack leaves the flag as it is *)
Lemma ServeHTTP_hijacked_flag ops : forall s,
  live s -> Forall (fun o => o <> OpHijack) ops ->
  hijacked (rw (final (ServeHTTP ops s))) = hijacked (rw s).
Proof.
  induction ops as [|o rest IH]; intros s Hl Hops; cbn [ServeHTTP]; [reflexivity|].
  inversion Hops as [|? ? Ho Hrest]; subst.
  destruct (classic_OpPanic o) as [->|Hp]; [reflexivity|].
  destruct (runOp_total o s Hl Hp) as (s' & He & Hs & Hh). unfold bind. rewrite He.
  rewrite IH; [now apply Hh | eapply live_sameCycle; eauto | exact Hrest].
Qed.

Lemma NewResponseWriter_live c q cn s :
  conn c = Some cn ->
  exists s', NewResponseWriter c q s = Val tt s' /\ live s' /\
             uncommitted s' /\ statusCode (rw s') = 0%Z /\
             ctx (rw s') = Some c /\ req (rw s') = Some q /\
             (exists i, body (rw s') = Some (mkBuf i "")) /\
             tw s' = tw s /\ nread s' = nread s /\ ctxPool s' = ctxPool s.
Proof.
  intros Hcn. open_state s. unfold NewResponseWriter, rwPool_Get.
  destruct rp as [|r0 rp']; exec; unfold bytebufferpool_Get;
    destruct bp as [[|b0 rest] f]; cbn [idle fresh]; exec.
  all: eexists; split; [reflexivity|]; cbn [rw ctx req]; split;
       [|repeat split; eexists; reflexivity].
  all: eexists; eexists; (split; [exists c, cn; split; [reflexivity | exact Hcn]|]);
       split; reflexivity.
Qed.

(* the handler under the recovery of handleRequest: it always returns, in
   the same request cycle *)
Lemma recover_total ops s :
  live s ->
  exists s2,
    recover_ (WriteHeader StatusInternalServerError) (ServeHTTP ops) s = Val tt s2 /\
    sameCycle s s2 /\
    (Forall (fun o => o <> OpHijack) ops -> hijacked (rw s2) = hijacked (rw s)).
Proof.
  intros Hl. unfold recover_.
  pose proof (ServeHTTP_sameCycle ops s Hl) as Hs.
  pose proof (ServeHTTP_hijacked_flag ops s Hl) as Hh.
  destruct (ServeHTTP ops s) as [[] s2|s2]; cbn [final] in *.
  - eauto.
  - destruct (WriteHeader_total StatusInternalServerError s2) as (s3 & -> & Hs3 & Hh3).
    exists s3. split; [reflexivity|]. split; [eapply sameCycle_trans; eauto|].
    intros Hops. rewrite Hh3. auto.
Qed.

(* handleRequest on a request that parses, step by step: the writer is taken
   from the pool, the handler runs under the recovery, EndResponse ends the
   response and the deferred Release puts the writer back *)
Lemma handleRequest_Parsed h c q cn s :
  conn c = Some cn ->
  exists s1 s2 e s3,
    NewResponseWriter (GetReader c) (served q cn) (with_nread (S (nread s)) s)
      = Val tt s1 /\
    recover_ (WriteHeader StatusInternalServerError)
      (ServeHTTP (h (served q cn))) s1 = Val tt s2 /\
    EndResponse s2 = Val e s3 /\
    live s1 /\ live s2 /\
    handleRequest h c (Parsed q) s =
      Val (match e with
           | Some e => (GetReader c, None, false, Some e)
           | None => (GetReader c, Some (served q cn), hijacked (rw s3), None)
           end) (final (Release s3)).
Proof.
  intros Hcn.
  destruct (NewResponseWriter_live (GetReader c) (served q cn) cn
              (with_nread (S (nread s)) s) Hcn) as (s1 & H1 & Hl1 & _).
  destruct (recover_total (h (served q cn)) s1 Hl1) as (s2 & H2 & Hs2 & _).
  destruct (EndResponse_total s2 (live_sameCycle _ _ Hl1 Hs2)) as (e & s3 & H3).
  exists s1, s2, e, s3. repeat (split; [assumption|]).
  split; [exact (live_sameCycle _ _ Hl1 Hs2)|].
  unfold handleRequest. unfold bind at 1. unfold GetRequest.
  unfold bind at 1. cbv beta iota. cbn [GetReader conn]. rewrite Hcn.
  unfold ret at 1. cbv beta iota. fold (served q cn).
  change (mkCtx (conn c) (parent c) (Some (conn c))) with (GetReader c).
  unfold bind at 1. rewrite H1. unfold defer_.
  unfold bind at 1. rewrite H2. unfold bind at 1. rewrite H3.
  destruct e as [e|]; cbv [bind ret Hijacked self]; rewrite !Release_spec;
    reflexivity.
Qed.

(* handleRequest returns, whatever the handler does: a panic of the handler
   is recovered, and a nil error always comes with the request *)
Lemma handleRequest_total h c p cn s :
  conn c = Some cn ->
  exists c' oq hj err s',
    handleRequest h c p s = Val (c', oq, hj, err) s' /\
    conn c' = Some cn /\ (err = None -> oq <> None).
Proof.
  intros Hcn. destruct p as [q| |].
  - destruct (handleRequest_Parsed h c q cn s Hcn)
      as (s1 & s2 & e & s3 & _ & _ & _ & _ & _ & ->).
    destruct e as [e|]; do 5 eexists; (split; [reflexivity|]);
      (split; [exact Hcn | discriminate]).
  - open_state s. do 5 eexists. split; [reflexivity|]. split; [exact Hcn | discriminate].
  - open_state s. do 5 eexists. split; [reflexivity|]. split; [exact Hcn | discriminate].
Qed.

Lemma NewRequestContext_spec cn sc s :
  NewRequestContext cn sc s =
  Val (pooledCtx cn sc s) (with_ctxPool (tl (ctxPool s)) s).
Proof. open_state s. destruct cp; reflexivity. Qed.

Lemma ctxPool_indifferent k : indifferent (fun s => ctxPool s = k).
Proof. repeat split; intros ? s H; open_state s; exact H. Qed.

(* handleRequest leaves the context pool alone *)
Lemma handleRequest_ctxPool h c p cn s :
  conn c = Some cn ->
  ctxPool (final (handleRequest h c p s)) = ctxPool s.
Proof.
  intros Hcn. destruct p as [q| |]; [|open_state s; reflexivity..].
  destruct (handleRequest_Parsed h c q cn s Hcn)
    as (s1 & s2 & e & s3 & H1 & H2 & H3 & _ & _ & ->).
  cbn [final]. rewrite Release_spec. cbn [final].
  pose proof (indifferent_method_safe _ (ctxPool_indifferent (ctxPool s))) as HP.
  assert (E1 : ctxPool s1 = ctxPool s).
  { destruct (NewResponseWriter_live (GetReader c) (served q cn) cn
                (with_nread (S (nread s)) s) Hcn)
      as (s1' & H1' & _ & _ & _ & _ & _ & _ & _ & _ & Hc).
    rewrite H1 in H1'. injection H1' as <-. rewrite Hc. open_state s. reflexivity. }
  assert (E2 : ctxPool s2 = ctxPool s).
  { pose proof (keeps_recover _ _ _
                  (keeps_WriteHeader _ HP StatusInternalServerError)
                  (keeps_ServeHTTP _ HP (h (served q cn))) s1 E1) as K.
    rewrite H2 in K. exact K. }
  assert (E3 : ctxPool s3 = ctxPool s).
  { pose proof (keeps_EndResponse _ HP s2 E2) as K. rewrite H3 in K. exact K. }
  open_state s3. exact E3.
Qed.

Lemma serveOne_total h cn sc p next :
  (forall s, exists e s', next s = Val e s') ->
  forall s, exists e s', serveOne h cn sc p next s = Val e s'.
Proof.
  intros Hnext s. unfold serveOne. unfold bind at 1.
  rewrite NewRequestContext_spec.
  destruct (handleRequest_total h (pooledCtx cn sc s) p cn
              (with_ctxPool (tl (ctxPool s)) s) eq_refl)
    as (c' & oq & hj & err & s1 & He & _ & Hoq).
  unfold bind at 1. rewrite He.
  destruct err as [e|]; [exec; eauto|].
  destruct hj; [exec; eauto|].
  destruct oq as [q|]; [|now specialize (Hoq eq_refl)].
  unfold bind, RequestContext_Release. destruct (wantsClose q); [exec; eauto|].
  apply Hnext.
Qed.

(** X1.  With a handler that makes only the calls of an Op list on its
    writer (Header, WriteHeader, Write, ReadFrom, Flush, Hijack) and that
    may panic, no panic escapes ServeConn: the handler's panic is recovered
    in handleRequest, and no call that the loop or the handler makes on the
    writer dereferences a nil context, request or body, whatever the
    results of reading and whatever the transport answers.  (A handler
    that calls EndResponse or Release itself is outside this statement, and
    so is a handler that never returns.) *)
Theorem ServeConn_never_panics h cn sc incoming s :
  exists e s', ServeConn h cn sc incoming s = Val e s'.
Proof.
  revert s. induction incoming as [|p rest IH]; intros s; cbn [ServeConn].
  - apply serveOne_total. intros s0. exec. eauto.
  - apply serveOne_total. exact IH.
Qed.

Lemma ServeHTTP_total ops : forall s,
  live s -> Forall (fun o => o <> OpPanic) ops ->
  exists s', ServeHTTP ops s = Val tt s' /\ sameCycle s s' /\ live s'.
Proof.
  induction ops as [|o rest IH]; intros s Hl Hops; cbn [ServeHTTP].
  - exists s. split; [reflexivity|]. split; [apply sameCycle_refl | exact Hl].
  - inversion Hops as [|? ? Ho Hrest]; subst.
    destruct (runOp_total o s Hl Ho) as (s1 & He & Hs1 & _).
    pose proof (live_sameCycle _ _ Hl Hs1) as Hl1.
    destruct (IH s1 Hl1 Hrest) as (s2 & He2 & Hs2 & Hl2).
    exists s2. unfold bind. rewrite He. split; [exact He2|].
    split; [eapply sameCycle_trans; eauto | exact Hl2].
Qed.

(** X2.  Inside a request cycle (the writer holds its context with a
    connection, its request and its body buffer) a handler that does not
    panic itself runs to its end whatever calls it makes: no call on the
    writer panics, failing transport or not; the writer keeps the same
    context, request and body buffer throughout, and it is hijacked
    afterwards only if it was before or the handler called Hijack. *)
Theorem handler_calls_return ops s :
  live s -> Forall (fun o => o <> OpPanic) ops ->
  exists s',
    ServeHTTP ops s = Val tt s' /\ sameCycle s s' /\ live s' /\
    (Forall (fun o => o <> OpHijack) ops -> hijacked (rw s') = hijacked (rw s)).
Proof.
  intros Hl Hops.
  destruct (ServeHTTP_total ops s Hl Hops) as (s' & He & Hs & Hl').
  exists s'. repeat (split; [assumption|]).
  intros Hnh. pose proof (ServeHTTP_hijacked_flag ops s Hl Hnh) as Hh.
  rewrite He in Hh. exact Hh.
Qed.

(* --------------------------------------------------------------------- *)
(* A hijacked writer                                                     *)
(* --------------------------------------------------------------------- *)

Lemma runOp_hijacked o s :
  hijacked (rw s) = true ->
  exists h', final (runOp o s) = with_rw (set_header h' (rw s)) s.
Proof.
  intros Hh. open_state s. subst hj.
  destruct o; cbn [runOp]; unfold WriteHeader, Write, ReadFrom, Flush, Hijack;
    exec; try destruct wh; exec; eexists; reflexivity.
Qed.

Lemma ServeHTTP_hijacked ops : forall s,
  hijacked (rw s) = true ->
  exists h', final (ServeHTTP ops s) = with_rw (set_header h' (rw s)) s.
Proof.
  induction ops as [|o rest IH]; intros s Hh; cbn [ServeHTTP].
  - exists (header (rw s)). open_state s. reflexivity.
  - destruct (runOp_hijacked o s Hh) as (h1 & H1). unfold bind.
    destruct (runOp o s) as [[] s1|s1]; cbn [final] in H1; subst s1.
    + destruct (IH (with_rw (set_header h1 (rw s)) s)) as (h2 & ->).
      { open_state s. exact Hh. }
      exists h2. open_state s. reflexivity.
    + exists h1. reflexivity.
Qed.

(** X3.  Once the connection is hijacked the writer is inert: Write and
    ReadFrom return errHijacked, Flush and a second Hijack do nothing
    (Hijack reports errHijacked), and whatever the handler goes on to call,
    only the header map can change; status, flags and body buffer stay as
    they are and nothing reaches the transport, also not from the
    EndResponse that follows. *)
Theorem hijacked_writer_is_inert s ops :
  hijacked (rw s) = true ->
  (forall p, Write p s = Val (0, Some errHijacked) s) /\
  (forall r, ReadFrom r s = Val (0%Z, Some errHijacked) s) /\
  Flush s = Val tt s /\
  Hijack s = Val (None, None, Some errHijacked) s /\
  (exists h', final (ServeHTTP ops s) = with_rw (set_header h' (rw s)) s) /\
  tw (final (EndResponse (final (ServeHTTP ops s)))) = tw s.
Proof.
  intros Hh. repeat split.
  - intros p. open_state s. subst hj. reflexivity.
  - intros r. open_state s. subst hj. reflexivity.
  - open_state s. subst hj. reflexivity.
  - open_state s. subst hj. reflexivity.
  - apply ServeHTTP_hijacked, Hh.
  - destruct (ServeHTTP_hijacked ops s Hh) as (h' & ->).
    open_state s. subst hj. unfold EndResponse. exec. destruct bd; reflexivity.
Qed.

(* --------------------------------------------------------------------- *)
(* The commit is final                                                   *)
(* --------------------------------------------------------------------- *)

Lemma effStatus_idem code : effStatus (effStatus code) = effStatus code.
Proof. unfold effStatus. destruct (code =? 0)%Z eqn:E; [reflexivity|]. now rewrite E. Qed.

Lemma writeHeaders_committed str s :
  wroteHeader (rw s) = true -> writeHeaders str s = Val tt s.
Proof. intros Hw. open_state s. subst wh. reflexivity. Qed.

Lemma committed_method_safe c z :
  method_safe (fun s => wroteHeader (rw s) = true /\ chunked (rw s) = c /\
                        effStatus (statusCode (rw s)) = z).
Proof.
  split; [split; [|split]|split; [|split]].
  - intros w s H. open_state s. exact H.
  - intros p s H. open_state s. exact H.
  - intros f Hf s (H1 & H2 & H3). destruct (Hf (rw s)) as (F1 & F2 & F3).
    open_state s. cbn [with_rw rw]. rewrite F1, F2, F3. auto.
  - intros s (H1 & H2 & H3). rewrite defaultStatus_spec. open_state s.
    cbn [final with_rw rw set_statusCode statusCode wroteHeader chunked].
    rewrite effStatus_idem. auto.
  - intros code s H. rewrite WriteHeader_closed by (left; apply H). exact H.
  - intros str s H. rewrite writeHeaders_committed by apply H. exact H.
Qed.

(** X4.  The commit is final: once the headers are committed, nothing the
    handler calls afterwards (WriteHeader, Write, ReadFrom, Flush, Hijack,
    changes of the header map, a panic) and not the EndResponse that follows
    changes the committed flag, the transfer mode or the status (0 read as
    200). *)
Theorem commit_is_final s ops :
  wroteHeader (rw s) = true ->
  let s1 := final (ServeHTTP ops s) in
  let s2 := final (EndResponse s1) in
  (wroteHeader (rw s1) = true /\ chunked (rw s1) = chunked (rw s) /\
   effStatus (statusCode (rw s1)) = effStatus (statusCode (rw s))) /\
  (wroteHeader (rw s2) = true /\ chunked (rw s2) = chunked (rw s) /\
   effStatus (statusCode (rw s2)) = effStatus (statusCode (rw s))).
Proof.
  intros Hw s1 s2.
  pose proof (committed_method_safe (chunked (rw s)) (effStatus (statusCode (rw s)))) as HP.
  assert (H1 : wroteHeader (rw s1) = true /\ chunked (rw s1) = chunked (rw s) /\
               effStatus (statusCode (rw s1)) = effStatus (statusCode (rw s))).
  { apply (keeps_ServeHTTP _ HP ops s). auto. }
  split; [exact H1|].
  apply (keeps_EndResponse _ HP s1). exact H1.
Qed.

(** X5.  Every request cycle keeps the commit flags coherent: from
    NewResponseWriter on, through whatever the handler calls and through
    EndResponse, chunked mode is on only after the commit, and never with a
    status that has no body (1xx, 204, 304). *)
Theorem request_cycle_coherent c q ops s :
  let s1 := final ((NewResponseWriter c q;; ServeHTTP ops) s) in
  coherent (rw s1) /\ coherent (rw (final (EndResponse s1))).
Proof.
  intros s1.
  assert (H1 : coherent (rw s1)).
  { unfold s1, bind. pose proof (coherent_NewResponseWriter c q s) as H0.
    destruct (NewResponseWriter c q s) as [[] s0|s0]; cbn [final] in *.
    - apply coherent_ServeHTTP, H0.
    - exact H0. }
  split; [exact H1|].
  apply (keeps_EndResponse _ coherent_method_safe s1 H1).
Qed.

(* --------------------------------------------------------------------- *)
(* EndResponse on a transport that accepts writes                        *)
(* --------------------------------------------------------------------- *)

Lemma EndResponse_spec s q b :
  bound s q b -> hijacked (rw s) = false -> write_err (tw s) = None ->
  exists s',
    EndResponse s = Val (flush_err (tw s)) s' /\
    written (tw s') =
      written (tw s) +:+ endHead (rw s) q (B b) +:+ endTail (rw s) (B b) /\
    (flush_err (tw s) = None -> pending (tw s') = "") /\
    flush_err (tw s') = flush_err (tw s) /\ write_err (tw s') = None /\
    body (rw s') = None /\ wroteHeader (rw s') = true /\
    hijacked (rw s') = false /\
    chunked (rw s') = endChunked (rw s) /\
    header (rw s') = endHeader (rw s) (B b) /\
    bufPool s' = bytebufferpool_Put b (bufPool s) /\
    rwPool s' = rwPool s /\ ctxPool s' = ctxPool s /\ nread s' = nread s.
Proof.
  intros [(c0 & cn & Hc & Hcn) [Hq Hb]] Hhj Hwe.
  open_state s. destruct b as [i bs]. subst.
  unfold endHead, endTail, endChunked, endHeader, explicitChunked.
  cbn [wroteHeader chunked statusCode header negb andb B].
  unfold EndResponse. exec. rewrite Hcn. exec.
  destruct wh; exec.
  - (* committed before *)
    cbn [orb]. destruct ch, (noBody code) eqn:Hnb; exec.
    all: try (destruct (0 <? String.length bs)%nat eqn:Hlen; exec).
    all: destruct fe; exec.
    all: eexists; (split; [reflexivity|]);
         unfold framed, chunk_frame, zero_chunk; rewrite ?Hlen.
    all: try (apply framed_empty in Hlen; subst bs).
    all: repeat split; try discriminate;
         change ("" +:+ "") with ""; cbn [String.length];
         rewrite ?append_nil_r, ?append_assoc, ?append_nil_r; reflexivity.
  - (* EndResponse commits *)
    set (str := String.eqb (Header_Get h "Transfer-Encoding") "chunked").
    rewrite defaultStatus_spec. exec.
    erewrite writeHeaders_commit by reflexivity. exec.
    rewrite effStatus_noBody.
    destruct str, (noBody code) eqn:Hnb, ch; exec; rewrite ?Hnb; exec.
    all: try (destruct (0 <? String.length bs)%nat eqn:Hlen; exec).
    all: destruct fe; exec.
    all: eexists; (split; [reflexivity|]);
         unfold framed, chunk_frame, zero_chunk; rewrite ?Hlen.
    all: try (apply framed_empty in Hlen; subst bs).
    all: repeat split; try discriminate;
         change ("" +:+ "") with ""; cbn [String.length];
         rewrite ?append_nil_r, ?append_assoc, ?append_nil_r; reflexivity.
Qed.

(** X6.  What EndResponse does on any writer inside its request cycle that
    is not hijacked, on a transport that accepts writes: it writes the
    header block if the headers are not committed yet, then ends the body in
    the writer's mode (chunked: the buffered bytes as one frame, then the
    zero chunk; otherwise the buffered bytes as they are; no body bytes with
    a 1xx, 204 or 304 status), checks the buffer in, clears rw.body and
    returns what the transport's Flush returns; when that is nil, every byte
    is on the wire. *)
Theorem EndResponse_ends_response s q b :
  bound s q b -> hijacked (rw s) = false -> write_err (tw s) = None ->
  exists s',
    EndResponse s = Val (flush_err (tw s)) s' /\
    written (tw s') =
      written (tw s) +:+ endHead (rw s) q (B b) +:+ endTail (rw s) (B b) /\
    (flush_err (tw s) = None ->
     pending (tw s') = "" /\ wire (tw s') = written (tw s')) /\
    wroteHeader (rw s') = true /\
    chunked (rw s') = endChunked (rw s) /\
    body (rw s') = None /\
    bufPool s' = bytebufferpool_Put b (bufPool s).
Proof.
  intros Hb Hhj Hwe.
  destruct (EndResponse_spec s q b Hb Hhj Hwe)
    as (s' & He & Hw & Hp & _ & _ & Hbd & Hwh & _ & Hch & _ & Hbp & _).
  exists s'. repeat split; auto.
  unfold written. rewrite (Hp H). now rewrite append_nil_r.
Qed.

Lemma checkins_Put i b p :
  checkins i (bytebufferpool_Put b p) =
  checkins i p + (if Nat.eqb (bid b) i then 1 else 0).
Proof.
  unfold checkins, bytebufferpool_Put. cbn [idle count_occ].
  destruct (Nat.eq_dec (bid b) i) as [E|E].
  - apply Nat.eqb_eq in E. rewrite E. lia.
  - apply Nat.eqb_neq in E. rewrite E. lia.
Qed.

(** X7.  On every path of a request cycle that is not hijacked and on which
    the transport accepts the writes (its Flush may fail), EndResponse and
    the deferred Release together check the body buffer in exactly once, and
    no other buffer; afterwards the writer holds no buffer. *)
Theorem body_checked_in_once s q b :
  bound s q b -> hijacked (rw s) = false -> write_err (tw s) = None ->
  exists s',
    (EndResponse;; Release) s = Val tt s' /\
    body (rw s') = None /\
    forall i, checkins i (bufPool s') =
              checkins i (bufPool s) + (if Nat.eqb (bid b) i then 1 else 0).
Proof.
  intros Hb Hhj Hwe.
  destruct (EndResponse_spec s q b Hb Hhj Hwe)
    as (s1 & He & _ & _ & _ & _ & Hbd & _ & _ & _ & _ & Hbp & _).
  unfold bind. rewrite He, Release_spec. rewrite Hbd.
  eexists. split; [reflexivity|]. split; [reflexivity|].
  intros i. cbn [bufPool with_rwPool with_bufPool]. rewrite Hbp.
  apply checkins_Put.
Qed.

(** X8.  When the transport refuses every write with error e, EndResponse
    hands nothing to the transport, and it reports e on one path only: the
    one that writes the buffered bytes unframed (not chunked, a status that
    allows a body, a non-empty buffer).  The writes of the header block, of
    a chunk frame and of the zero chunk are not checked: on every other
    path EndResponse returns what the transport's Flush returns, nil when
    the Flush succeeds, although nothing was sent.  The headers count as
    committed either way. *)
Theorem EndResponse_write_failure s q b e :
  bound s q b -> hijacked (rw s) = false -> write_err (tw s) = Some e ->
  exists s',
    EndResponse s =
      Val (if negb (endChunked (rw s)) && negb (noBody (statusCode (rw s)))
              && (0 <? String.length (B b))%nat
           then Some e else flush_err (tw s)) s' /\
    written (tw s') = written (tw s) /\
    wroteHeader (rw s') = true.
Proof.
  intros [(c0 & cn & Hc & Hcn) [Hq Hb]] Hhj Hwe.
  open_state s. destruct b as [i bs]. subst.
  unfold endChunked, explicitChunked.
  cbn [wroteHeader chunked statusCode header negb andb B].
  unfold EndResponse. exec. rewrite Hcn. exec.
  destruct wh; exec.
  - cbn [orb]. destruct ch, (noBody code) eqn:Hnb; exec.
    all: try (destruct (0 <? String.length bs)%nat eqn:Hlen; exec).
    all: destruct fe; exec.
    all: eexists; (split; [reflexivity|]); split; rewrite ?append_nil_r; reflexivity.
  - set (str := String.eqb (Header_Get h "Transfer-Encoding") "chunked").
    rewrite defaultStatus_spec. exec.
    erewrite writeHeaders_commit by reflexivity. exec.
    rewrite effStatus_noBody.
    destruct str, (noBody code) eqn:Hnb, ch; exec; rewrite ?Hnb; exec.
    all: try (destruct (0 <? String.length bs)%nat eqn:Hlen; exec).
    all: destruct fe; exec.
    all: eexists; (split; [reflexivity|]); split; rewrite ?append_nil_r; reflexivity.
Qed.

(* --------------------------------------------------------------------- *)
(* A handler that panics                                                 *)
(* --------------------------------------------------------------------- *)

(** C3, amended.  When the handler ends in a fault while the headers are not
    committed and the connection is not hijacked, handleRequest recovers:
    the recovery sets the status to 500, EndResponse emits a 500 status
    line, and handleRequest returns the request with a nil error.  The
    bytes the handler had buffered with Write are not dropped: they follow
    the header block, as a chunk frame closed by the zero chunk when the
    handler had set Transfer-Encoding: chunked (no Content-Length line
    then), and verbatim otherwise, under a Content-Length that is computed
    from the buffer only when the handler had set none; a Content-Length
    the handler had set goes out as it is. *)
Theorem panic_recovery_emits_500 h c q cn s sf :
  conn c = Some cn -> healthy (tw s) ->
  ServeHTTP (h (served q cn))
    (final (NewResponseWriter (GetReader c) (served q cn)
              (with_nread (S (nread s)) s))) = Fault sf ->
  uncommitted sf ->
  exists b s2 s3 s',
    body (rw sf) = Some b /\
    recover_ (WriteHeader StatusInternalServerError) (ServeHTTP (h (served q cn)))
      (final (NewResponseWriter (GetReader c) (served q cn)
                (with_nread (S (nread s)) s))) = Val tt s2 /\
    statusCode (rw s2) = 500%Z /\
    EndResponse s2 = Val None s3 /\
    written (tw s3) =
      written (tw sf) +:+ status_line (Proto q) 500 +:+
      (if explicitChunked (header (rw sf))
       then "Transfer-Encoding: chunked" +:+ CRLF else "") +:+
      header_lines (header (rw s3)) +:+ CRLF +:+
      (if explicitChunked (header (rw sf))
       then framed (B b) +:+ zero_chunk else B b) /\
    (forall v, In ("Content-Length", v) (fields (header (rw s3))) <->
       if explicitChunked (header (rw sf)) then False
       else if String.eqb (Header_Get (header (rw sf)) "Content-Length") ""
            then v = Itoa (Z.of_nat (String.length (B b)))
            else exists vs, header (rw sf) !! "Content-Length" = Some vs /\ In v vs) /\
    handleRequest h c (Parsed q) s =
      Val (GetReader c, Some (served q cn), false, None) s' /\
    tw s' = tw s3.
Proof.
  intros Hcn Hw Hf (Hhj & Hwh & Hch).
  destruct (NewResponseWriter_live (GetReader c) (served q cn) cn
              (with_nread (S (nread s)) s) Hcn)
    as (s1 & H1 & Hl1 & _ & _ & _ & Hq1 & _ & Htw1 & _).
  rewrite H1 in Hf |- *. cbn [final] in Hf |- *.
  (* the state at the fault is still inside the request cycle *)
  pose proof (ServeHTTP_sameCycle (h (served q cn)) s1 Hl1) as Hs.
  rewrite Hf in Hs. cbn [final] in Hs.
  destruct (live_sameCycle _ _ Hl1 Hs) as (q0 & b & Hb).
  destruct Hs as (_ & Hq & _ & Hwe & Hfe).
  assert (Hb' : bound sf (served q cn) b).
  { destruct Hb as (Hc & Hq0 & Hbd). split; [exact Hc|]. split; [congruence | exact Hbd]. }
  assert (Hwf : healthy (tw sf)).
  { split; [rewrite Hwe | rewrite Hfe]; rewrite Htw1; open_state s; apply Hw. }
  (* the recovery and EndResponse *)
  set (s2 := with_rw (set_statusCode StatusInternalServerError (rw sf)) sf).
  assert (Hrec : recover_ (WriteHeader StatusInternalServerError)
                   (ServeHTTP (h (served q cn))) s1 = Val tt s2).
  { unfold recover_. rewrite Hf. now apply WriteHeader_open. }
  destruct (EndResponse_commit s2 (served q cn) b) as (s3 & He & Hout & _ & Hrw & _).
  { open_state sf. exact Hb'. }
  { open_state sf. repeat split; assumption. }
  { open_state sf. exact Hwf. }
  assert (Hh3 : header (rw s3) =
                committedHeader (explicitChunked (header (rw sf))) 500 (B b)
                  (header (rw sf))).
  { rewrite Hrw. open_state sf. reflexivity. }
  assert (Hj3 : hijacked (rw s3) = false).
  { rewrite Hrw. open_state sf. exact Hhj. }
  (* handleRequest, step by step *)
  destruct (handleRequest_Parsed h c q cn s Hcn)
    as (s1' & s2' & e & s3' & G1 & G2 & G3 & _ & _ & G).
  rewrite H1 in G1. injection G1 as <-.
  rewrite Hrec in G2. injection G2 as <-.
  rewrite He in G3. injection G3 as <- <-.
  rewrite Hj3 in G.
  exists b, s2, s3, (final (Release s3)).
  split; [apply Hb'|]. split; [exact Hrec|]. split; [open_state sf; reflexivity|].
  split; [exact He|]. split; [|split; [|split; [exact G|]]].
  - rewrite Hout, headerBlock_status, Hh3.
    replace (written (tw s2)) with (written (tw sf)) by (open_state sf; reflexivity).
    replace (header (rw s2)) with (header (rw sf)) by (open_state sf; reflexivity).
    replace (statusCode (rw s2)) with 500%Z by (open_state sf; reflexivity).
    unfold endBody, commitChunked.
    change (effStatus 500) with 500%Z. change (noBody 500) with false.
    rewrite !Bool.andb_true_r.
    change (Proto (served q cn)) with (Proto q).
    destruct (explicitChunked (header (rw sf))); now rewrite ?append_assoc.
  - intros v. rewrite Hh3, elem_of_fields.
    destruct (explicitChunked (header (rw sf))) eqn:Hx.
    + rewrite committedHeader_CL_chunked by reflexivity.
      split; [intros (vs & [=] & _) | intros []].
    + rewrite committedHeader_CL_fixed by reflexivity.
      change (noBody 500) with false.
      destruct (String.eqb (Header_Get (header (rw sf)) "Content-Length") "");
        [|reflexivity].
      split.
      * intros (vs & [= <-] & [<-|[]]). reflexivity.
      * intros ->. eexists. split; [reflexivity|]. now left.
  - rewrite Release_spec. cbn [final]. open_state s3. reflexivity.
Qed.

(* --------------------------------------------------------------------- *)
(* The ways out of the connection loop                                   *)
(* --------------------------------------------------------------------- *)

(** X9.  When no request can be read, ServeConn returns the error at once:
    io.EOF at the end of the input, "failed to read request" for anything
    that does not parse.  No response is written (no writer and no buffer is
    taken, the transport is not touched); the request context goes back to
    the pool, reset, with its reader bound to the connection; one read was
    attempted. *)
Theorem ServeConn_read_error h cn sc rest s :
  let s' := with_ctxPool (mkCtx None None (Some (Some cn)) :: tl (ctxPool s))
              (with_nread (S (nread s)) s) in
  ServeConn h cn sc (ParseEOF :: rest) s = Val (ReturnErr EOF) s' /\
  ServeConn h cn sc (ParseError :: rest) s = Val (ReturnErr errFailedRead) s' /\
  ServeConn h cn sc [] s = Val (ReturnErr EOF) s'.
Proof.
  cbn [ServeConn]. unfold serveOne.
  repeat split; unfold bind at 1; rewrite NewRequestContext_spec;
    open_state s; reflexivity.
Qed.

Lemma ServeHTTP_app a : forall b s,
  ServeHTTP (a ++ b) s = (ServeHTTP a;; ServeHTTP b) s.
Proof.
  induction a as [|o a IH]; intros b s; cbn [ServeHTTP app].
  - reflexivity.
  - unfold bind. destruct (runOp o s) as [[] s1|s1]; [|reflexivity].
    rewrite IH. reflexivity.
Qed.

Lemma Hijack_sets s :
  live s -> exists r s', Hijack s = Val r s' /\ hijacked (rw s') = true.
Proof.
  open_live s. unfold Hijack. exec. destruct hj; exec;
    eexists; eexists; split; reflexivity.
Qed.

Lemma EndResponse_hijacked s b :
  hijacked (rw s) = true -> body (rw s) = Some b ->
  EndResponse s = Val None (with_bufPool (bytebufferpool_Put b (bufPool s)) s).
Proof. intros Hh Hb. open_state s. subst. reflexivity. Qed.

(* a handler that gets to call Hijack leaves a hijacked writer, whatever it
   does afterwards *)
Lemma hijack_sticks pre post s :
  live s -> Forall (fun o => o <> OpPanic) pre ->
  hijacked (rw (final (ServeHTTP (pre ++ OpHijack :: post) s))) = true.
Proof.
  intros Hl Hpre. rewrite ServeHTTP_app. unfold bind at 1.
  destruct (ServeHTTP_total pre s Hl Hpre) as (sa & -> & _ & Hla).
  cbn [ServeHTTP runOp]. unfold bind.
  destruct (Hijack_sets sa Hla) as (r & sb & -> & Hh). cbv [ret].
  destruct (ServeHTTP_hijacked post sb Hh) as (h' & ->).
  open_state sb. exact Hh.
Qed.

(** X10.  A handler that gets to call Hijack takes the connection out of the
    loop: whatever it does afterwards (even a panic), handleRequest reports
    the hijack, ServeConn reads no further request and waits for the
    connection's context to be done; the request context is not put back
    into the pool. *)
Theorem ServeConn_hijacked h cn sc q rest s pre post :
  h (served q cn) = (pre ++ OpHijack :: post)%list ->
  Forall (fun o => o <> OpPanic) pre ->
  exists s',
    ServeConn h cn sc (Parsed q :: rest) s = Val AwaitDone s' /\
    nread s' = S (nread s) /\
    ctxPool s' = tl (ctxPool s).
Proof.
  intros Hh Hpre. cbn [ServeConn]. unfold serveOne. unfold bind at 1.
  rewrite NewRequestContext_spec. cbv beta iota.
  set (c := pooledCtx cn sc s). set (s0 := with_ctxPool (tl (ctxPool s)) s).
  pose proof (handleRequest_nread h c (Parsed q) s0) as Hn.
  pose proof (handleRequest_ctxPool h c (Parsed q) cn s0 eq_refl) as Hc.
  destruct (handleRequest_Parsed h c q cn s0 eq_refl)
    as (s1 & s2 & e & s3 & H1 & H2 & H3 & Hl1 & Hl2 & He).
  (* the writer is hijacked when the handler is through *)
  assert (Hj : hijacked (rw s2) = true).
  { pose proof (hijack_sticks pre post s1 Hl1 Hpre) as Hs. rewrite <- Hh in Hs.
    unfold recover_ in H2.
    destruct (ServeHTTP (h (served q cn)) s1) as [[] sx|sx]; cbn [final] in Hs.
    - now injection H2 as <-.
    - rewrite WriteHeader_closed in H2 by (now right). now injection H2 as <-. }
  destruct Hl2 as (q2 & b2 & _ & _ & Hb2).
  rewrite (EndResponse_hijacked s2 b2 Hj Hb2) in H3. injection H3 as <- <-.
  unfold bind at 1. rewrite He in Hn, Hc |- *. cbn [final] in Hn, Hc.
  replace (hijacked (rw (with_bufPool (bytebufferpool_Put b2 (bufPool s2)) s2)))
    with true by (open_state s2; now subst).
  eexists. split; [reflexivity|]. split.
  - rewrite Hn. open_state s. reflexivity.
  - rewrite Hc. open_state s. reflexivity.
Qed.

(** X11.  When the transport's Flush fails (its writes being accepted) and
    the handler does not hijack the connection, EndResponse returns the
    Flush error, and ServeConn returns it in turn: no further request is
    read and the request context goes back to the pool, reset, with its
    reader bound to the connection. *)
Theorem ServeConn_reports_flush_error h cn sc q rest s e :
  flush_err (tw s) = Some e -> write_err (tw s) = None ->
  Forall (fun o => o <> OpHijack) (h (served q cn)) ->
  exists s',
    ServeConn h cn sc (Parsed q :: rest) s = Val (ReturnErr e) s' /\
    nread s' = S (nread s) /\
    ctxPool s' = mkCtx None None (Some (Some cn)) :: tl (ctxPool s).
Proof.
  intros Hfe Hwe Hops. cbn [ServeConn]. unfold serveOne. unfold bind at 1.
  rewrite NewRequestContext_spec. cbv beta iota.
  set (c := pooledCtx cn sc s). set (s0 := with_ctxPool (tl (ctxPool s)) s).
  pose proof (handleRequest_nread h c (Parsed q) s0) as Hn.
  pose proof (handleRequest_ctxPool h c (Parsed q) cn s0 eq_refl) as Hc.
  destruct (handleRequest_Parsed h c q cn s0 eq_refl)
    as (s1 & s2 & e' & s3 & H1 & H2 & H3 & Hl1 & Hl2 & He).
  destruct (NewResponseWriter_live (GetReader c) (served q cn) cn
              (with_nread (S (nread s0)) s0) eq_refl)
    as (s1' & H1' & _ & (Hj1 & _) & _ & _ & _ & _ & Htw & _).
  rewrite H1 in H1'. injection H1' as <-.
  destruct (recover_total (h (served q cn)) s1 Hl1)
    as (s2' & H2' & (_ & _ & _ & Hwe2 & Hfe2) & Hj2).
  rewrite H2 in H2'. injection H2' as <-.
  assert (Etw : tw s1 = tw s) by (rewrite Htw; open_state s; reflexivity).
  rewrite Etw in Hwe2, Hfe2. rewrite Hwe in Hwe2. rewrite Hfe in Hfe2.
  destruct Hl2 as (q2 & b2 & Hb2).
  destruct (EndResponse_spec s2 q2 b2 Hb2) as (s3' & H3' & _);
    [rewrite (Hj2 Hops); exact Hj1 | exact Hwe2 |].
  rewrite H3, Hfe2 in H3'. injection H3' as -> <-.
  unfold bind at 1. rewrite He in Hn, Hc |- *. cbn [final] in Hn, Hc.
  unfold bind, RequestContext_Release, ret.
  eexists. split; [reflexivity|]. split.
  - cbn [with_ctxPool nread]. rewrite Hn. open_state s. reflexivity.
  - cbn [with_ctxPool ctxPool]. rewrite Hc. open_state s. reflexivity.
Qed.

(* --------------------------------------------------------------------- *)
(* Buffered writes and the headers a commit computes                     *)
(* --------------------------------------------------------------------- *)

(* Write only appends to the body buffer *)
Lemma Writes_spec ps : forall s q b,
  bound s q b -> hijacked (rw s) = false ->
  exists s1,
    ServeHTTP (map OpWrite ps) s = Val tt s1 /\
    bound s1 q (mkBuf (bid b) (B b +:+ concat_str ps)) /\
    tw s1 = tw s /\ bufPool s1 = bufPool s /\
    header (rw s1) = header (rw s) /\
    hijacked (rw s1) = false /\
    wroteHeader (rw s1) = wroteHeader (rw s) /\
    chunked (rw s1) = chunked (rw s) /\
    effStatus (statusCode (rw s1)) = effStatus (statusCode (rw s)).
Proof.
  induction ps as [|p ps IH]; intros s q b Hb Hhj; cbn [map ServeHTTP concat_str].
  - exists s. split; [reflexivity|]. rewrite append_nil_r.
    destruct b as [i bs]. repeat split; auto; apply Hb.
  - cbn [runOp]. unfold bind.
    rewrite (Write_open p s b Hhj (proj2 (proj2 Hb))). cbv [ret].
    match goal with |- context [ServeHTTP _ ?s0] => set (s1 := s0) end.
    destruct (IH s1 q (mkBuf (bid b) (B b +:+ p))) as (s2 & He & Hb2 & H2).
    { destruct Hb as (Hc & Hq & Hbd). unfold s1. open_state s.
      destruct wh; (split; [exact Hc|split; [exact Hq|reflexivity]]). }
    { unfold s1. open_state s. destruct wh; exact Hhj. }
    exists s2. split; [exact He|]. cbn [bid B] in Hb2. rewrite append_assoc in Hb2.
    split; [exact Hb2|].
    destruct H2 as (E1 & E2 & E3 & E4 & E5 & E6 & E7).
    rewrite E1, E2, E3, E5, E6, E7. unfold s1. open_state s.
    destruct wh; cbn [with_rw rw tw bufPool set_body set_statusCode header
                      wroteHeader chunked statusCode];
      rewrite ?effStatus_idem; repeat split; exact E4.
Qed.

(** X12.  Write only buffers: after any number of Writes on a writer that is
    neither committed nor hijacked, nothing has reached the transport.  With
    no Content-Length and no Transfer-Encoding: chunked set and a status
    that allows a body, EndResponse then sends the status line, the headers
    with Content-Length set to the number of bytes buffered, no
    Transfer-Encoding, the blank line and the bytes of all the Writes in
    order. *)
Theorem Writes_then_EndResponse s q b ps :
  bound s q b -> uncommitted s -> healthy (tw s) ->
  Header_Get (header (rw s)) "Content-Length" = "" ->
  explicitChunked (header (rw s)) = false ->
  noBody (statusCode (rw s)) = false ->
  let sent := B b +:+ concat_str ps in
  exists s1 s2,
    ServeHTTP (map OpWrite ps) s = Val tt s1 /\
    tw s1 = tw s /\
    EndResponse s1 = Val None s2 /\
    written (tw s2) =
      written (tw s) +:+ status_line (Proto q) (effStatus (statusCode (rw s))) +:+
      header_lines (header (rw s2)) +:+ CRLF +:+ sent /\
    (forall v, In ("Content-Length", v) (fields (header (rw s2))) <->
               v = Itoa (Z.of_nat (String.length sent))) /\
    (forall v, ~ In ("Transfer-Encoding", v) (fields (header (rw s2)))).
Proof.
  intros Hb (Hhj & Hwh & Hch) Hw Hcl Hte Hnb sent.
  destruct (Writes_spec ps s q b Hb Hhj)
    as (s1 & He & Hb1 & Htw & _ & Hh & Hhj1 & Hwh1 & Hch1 & Hst).
  assert (Hu1 : uncommitted s1) by (repeat split; congruence).
  assert (Hw1 : healthy (tw s1)) by (now rewrite Htw).
  destruct (EndResponse_commit s1 q _ Hb1 Hu1 Hw1) as (s2 & He2 & Hout & _ & Hrw & _).
  rewrite Hh, Hte, Hst, Htw in Hout. rewrite Hh, Hte, Hst in Hrw.
  cbn [B] in Hout, Hrw. fold sent in Hout, Hrw.
  set (code := effStatus (statusCode (rw s))) in *.
  assert (Hnb' : noBody code = false) by (unfold code; now rewrite effStatus_noBody).
  assert (Hhd : header (rw s2) = committedHeader false code sent (header (rw s))).
  { rewrite Hrw, <- Hh. open_state s1. reflexivity. }
  exists s1, s2. split; [exact He|]. split; [exact Htw|]. split; [exact He2|].
  split; [|split].
  - rewrite Hout, Hhd. unfold headerBlock, endBody, commitChunked. cbn [andb].
    rewrite Hnb'. now rewrite ?append_assoc.
  - intros v. rewrite Hhd, elem_of_fields, committedHeader_CL_fixed by reflexivity.
    rewrite Hcl, Hnb'. cbn [String.eqb]. split.
    + intros (vs & [= <-] & [<-|[]]). reflexivity.
    + intros ->. eexists. split; [reflexivity|]. now left.
  - intros v. rewrite Hhd. apply no_TE_field.
Qed.

Lemma committedHeader_other str code bs h k :
  k <> "Content-Length" -> k <> "Transfer-Encoding" ->
  committedHeader str code bs h !! k = withContentType bs (withDate h) !! k.
Proof.
  intros H1 H2. unfold committedHeader, Header_Del, Header_Set.
  destruct (commitChunked str code).
  - now rewrite !lookup_delete_ne by congruence.
  - rewrite lookup_delete_ne by congruence.
    destruct (String.eqb _ ""); [|reflexivity].
    destruct (negb (noBody code)); [|reflexivity].
    now rewrite lookup_insert_ne by congruence.
Qed.

(** X13.  The headers a commit fills in.  Whatever the mode of the commit,
    writeHeaders sets Date to the current time unless a non-empty Date is
    set already, and sets Content-Type, unless a non-empty one is set
    already, to what DetectContentType makes of the first 512 buffered
    bytes, and only when something is buffered; a Date or Content-Type the
    handler has set goes out as it is. *)
Theorem commit_fills_Date_and_ContentType str s q b :
  wroteHeader (rw s) = false -> req (rw s) = Some q -> body (rw s) = Some b ->
  exists s',
    writeHeaders str s = Val tt s' /\
    (forall v, In ("Date", v) (fields (header (rw s'))) <->
       if String.eqb (Header_Get (header (rw s)) "Date") "" then v = now
       else exists vs, header (rw s) !! "Date" = Some vs /\ In v vs) /\
    (forall v, In ("Content-Type", v) (fields (header (rw s'))) <->
       if String.eqb (Header_Get (header (rw s)) "Content-Type") "" then
         if (0 <? String.length (B b))%nat
         then v = DetectContentType (take512 (B b))
         else exists vs, header (rw s) !! "Content-Type" = Some vs /\ In v vs
       else exists vs, header (rw s) !! "Content-Type" = Some vs /\ In v vs).
Proof.
  intros Hwh Hq Hb. rewrite (writeHeaders_commit str s q b Hwh Hq Hb).
  eexists. split; [reflexivity|].
  assert (Hh : header (rw (with_tw
                 (Writer_write (headerBlock str (Proto q) (statusCode (rw s)) (B b)
                                  (header (rw s))) (tw s)).1
                 (with_rw (committedRW str b (rw s)) s)))
               = committedHeader str (statusCode (rw s)) (B b) (header (rw s))).
  { open_state s. reflexivity. }
  rewrite Hh. set (h := header (rw s)). split; intros v.
  - rewrite elem_of_fields, committedHeader_other by discriminate.
    rewrite lookup_withContentType by discriminate.
    unfold withDate, Header_Set.
    destruct (String.eqb (Header_Get h "Date") ""); [|reflexivity].
    rewrite lookup_insert_eq. split.
    + intros (vs & [= <-] & [<-|[]]). reflexivity.
    + intros ->. eexists. split; [reflexivity|]. now left.
  - rewrite elem_of_fields, committedHeader_other by discriminate.
    unfold withContentType, Header_Set.
    replace (Header_Get (withDate h) "Content-Type") with (Header_Get h "Content-Type")
      by (unfold Header_Get; now rewrite lookup_withDate by discriminate).
    destruct (String.eqb (Header_Get h "Content-Type") "").
    + destruct (0 <? String.length (B b))%nat.
      * rewrite lookup_insert_eq. split.
        -- intros (vs & [= <-] & [<-|[]]). reflexivity.
        -- intros ->. eexists. split; [reflexivity|]. now left.
      * now rewrite lookup_withDate by discriminate.
    + now rewrite lookup_withDate by discriminate.
Qed.

(* --------------------------------------------------------------------- *)
(* What ReadFrom returns                                                 *)
(* --------------------------------------------------------------------- *)

Lemma length_append (a b : string) :
  String.length (a +:+ b) = String.length a + String.length b.
Proof.
  induction a as [|x a IH]; [reflexivity|].
  change (S (String.length (a +:+ b)) = S (String.length a + String.length b)).
  now rewrite IH.
Qed.

Lemma copyBuffer_result r : forall n0 rw0 wi bp rp cp n,
  copyBuffer r n0 (mkSt rw0 (mkWriter "" wi None None) bp rp cp n) =
  Val ((n0 + Z.of_nat (String.length (streamed r)))%Z, readError r)
    (mkSt rw0 (mkWriter "" (wi +:+ streamed r) None None) bp rp cp n).
Proof.
  induction r as [|[data err] rest IH]; intros n0 rw0 wi bp rp cp n.
  - cbn [copyBuffer streamed readError String.length]. rewrite append_nil_r, Z.add_0_r.
    reflexivity.
  - cbn [copyBuffer streamed readError rd_data rd_err].
    destruct (0 <? String.length data)%nat eqn:Hlen.
    + unfold wrapper_Write. exec. rewrite Nat.eqb_refl.
      change ("" +:+ data) with data.
      destruct err as [e|].
      * rewrite !append_nil_r. reflexivity.
      * rewrite IH, append_assoc, length_append, Nat2Z.inj_add, Z.add_assoc.
        reflexivity.
    + apply framed_empty in Hlen. subst data. exec.
      change ("" +:+ ?x) with x.
      destruct err as [e|].
      * rewrite append_nil_r, Z.add_0_r. reflexivity.
      * rewrite IH. reflexivity.
Qed.

Lemma chunkLoop_result r : forall rw0 wi bp rp cp n,
  chunkLoop r (mkSt rw0 (mkWriter "" wi None None) bp rp cp n) =
  Val (Broke (readError r))
    (mkSt rw0 (mkWriter "" (wi +:+ streamedChunks r) None None) bp rp cp n).
Proof.
  induction r as [|[data err] rest IH]; intros rw0 wi bp rp cp n.
  - cbn [chunkLoop streamedChunks readError]. rewrite append_nil_r. reflexivity.
  - cbn [chunkLoop streamedChunks readError rd_data rd_err]. unfold framed.
    destruct (0 <? String.length data)%nat eqn:Hlen.
    + exec. unfold chunk_frame.
      replace (wi +:+ (("" +:+ FormatHex (String.length data) +:+ CRLF) +:+ data) +:+ CRLF)
        with (wi +:+ FormatHex (String.length data) +:+ CRLF +:+ data +:+ CRLF)
        by (change ("" +:+ ?x) with x; now rewrite !append_assoc).
      destruct err as [e|].
      * rewrite append_nil_r. reflexivity.
      * rewrite IH, !append_assoc. reflexivity.
    + exec. change ("" +:+ ?x) with x.
      destruct err as [e|].
      * rewrite append_nil_r. reflexivity.
      * rewrite IH. reflexivity.
Qed.

(** X14.  ReadFrom in fixed-length mode (a Content-Length entry is set, no
    explicit chunked) on a transport that accepts everything: it commits and
    flushes the headers, copies the source unframed, and returns the number
    of bytes copied together with the first error the source reported
    (io.EOF is not an error); the bytes buffered by earlier Writes stay in
    the buffer. *)
Theorem ReadFrom_fixed_returns_count r s q b :
  bound s q b -> uncommitted s -> healthy (tw s) ->
  Header_has (header (rw s)) "Content-Length" = true ->
  explicitChunked (header (rw s)) = false ->
  exists s',
    ReadFrom r s = Val (Z.of_nat (String.length (streamed r)), readError r) s' /\
    wire (tw s') =
      written (tw s) +:+
      headerBlock false (Proto q) (effStatus (statusCode (rw s))) (B b)
        (header (rw s)) +:+
      streamed r /\
    pending (tw s') = "" /\
    body (rw s') = Some b.
Proof.
  intros [(c0 & cn & Hc & Hcn) [Hq Hb]] (Hhj & Hwh & Hch) [Hwe Hfe] Hcl Hte.
  open_state s. destruct b as [i bs]. subst.
  unfold explicitChunked in Hte.
  unfold ReadFrom. exec. rewrite Hcn. exec.
  rewrite defaultStatus_spec. exec. rewrite Hcl, Hte. exec.
  erewrite writeHeaders_commit by reflexivity. exec.
  rewrite copyBuffer_result. eexists. split; [reflexivity|]. exec.
  repeat split. now rewrite ?append_assoc.
Qed.

Lemma ReadFrom_chunked_spec r s q b :
  bound s q b -> uncommitted s -> healthy (tw s) ->
  Header_has (header (rw s)) "Content-Length" = false ->
  noBody (statusCode (rw s)) = false ->
  exists s',
    ReadFrom r s = Val (0%Z, readError r) s' /\
    rw s' = committedRW true b
              (set_statusCode (effStatus (statusCode (rw s))) (rw s)) /\
    wire (tw s') =
      written (tw s) +:+
      headerBlock true (Proto q) (effStatus (statusCode (rw s))) (B b)
        (header (rw s)) +:+
      streamedChunks r /\
    pending (tw s') = "" /\ healthy (tw s') /\
    bufPool s' = bufPool s.
Proof.
  intros [(c0 & cn & Hc & Hcn) [Hq Hb]] (Hhj & Hwh & Hch) [Hwe Hfe] Hcl Hnb.
  open_state s. destruct b as [i bs]. subst.
  unfold ReadFrom. exec. rewrite Hcn. exec.
  rewrite defaultStatus_spec. exec. rewrite Hcl. exec.
  destruct (String.eqb (Header_Get h "Transfer-Encoding") "chunked"); exec.
  all: erewrite writeHeaders_commit by reflexivity; exec.
  all: rewrite effStatus_noBody, Hnb; exec.
  all: rewrite chunkLoop_result; exec.
  all: destruct (readError r); eexists; (split; [reflexivity|]); unfold healthy; exec.
  all: repeat split; now rewrite ?append_nil_r, ?append_assoc, ?append_nil_r.
Qed.

(** X15.  ReadFrom in chunked mode (no Content-Length entry, a status that
    allows a body) on a transport that accepts everything: every block read
    goes out in a chunk frame of its own, and the call returns 0 as the
    number of bytes, whatever it sent, with the first error of the source.
    The bytes buffered by earlier Writes are not sent first: they stay in
    the buffer, and EndResponse sends them after the data of the source, as
    the last chunk before the zero chunk. *)
Theorem ReadFrom_chunked_then_EndResponse r s q b :
  bound s q b -> uncommitted s -> healthy (tw s) ->
  Header_has (header (rw s)) "Content-Length" = false ->
  noBody (statusCode (rw s)) = false ->
  exists s' s'',
    ReadFrom r s = Val (0%Z, readError r) s' /\
    body (rw s') = Some b /\
    EndResponse s' = Val None s'' /\
    wire (tw s'') =
      written (tw s) +:+
      headerBlock true (Proto q) (effStatus (statusCode (rw s))) (B b)
        (header (rw s)) +:+
      streamedChunks r +:+ framed (B b) +:+ zero_chunk /\
    pending (tw s'') = "".
Proof.
  intros Hb Hu Hw Hcl Hnb.
  destruct (ReadFrom_chunked_spec r s q b Hb Hu Hw Hcl Hnb)
    as (s' & He & Hrw & Hwire & Hpe & (Hwe' & Hfe') & _).
  destruct Hb as (Hc & Hq & Hbd). destruct Hu as (Hhj & Hwh & Hch).
  assert (Hrw' : ctx (rw s') = ctx (rw s) /\ req (rw s') = req (rw s) /\
                 body (rw s') = Some b /\ hijacked (rw s') = false /\
                 wroteHeader (rw s') = true /\ chunked (rw s') = true /\
                 noBody (statusCode (rw s')) = false).
  { rewrite Hrw. open_state s. subst. unfold committedRW, commitChunked.
    cbn [set_statusCode statusCode ctx req body hijacked wroteHeader chunked andb].
    rewrite effStatus_noBody, Hnb. repeat split. }
  destruct Hrw' as (Hc' & Hq' & Hb' & Hhj' & Hwh' & Hch' & Hnb').
  destruct (EndResponse_spec s' q b) as (s'' & He2 & Hout & Hpe2 & _); auto.
  { split; [rewrite Hc'; exact Hc|]. split; congruence. }
  rewrite Hfe' in He2. specialize (Hpe2 Hfe').
  exists s', s''. split; [exact He|]. split; [exact Hb'|]. split; [exact He2|].
  split; [|exact Hpe2].
  unfold written in Hout at 1. rewrite Hpe2, append_nil_r in Hout. rewrite Hout.
  unfold written at 1. rewrite Hpe, append_nil_r, Hwire.
  unfold endHead, endTail, endChunked. rewrite Hwh', Hch', Hnb'. cbn [negb andb orb].
  change ("" +:+ ?x) with x. now rewrite ?append_assoc.
Qed.

(* --------------------------------------------------------------------- *)
(* A response streamed by Write and Flush                                *)
(* --------------------------------------------------------------------- *)

Lemma Write_Flush_step p s q i :
  bound s q (mkBuf i "") -> hijacked (rw s) = false -> healthy (tw s) ->
  wroteHeader (rw s) = true -> pending (tw s) = "" ->
  exists s',
    ServeHTTP [OpWrite p; OpFlush] s = Val tt s' /\
    bound s' q (mkBuf i "") /\ hijacked (rw s') = false /\ healthy (tw s') /\
    wroteHeader (rw s') = true /\ pending (tw s') = "" /\
    chunked (rw s') = chunked (rw s) /\
    wire (tw s') = wire (tw s) +:+ framed p.
Proof.
  intros Hb Hhj Hw Hwh Hpe. cbn [ServeHTTP runOp]. unfold bind at 1. unfold bind at 1.
  rewrite (Write_open p s _ Hhj (proj2 (proj2 Hb))). cbv [ret].
  rewrite Hwh. cbn [bid B]. change ("" +:+ p) with p.
  set (s1 := with_rw (set_body (Some (mkBuf i p)) (rw s)) s).
  destruct (Flush_spec s1 q (mkBuf i p))
    as (s2 & He & Hwh2 & Hhj2 & Hch2 & Hb2 & Hw2 & Hpe2 & Hout).
  { destruct Hb as (Hc & Hq & _). unfold s1. open_state s.
    split; [exact Hc|split; [exact Hq|reflexivity]]. }
  { unfold s1. open_state s. exact Hhj. }
  { unfold s1. open_state s. exact Hw. }
  { unfold s1. open_state s. cbn [with_rw rw set_body wroteHeader]. congruence. }
  unfold bind. rewrite He. exists s2. split; [reflexivity|].
  repeat (split; [assumption|]). split.
  - rewrite Hch2. unfold s1, flushMode. open_state s.
    cbn [with_rw rw set_body wroteHeader chunked]. now rewrite Hwh.
  - unfold written in Hout. rewrite Hpe2, append_nil_r in Hout. rewrite Hout.
    unfold s1. open_state s. cbn [with_rw rw tw set_body wroteHeader wire pending B] in *.
    subst. now rewrite append_nil_r, ?append_assoc.
Qed.

Lemma streaming_committed ps : forall s q i,
  bound s q (mkBuf i "") -> hijacked (rw s) = false -> healthy (tw s) ->
  wroteHeader (rw s) = true -> pending (tw s) = "" ->
  exists s',
    ServeHTTP (streaming ps) s = Val tt s' /\
    bound s' q (mkBuf i "") /\ hijacked (rw s') = false /\ healthy (tw s') /\
    wroteHeader (rw s') = true /\ pending (tw s') = "" /\
    chunked (rw s') = chunked (rw s) /\
    wire (tw s') = wire (tw s) +:+ concat_str (map framed ps).
Proof.
  induction ps as [|p ps IH]; intros s q i Hb Hhj Hw Hwh Hpe.
  - exists s. cbn [streaming flat_map ServeHTTP map concat_str].
    rewrite append_nil_r. repeat split; auto; apply Hb || apply Hw.
  - change (streaming (p :: ps)) with ([OpWrite p; OpFlush] ++ streaming ps)%list.
    rewrite ServeHTTP_app. unfold bind.
    destruct (Write_Flush_step p s q i Hb Hhj Hw Hwh Hpe)
      as (s1 & -> & Hb1 & Hhj1 & Hw1 & Hwh1 & Hpe1 & Hch1 & Hout1).
    destruct (IH s1 q i Hb1 Hhj1 Hw1 Hwh1 Hpe1)
      as (s2 & -> & Hb2 & Hhj2 & Hw2 & Hwh2 & Hpe2 & Hch2 & Hout2).
    exists s2. split; [reflexivity|]. repeat (split; [assumption|]).
    split; [congruence|].
    rewrite Hout2, Hout1. cbn [map concat_str]. now rewrite ?append_assoc.
Qed.

Lemma uncommitted_coherent s : uncommitted s -> coherent (rw s).
Proof. intros (_ & _ & Hch). split; [auto | congruence]. Qed.

(** X16.  A handler that streams, each payload written and then flushed, on
    a transport that accepts everything, with a status that allows a body:
    the first Flush commits the headers in chunked mode (Content-Type
    sniffed from the first payload), every payload goes out as a chunk of
    its own as soon as it is flushed, and EndResponse ends the stream with
    the zero chunk; all of it is on the wire in this order. *)
Theorem streamed_response s q i p ps :
  bound s q (mkBuf i "") -> uncommitted s -> healthy (tw s) ->
  noBody (statusCode (rw s)) = false ->
  exists s1 s2,
    ServeHTTP (streaming (p :: ps)) s = Val tt s1 /\
    wire (tw s1) =
      written (tw s) +:+
      headerBlock true (Proto q) (effStatus (statusCode (rw s))) p (header (rw s)) +:+
      concat_str (map framed (p :: ps)) /\
    EndResponse s1 = Val None s2 /\
    wire (tw s2) = wire (tw s1) +:+ zero_chunk /\
    pending (tw s2) = "".
Proof.
  intros Hb Hu Hw Hnb. pose proof Hu as (Hhj & Hwh & Hch).
  pose proof (coherent_ServeHTTP (streaming (p :: ps)) s (uncommitted_coherent s Hu)) as Hco.
  change (streaming (p :: ps)) with ([OpWrite p] ++ OpFlush :: streaming ps)%list in *.
  rewrite ServeHTTP_app in *. cbn [ServeHTTP runOp] in *.
  unfold bind in Hco |- *.
  rewrite (Write_open p s _ Hhj (proj2 (proj2 Hb))) in *. cbv [ret] in *.
  rewrite Hwh in *. cbn [bid B] in *. change ("" +:+ p) with p in *.
  set (sa := with_rw (set_body (Some (mkBuf i p))
                       (set_statusCode (effStatus (statusCode (rw s))) (rw s))) s) in *.
  destruct (Flush_spec sa q (mkBuf i p))
    as (sb & He & Hwhb & Hhjb & Hchb & Hbb & Hwb & Hpeb & Hout).
  { destruct Hb as (Hc & Hq & _). unfold sa. open_state s.
    split; [exact Hc|split; [exact Hq|reflexivity]]. }
  { unfold sa. open_state s. exact Hhj. }
  { unfold sa. open_state s. exact Hw. }
  { intros _. unfold sa. open_state s. exact Hch. }
  rewrite He in *.
  destruct (streaming_committed ps sb q i Hbb Hhjb Hwb Hwhb Hpeb)
    as (s1 & He1 & Hb1 & Hhj1 & Hw1 & Hwh1 & Hpe1 & Hch1 & Hout1).
  rewrite He1 in *. cbn [final] in Hco.
  assert (Hmode : chunked (rw s1) = true).
  { rewrite Hch1, Hchb. unfold sa, flushMode. open_state s. subst.
    cbn [with_rw rw set_body set_statusCode wroteHeader statusCode].
    now rewrite !effStatus_noBody, Hnb. }
  destruct (EndResponse_spec s1 q _ Hb1 Hhj1 (proj1 Hw1))
    as (s2 & He2 & Hout2 & Hpe2 & _).
  rewrite (proj2 Hw1) in He2. specialize (Hpe2 (proj2 Hw1)).
  assert (Hwire1 : wire (tw s1) =
            written (tw s) +:+
            headerBlock true (Proto q) (effStatus (statusCode (rw s))) p (header (rw s)) +:+
            concat_str (map framed (p :: ps))).
  { rewrite Hout1. unfold written in Hout at 1. rewrite Hpeb, append_nil_r in Hout.
    rewrite Hout. unfold sa. open_state s. subst.
    cbn [with_rw rw tw set_body set_statusCode wroteHeader statusCode header B
         map concat_str].
    rewrite effStatus_idem. now rewrite ?append_assoc. }
  exists s1, s2. split; [reflexivity|]. split; [exact Hwire1|].
  split; [exact He2|]. split; [|exact Hpe2].
  unfold written in Hout2. rewrite Hpe2, Hpe1, !append_nil_r in Hout2. rewrite Hout2.
  unfold endHead, endTail, endChunked. rewrite Hwh1, Hmode.
  rewrite (proj2 Hco Hmode). cbn [negb andb orb B framed String.length Nat.ltb Nat.leb].
  change ("" +:+ ?x) with x. reflexivity.
Qed.

(* --------------------------------------------------------------------- *)
(* After the commit the header map is dead                               *)
(* --------------------------------------------------------------------- *)

(* the loops of ReadFrom do not look at the receiver *)
Lemma chunkLoop_rw r : forall rw1 rw2 w bp rp cp n,
  chunkLoop r (mkSt rw2 w bp rp cp n) =
  Res_map (with_rw rw2) (chunkLoop r (mkSt rw1 w bp rp cp n)).
Proof.
  induction r as [|[data err] rest IH]; intros rw1 rw2 [pe wi we fe] bp rp cp n.
  - reflexivity.
  - cbn [chunkLoop rd_data rd_err].
    destruct we, fe, (0 <? String.length data)%nat, err; exec;
      try reflexivity; apply IH.
Qed.

Lemma copyBuffer_rw r : forall k rw1 rw2 w bp rp cp n,
  copyBuffer r k (mkSt rw2 w bp rp cp n) =
  Res_map (with_rw rw2) (copyBuffer r k (mkSt rw1 w bp rp cp n)).
Proof.
  induction r as [|[data err] rest IH]; intros k rw1 rw2 [pe wi we fe] bp rp cp n.
  - reflexivity.
  - cbn [copyBuffer rd_data rd_err]. unfold wrapper_Write.
    destruct we, fe, (0 <? String.length data)%nat, err; exec;
      rewrite ?Nat.eqb_refl; try reflexivity; apply IH.
Qed.

Lemma ReadFrom_committed_hdr r s hd :
  wroteHeader (rw s) = true ->
  ReadFrom r (set_hdr hd s) = Res_map (set_hdr hd) (ReadFrom r s).
Proof.
  intros Hw. open_state s. subst wh. unfold set_hdr, ReadFrom. exec.
  destruct hj; [reflexivity|].
  destruct c as [[[cn|] pa rd]|]; cbn [conn]; exec; try reflexivity.
  destruct ch.
  - rewrite (chunkLoop_rw r (mkRW (Some (mkCtx (Some cn) pa rd)) rq h code true false true bd)
               (mkRW (Some (mkCtx (Some cn) pa rd)) rq hd code true false true bd)).
    match goal with
    | |- context [chunkLoop r ?s0] =>
      destruct (chunkLoop_total r s0) as (ex & [pe1 wi1 we1 fe1] & -> & _)
    end.
    destruct ex; exec; try reflexivity. destruct fe1; reflexivity.
  - rewrite (copyBuffer_rw r 0%Z
               (mkRW (Some (mkCtx (Some cn) pa rd)) rq h code true false false bd)
               (mkRW (Some (mkCtx (Some cn) pa rd)) rq hd code true false false bd)).
    match goal with
    | |- context [copyBuffer r ?k ?s0] =>
      destruct (copyBuffer_total r k s0) as (res & w & -> & _)
    end.
    reflexivity.
Qed.

Lemma runOp_committed_hdr o s hd :
  wroteHeader (rw s) = true ->
  exists hd', runOp o (set_hdr hd s) = Res_map (set_hdr hd') (runOp o s).
Proof.
  intros Hw. destruct o; cbn [runOp].
  - exists (f hd). open_state s. reflexivity.
  - exists hd. open_state s. subst wh. reflexivity.
  - exists hd. open_state s. subst wh. unfold set_hdr, Write. exec.
    destruct hj, bd; reflexivity.
  - exists hd. unfold bind. rewrite (ReadFrom_committed_hdr r s hd Hw).
    destruct (ReadFrom r s); reflexivity.
  - exists hd. open_state s. subst wh. unfold set_hdr, Flush. exec.
    destruct hj; [reflexivity|].
    destruct c as [[[cn|] pa rd]|]; cbn [conn]; exec; try reflexivity.
    destruct bd as [[i bs]|]; exec; [|reflexivity].
    destruct we, fe, (0 <? String.length bs)%nat; reflexivity.
  - exists hd. open_state s. unfold set_hdr, Hijack. exec.
    destruct hj; exec; [reflexivity|]. destruct c; reflexivity.
  - exists hd. reflexivity.
Qed.

Lemma committed_runOp o s :
  wroteHeader (rw s) = true -> wroteHeader (rw (final (runOp o s))) = true.
Proof.
  intros Hw.
  pose proof (committed_method_safe (chunked (rw s)) (effStatus (statusCode (rw s)))) as HP.
  apply (keeps_runOp _ HP o s). auto.
Qed.

Lemma ServeHTTP_committed_hdr ops : forall s hd,
  wroteHeader (rw s) = true ->
  exists hd', ServeHTTP ops (set_hdr hd s) = Res_map (set_hdr hd') (ServeHTTP ops s).
Proof.
  induction ops as [|o rest IH]; intros s hd Hw; cbn [ServeHTTP].
  - exists hd. reflexivity.
  - destruct (runOp_committed_hdr o s hd Hw) as (hd1 & H1).
    pose proof (committed_runOp o s Hw) as Hw1.
    unfold bind. rewrite H1.
    destruct (runOp o s) as [[] s1|s1]; cbn [Res_map final] in *.
    + apply IH, Hw1.
    + exists hd1. reflexivity.
Qed.

Lemma EndResponse_committed_hdr s hd :
  wroteHeader (rw s) = true ->
  EndResponse (set_hdr hd s) = Res_map (set_hdr hd) (EndResponse s).
Proof.
  intros Hw. open_state s. subst wh. unfold set_hdr, EndResponse. exec.
  destruct hj; exec; [destruct bd; reflexivity|].
  destruct c as [[[cn|] pa rd]|]; cbn [conn]; exec; try reflexivity.
  destruct bd as [[i bs]|]; [|destruct ch, (noBody code), we, fe; reflexivity].
  destruct ch, (noBody code), we, fe, (0 <? String.length bs)%nat; reflexivity.
Qed.

(** X17.  After the commit the header map is dead: whatever header map the
    writer holds once its headers are committed, the handler's further
    calls and EndResponse return the same results and hand the same bytes to
    the transport; header changes made after the commit are never sent, and
    they change nothing but the map itself. *)
Theorem headers_after_commit_are_not_sent s ops hd :
  wroteHeader (rw s) = true ->
  exists hd',
    ServeHTTP ops (set_hdr hd s) = Res_map (set_hdr hd') (ServeHTTP ops s) /\
    EndResponse (final (ServeHTTP ops (set_hdr hd s))) =
      Res_map (set_hdr hd') (EndResponse (final (ServeHTTP ops s))) /\
    tw (final (EndResponse (final (ServeHTTP ops (set_hdr hd s))))) =
      tw (final (EndResponse (final (ServeHTTP ops s)))).
Proof.
  intros Hw. destruct (ServeHTTP_committed_hdr ops s hd Hw) as (hd' & H1).
  exists hd'. split; [exact H1|].
  assert (Hw1 : wroteHeader (rw (final (ServeHTTP ops s))) = true).
  { pose proof (committed_method_safe (chunked (rw s)) (effStatus (statusCode (rw s))))
      as HP.
    apply (keeps_ServeHTTP _ HP ops s). auto. }
  assert (H2 : final (ServeHTTP ops (set_hdr hd s)) =
               set_hdr hd' (final (ServeHTTP ops s))).
  { rewrite H1. destruct (ServeHTTP ops s); reflexivity. }
  rewrite H2, (EndResponse_committed_hdr _ hd' Hw1).
  split; [reflexivity|].
  destruct (EndResponse (final (ServeHTTP ops s))) as [e s2|s2]; open_state s2; reflexivity.
Qed.

(* --------------------------------------------------------------------- *)
(* The pool of request contexts                                          *)
(* --------------------------------------------------------------------- *)

Lemma serveOne_ctxPool_reset h cn sc p next :
  (forall s, ctxPool_reset s -> ctxPool_reset (final (next s))) ->
  forall s, ctxPool_reset s -> ctxPool_reset (final (serveOne h cn sc p next s)).
Proof.
  intros Hnext s Hs. unfold serveOne. unfold bind at 1.
  rewrite NewRequestContext_spec. cbv beta iota.
  set (c := pooledCtx cn sc s). set (s0 := with_ctxPool (tl (ctxPool s)) s).
  assert (H0 : ctxPool_reset s0).
  { unfold ctxPool_reset, s0 in *. open_state s. cbn [with_ctxPool ctxPool].
    destruct cp; [constructor | now inversion Hs]. }
  pose proof (handleRequest_ctxPool h c p cn s0 eq_refl) as Hc.
  destruct (handleRequest_total h c p cn s0 eq_refl)
    as (c' & oq & hj & err & s1 & He & _ & Hoq).
  rewrite He in Hc. cbn [final] in Hc.
  assert (H1 : ctxPool_reset s1) by (unfold ctxPool_reset; now rewrite Hc).
  assert (H2 : ctxPool_reset (with_ctxPool (RequestContext_reset c' :: ctxPool s1) s1)).
  { unfold ctxPool_reset in *. open_state s1. cbn [with_ctxPool ctxPool].
    constructor; [split; reflexivity | exact H1]. }
  unfold bind at 1. rewrite He.
  destruct err as [e|]; [exact H2|].
  destruct hj; [exact H1|].
  destruct oq as [q|]; [|now specialize (Hoq eq_refl)].
  unfold bind, RequestContext_Release. destruct (wantsClose q); [exact H2|].
  apply Hnext, H2.
Qed.

(** X18.  No pooled request context keeps a connection or a parent context:
    if that holds for the pool when ServeConn starts, it holds when
    ServeConn is through, whatever the requests and whatever the handler
    does; every context ServeConn puts back was reset first. *)
Theorem ServeConn_pools_reset_contexts h cn sc incoming s :
  ctxPool_reset s -> ctxPool_reset (final (ServeConn h cn sc incoming s)).
Proof.
  revert s. induction incoming as [|p rest IH]; intros s Hs; cbn [ServeConn].
  - apply serveOne_ctxPool_reset; [|exact Hs]. intros s0 H0. exact H0.
  - apply serveOne_ctxPool_reset; [exact IH | exact Hs].
Qed.

(* --------------------------------------------------------------------- *)
(* The server's options                                                  *)
(* --------------------------------------------------------------------- *)

Lemma NewServer_snoc {E} (e : E) opts o :
  NewServer e (opts ++ [o]) = o (NewServer e opts).
Proof. unfold NewServer. now rewrite fold_left_app. Qed.

(** X19.  NewServer applies its options in order over the defaults (keep-
    alive 30 s, read 10 s, write 10 s), so a later option overrides an
    earlier one of its kind and leaves the other timeouts alone.  On a new
    connection OnPrepare calls SetReadTimeout with the server's read
    timeout, whatever its value, and calls SetWriteTimeout, with the
    server's write timeout, only when that is positive. *)
Theorem Server_timeouts {E} (e : E) opts d :
  NewServer e [] = mkServer e None (30 * Second)%Z (10 * Second)%Z (10 * Second)%Z /\
  (let s0 := NewServer e opts in
   let s := NewServer e (opts ++ [WithReadTimeout d]) in
   readTimeout s = d /\
   writeTimeout s = writeTimeout s0 /\
   keepAliveTimeout s = keepAliveTimeout s0 /\
   OnPrepare s =
     SetReadTimeout d ::
     (if (0 <? writeTimeout s0)%Z then [SetWriteTimeout (writeTimeout s0)] else [])) /\
  (let s0 := NewServer e opts in
   let s := NewServer e (opts ++ [WithWriteTimeout d]) in
   writeTimeout s = d /\
   readTimeout s = readTimeout s0 /\
   keepAliveTimeout s = keepAliveTimeout s0 /\
   OnPrepare s =
     SetReadTimeout (readTimeout s0) ::
     (if (0 <? d)%Z then [SetWriteTimeout d] else [])) /\
  (let s0 := NewServer e opts in
   let s := NewServer e (opts ++ [WithKeepAliveTimeout d]) in
   keepAliveTimeout s = d /\
   readTimeout s = readTimeout s0 /\
   writeTimeout s = writeTimeout s0 /\
   OnPrepare s = OnPrepare s0).
Proof.
  split; [reflexivity|]. rewrite !NewServer_snoc. cbv zeta.
  destruct (NewServer e opts) as [e0 el ka rt wt].
  unfold OnPrepare, WithReadTimeout, WithWriteTimeout, WithKeepAliveTimeout.
  cbn [readTimeout writeTimeout keepAliveTimeout Engine eventLoop].
  repeat split.
Qed.

(* --------------------------------------------------------------------- *)
(* A keep-alive connection, end to end                                   *)
(* --------------------------------------------------------------------- *)

Lemma NewResponseWriter_clean c q s s' :
  rwPool_clean s -> NewResponseWriter c q s = Val tt s' ->
  header (rw s') = ∅ /\ rwPool_clean s'.
Proof.
  unfold rwPool_clean. open_state s. unfold NewResponseWriter, rwPool_Get.
  destruct rp as [|r0 rp']; exec; unfold bytebufferpool_Get;
    destruct bp as [[|b0 rest] f]; cbn [idle fresh]; exec.
  all: intros Hcl [= <-]; cbn [rw rwPool header].
  all: try (inversion Hcl; subst; split; assumption).
  all: split; [reflexivity | constructor].
Qed.

Lemma handleRequest_plain h f c q cn s :
  conn c = Some cn -> (forall q, h q = map OpWrite (f q)) ->
  healthy (tw s) -> rwPool_clean s ->
  exists s1,
    handleRequest h c (Parsed q) s =
      Val (GetReader c, Some (served q cn), false, None) s1 /\
    healthy (tw s1) /\ pending (tw s1) = "" /\
    wire (tw s1) =
      written (tw s) +:+
      plainResponse (served q cn) (concat_str (f (served q cn))) /\
    rwPool_clean s1.
Proof.
  intros Hcn Hh Hw Hcl.
  assert (Hcl1 : rwPool_clean (final (handleRequest h c (Parsed q) s))).
  { apply (keeps_handleRequest _ pool_safe_clean); [|exact Hcl].
    intros s0 H0. open_state s0. exact H0. }
  destruct (handleRequest_Parsed h c q cn s Hcn)
    as (s1 & s2 & e & s3 & H1 & H2 & H3 & _ & _ & He).
  set (q' := served q cn) in *.
  destruct (NewResponseWriter_live (GetReader c) q' cn (with_nread (S (nread s)) s) Hcn)
    as (s1' & H1' & _ & Hu1 & Hst1 & Hc1 & Hq1 & (i & Hb1) & Htw1 & _).
  rewrite H1 in H1'. injection H1' as <-.
  assert (Hcl0 : rwPool_clean (with_nread (S (nread s)) s)).
  { clear - Hcl. open_state s. exact Hcl. }
  destruct (NewResponseWriter_clean _ _ _ _ Hcl0 H1) as (Hh1 & _).
  assert (Etw : tw s1 = tw s) by (rewrite Htw1; open_state s; reflexivity).
  assert (Hbd1 : bound s1 q' (mkBuf i "")).
  { split; [exists (GetReader c), cn; split; [exact Hc1 | exact Hcn]|].
    split; assumption. }
  (* the handler only writes *)
  destruct (Writes_spec (f q') s1 q' _ Hbd1 (proj1 Hu1))
    as (s2' & He2 & Hbd2 & Htw2 & _ & Hh2 & Hhj2 & Hwh2 & Hch2 & Hst2).
  rewrite Hh in H2. unfold recover_ in H2. rewrite He2 in H2. injection H2 as ->.
  cbn [bid B] in Hbd2. change ("" +:+ ?x) with x in Hbd2.
  set (sent := concat_str (f q')) in *.
  (* EndResponse commits in fixed-length mode *)
  destruct (EndResponse_spec s2 q' _ Hbd2 Hhj2) as (s3' & He3 & Hout & Hpe & Hfe & Hwe & R).
  { rewrite Htw2, Etw. apply Hw. }
  rewrite H3 in He3. injection He3 as -> <-.
  destruct R as (_ & _ & Hhj3 & _).
  assert (Hfe2 : flush_err (tw s2) = None) by (rewrite Htw2, Etw; apply Hw).
  specialize (Hpe Hfe2).
  rewrite He, Hfe2 in *. cbn [final] in Hcl1. rewrite Hhj3.
  rewrite Release_spec in *. cbn [final] in *.
  eexists. split; [reflexivity|]. cbn [tw with_rwPool with_bufPool with_rw].
  split; [split; congruence|]. split; [exact Hpe|]. split; [|exact Hcl1].
  unfold written in Hout at 1. rewrite Hpe, append_nil_r in Hout.
  rewrite Hout, Htw2, Etw.
  unfold endHead, endTail, endChunked, plainResponse, headerBlock.
  destruct Hu1 as (_ & Hwh1 & Hch1).
  rewrite Hwh2, Hwh1, Hch2, Hch1, Hh2, Hh1, Hst2, Hst1.
  rewrite <- (effStatus_noBody (statusCode (rw s2))), Hst2, Hst1.
  cbn [B]. change (explicitChunked ∅) with false. change (effStatus 0) with StatusOK.
  change (commitChunked false StatusOK) with false. change (noBody StatusOK) with false.
  cbn [negb andb orb]. now rewrite ?append_assoc.
Qed.

Lemma healthy_written_wire w : pending w = "" -> written w = wire w.
Proof. intros H. unfold written. rewrite H. apply append_nil_r. Qed.

(** X20.  A connection served by a handler that only writes, on a transport
    that accepts everything, for requests qs that http.ReadRequest yields
    turn after turn: ServeConn answers them in order, each with status 200,
    a computed Content-Length and the bytes the handler wrote for it, and
    nothing else goes to the transport; after the first of them that has
    Close set or whose Connection header is "close" it returns nil and
    answers no later one, and it returns io.EOF when the input ends before
    that. *)
Theorem ServeConn_keep_alive h f cn sc qs : forall s,
  (forall q, h q = map OpWrite (f q)) ->
  healthy (tw s) -> rwPool_clean s ->
  exists s',
    ServeConn h cn sc (map Parsed qs) s = Val (outcome qs) s' /\
    written (tw s') = written (tw s) +:+ responses f cn qs /\
    healthy (tw s') /\ rwPool_clean s'.
Proof.
  induction qs as [|q rest IH]; intros s Hh Hw Hcl; cbn [map ServeConn outcome responses].
  - unfold serveOne. unfold bind at 1. rewrite NewRequestContext_spec.
    exists (with_ctxPool (mkCtx None None (Some (Some cn)) :: tl (ctxPool s))
              (with_nread (S (nread s)) s)).
    rewrite append_nil_r. open_state s.
    split; [reflexivity|]. split; [reflexivity|]. split; [exact Hw | exact Hcl].
  - unfold serveOne. unfold bind at 1. rewrite NewRequestContext_spec. cbv beta iota.
    set (c := pooledCtx cn sc s). set (s0 := with_ctxPool (tl (ctxPool s)) s).
    destruct (handleRequest_plain h f c q cn s0 eq_refl Hh)
      as (s1 & He & Hw1 & Hpe1 & Hout1 & Hcl1).
    { unfold s0. open_state s. exact Hw. }
    { unfold s0. open_state s. exact Hcl. }
    unfold bind at 1. rewrite He. cbv beta iota.
    unfold bind, RequestContext_Release.
    change (wantsClose (served q cn))
      with (Close q || String.eqb (Header_Get (ReqHeader q) "Connection") "close").
    set (s2 := with_ctxPool (RequestContext_reset (GetReader c) :: ctxPool s1) s1).
    assert (Htw2 : tw s2 = tw s1) by (unfold s2; open_state s1; reflexivity).
    assert (Hcl2 : rwPool_clean s2) by (unfold s2; open_state s1; exact Hcl1).
    assert (Hout2 : written (tw s2) =
              written (tw s) +:+
              plainResponse (served q cn) (concat_str (f (served q cn)))).
    { rewrite Htw2, (healthy_written_wire _ Hpe1), Hout1. unfold s0.
      open_state s. reflexivity. }
    assert (Hif : forall A (x y : A),
              (if Close q then x
               else if String.eqb (Header_Get (ReqHeader q) "Connection") "close" then x
               else y) =
              (if Close q || String.eqb (Header_Get (ReqHeader q) "Connection") "close"
               then x else y)).
    { intros A x y. now destruct (Close q). }
    rewrite !Hif.
    destruct (Close q || String.eqb (Header_Get (ReqHeader q) "Connection") "close").
    + exists s2. split; [reflexivity|]. rewrite append_nil_r.
      split; [exact Hout2|]. split; [now rewrite Htw2 | exact Hcl2].
    + destruct (IH s2 Hh) as (s' & He' & Hout' & Hw' & Hcl'); [now rewrite Htw2 | exact Hcl2 |].
      exists s'. split; [exact He'|]. split; [|split; assumption].
      rewrite Hout', Hout2. now rewrite ?append_assoc.
Qed.

(* --------------------------------------------------------------------- *)
(* Flush and ReadFrom off the main path                                  *)
(* --------------------------------------------------------------------- *)

(** X21.  Flush does not look at the transfer mode: on a writer whose
    headers are committed in fixed-length mode (as ReadFrom with a
    Content-Length leaves it) Flush still sends the buffered bytes as a
    chunk frame, hex length line and trailing CRLF included, and empties the
    buffer; the writer stays in fixed-length mode. *)
Theorem Flush_frames_in_fixed_mode_too s q b :
  bound s q b -> hijacked (rw s) = false -> healthy (tw s) ->
  wroteHeader (rw s) = true -> chunked (rw s) = false ->
  (0 <? String.length (B b))%nat = true ->
  exists s',
    Flush s = Val tt s' /\
    chunked (rw s') = false /\
    body (rw s') = Some (mkBuf (bid b) "") /\
    written (tw s') =
      written (tw s) +:+ FormatHex (String.length (B b)) +:+ CRLF +:+ B b +:+ CRLF.
Proof.
  intros Hb Hhj Hw Hwh Hch Hlen.
  destruct (Flush_spec s q b Hb Hhj Hw) as (s' & He & _ & _ & Hch' & Hb' & _ & _ & Hout).
  { congruence. }
  exists s'. split; [exact He|]. split; [|split].
  - rewrite Hch'. unfold flushMode. now rewrite Hwh.
  - apply Hb'.
  - rewrite Hout, Hwh. unfold framed, chunk_frame. rewrite Hlen.
    change ("" +:+ ?x) with x. reflexivity.
Qed.

(** X22.  When the Flush of the header block fails, ReadFrom gives up at
    once: it returns 0 and the Flush error, the headers count as committed,
    and no block of the source is handed to the transport. *)
Theorem ReadFrom_header_flush_error r s q b e :
  bound s q b -> uncommitted s ->
  write_err (tw s) = None -> flush_err (tw s) = Some e ->
  let hasCL := Header_has (header (rw s)) "Content-Length" in
  let hasChunked := explicitChunked (header (rw s)) in
  let shouldChunk := if hasChunked then true else negb hasCL && negb hasChunked in
  exists s',
    ReadFrom r s = Val (0%Z, Some e) s' /\
    wroteHeader (rw s') = true /\
    written (tw s') =
      written (tw s) +:+
      headerBlock shouldChunk (Proto q) (effStatus (statusCode (rw s))) (B b)
        (header (rw s)).
Proof.
  intros [(c0 & cn & Hc & Hcn) [Hq Hb]] (Hhj & Hwh & Hch) Hwe Hfe.
  open_state s. destruct b as [i bs]. subst. cbv zeta. unfold explicitChunked.
  cbn [rw header statusCode B].
  unfold ReadFrom. exec. rewrite Hcn. exec.
  rewrite defaultStatus_spec. exec.
  erewrite writeHeaders_commit by reflexivity. exec.
  eexists. split; [reflexivity|]. exec. split; [reflexivity|].
  now rewrite ?append_assoc.
Qed.
End Adaptor.

(* --------------------------------------------------------------------- *)
(* Worked examples in the sample setting                                 *)
(* --------------------------------------------------------------------- *)

Local Abbreviation sServeHTTP := (ServeHTTP Sample.now Sample.sniff Sample.order).
Local Abbreviation sEndResponse := (EndResponse Sample.now Sample.sniff Sample.order).
Local Abbreviation sFlush := (Flush Sample.now Sample.sniff Sample.order).
Local Abbreviation sReadFrom := (ReadFrom Sample.now Sample.sniff Sample.order).
Local Abbreviation shandleRequest :=
  (handleRequest Sample.now Sample.sniff Sample.order Sample.addr).
Local Abbreviation sServeConn :=
  (ServeConn Sample.now Sample.sniff Sample.order Sample.addr).

Local Abbreviation dateLine := ("Date: Mon, 02 Jan 2006 15:04:05 GMT" +:+ CRLF).
Local Abbreviation typeLine := ("Content-Type: text/plain; charset=utf-8" +:+ CRLF).

(* the writer handleRequest hands to the handler of the first request *)
Local Abbreviation firstS :=
  (final (NewResponseWriter (GetReader Sample.rc) (served Sample.addr Sample.get 1)
            (with_nread (S (nread Sample.boot)) Sample.boot))).
(* a handler that buffers "oops" and panics, and the state at the panic *)
Local Abbreviation oopsH := (fun _ : Request => [OpWrite "oops"; OpPanic]).
Local Abbreviation oopsS := (final (sServeHTTP [OpWrite "oops"] firstS)).
(* a handler that writes "hi" *)
Local Abbreviation hiH := (fun _ : Request => [OpWrite "hi"]).
(* the first turn of a connection whose first request carries
   Connection: close, and the request and the context it returns *)
Local Abbreviation closeTurn :=
  ((do c <- NewRequestContext 1 1;
    shandleRequest hiH c (Parsed Sample.getClose)) Sample.boot).
Local Abbreviation closeQ :=
  (mkRequest "HTTP/1.1" false {["Connection" := ["close"]]} "" "http" ""
     "127.0.0.1:8080" (Some "")).
Local Abbreviation boundCtx := (mkCtx (Some 1) (Some 1) (Some (Some 1))).
(* the process after a request whose handler set a header, a 404 status,
   wrote and flushed: the pool holds the writer it used *)
Local Abbreviation usedS :=
  (final (shandleRequest
            (fun _ => [OpHeader (Header_Set "X-Trace" "1"); OpWriteHeader 404;
                       OpWrite "gone"; OpFlush])
            Sample.rc (Parsed Sample.get) Sample.boot)).

Lemma Sample_order_perm l : Permutation (Sample.order l) l.
Proof. reflexivity. Qed.

Lemma Sample_fresh_bound : bound Sample.fresh Sample.get (mkBuf 0 "").
Proof.
  split; [exists Sample.rc, 1; split; reflexivity | split; reflexivity].
Qed.

Lemma Sample_fresh_uncommitted : uncommitted Sample.fresh.
Proof. repeat split. Qed.

Lemma Sample_fresh_healthy : healthy (tw Sample.fresh).
Proof. split; reflexivity. Qed.

(* NewResponseWriter from the empty pools gives Sample.fresh *)
Example NewResponseWriter_boot :
  NewResponseWriter Sample.rc Sample.get Sample.boot = Val tt Sample.fresh.
Proof. reflexivity. Qed.

(** C1 (code bug).  A writer with no header set, Write("hello"), EndResponse
    (the case of TestNormalResponse): the code commits in fixed-length mode,
    with a computed Content-Length: 5 and the body verbatim; there is no
    Transfer-Encoding: chunked line, no chunk frame and no zero chunk. *)
Theorem EndResponse_default_is_fixed_length :
  let s := final ((Write "hello";; sEndResponse) Sample.fresh) in
  chunked (rw s) = false /\
  written (tw s) =
    "HTTP/1.1 200 OK" +:+ CRLF +:+
    "Content-Length: 5" +:+ CRLF +:+ typeLine +:+ dateLine +:+ CRLF +:+
    "hello".
Proof. vm_compute. split; reflexivity. Qed.

(** C2 (code bug).  Write, Flush (the headers are committed), then Hijack
    (the case of TestHijack_AfterWrite): Hijack returns the connection, a
    buffered wrapper and a nil error, and the hijacked flag is true. *)
Theorem Hijack_after_commit_succeeds :
  let s := final (sServeHTTP [OpWrite "trigger headers"; OpFlush] Sample.fresh) in
  wroteHeader (rw s) = true /\
  exists s',
    Hijack s = Val (Some 1, Some (Some 1), None) s' /\
    hijacked (rw s') = true.
Proof. vm_compute. split; [reflexivity|]. eexists. split; reflexivity. Qed.

(** C10 (code bug).  A handler that hijacks the connection: EndResponse
    checks the body buffer in and returns without clearing rw.body, and the
    deferred Release finds rw.body set and checks the same buffer in again:
    buffer 0 is in the pool twice after one request cycle. *)
Theorem hijacked_body_checked_in_twice :
  let s := final (shandleRequest (fun _ => [OpHijack]) Sample.rc
                    (Parsed Sample.get) Sample.boot) in
  checkins 0 (bufPool Sample.boot) = 0 /\
  checkins 0 (bufPool s) = 2 /\
  idle (bufPool s) = [0; 0].
Proof. vm_compute. repeat split. Qed.

(* C3: the handler buffers "oops" and panics; the 500 response carries the
   four bytes.  And a handler that hijacks and then panics gets no response
   at all. *)
Lemma panic_after_Write_keeps_body :
  written (tw (final (shandleRequest (fun _ => [OpWrite "oops"; OpPanic])
                        Sample.rc (Parsed Sample.get) Sample.boot))) =
    "HTTP/1.1 500 Internal Server Error" +:+ CRLF +:+
    "Content-Length: 4" +:+ CRLF +:+ typeLine +:+ dateLine +:+ CRLF +:+
    "oops" /\
  written (tw (final (shandleRequest (fun _ => [OpHijack; OpPanic])
                        Sample.rc (Parsed Sample.get) Sample.boot))) = "".
Proof. split; vm_compute; reflexivity. Qed.

(* C4: status 204 with an explicit Content-Length: 5 and "hello" buffered;
   the Content-Length line is emitted. *)
Lemma noBody_keeps_explicit_ContentLength :
  written (tw (final
    ((sServeHTTP [OpWriteHeader 204;
                  OpHeader (Header_Set "Content-Length" "5");
                  OpWrite "hello"];; sEndResponse) Sample.fresh))) =
    "HTTP/1.1 204 No Content" +:+ CRLF +:+
    "Content-Length: 5" +:+ CRLF +:+ typeLine +:+ dateLine +:+ CRLF.
Proof. vm_compute. reflexivity. Qed.

(* C5: WriteHeader(404) then WriteHeader(500) before the commit; the status
   line says 500, the argument of the second call. *)
Lemma WriteHeader_second_call_overrides :
  written (tw (final
    ((sServeHTTP [OpWriteHeader 404; OpWriteHeader 500];; sEndResponse)
       Sample.fresh))) =
    "HTTP/1.1 500 Internal Server Error" +:+ CRLF +:+
    "Content-Length: 0" +:+ CRLF +:+ dateLine +:+ CRLF.
Proof. vm_compute. reflexivity. Qed.

(* C6: with Content-Length: 10 and Transfer-Encoding: chunked both set,
   EndResponse and ReadFrom emit Transfer-Encoding: chunked and drop the
   Content-Length; with Content-Length: 10 alone and five bytes buffered,
   five bytes follow a header that declares ten. *)
Lemma explicit_chunked_beats_ContentLength :
  written (tw (final
    ((sServeHTTP [OpHeader (Header_Set "Content-Length" "10");
                  OpHeader (Header_Set "Transfer-Encoding" "chunked");
                  OpWrite "hello"];; sEndResponse) Sample.fresh))) =
    "HTTP/1.1 200 OK" +:+ CRLF +:+
    "Transfer-Encoding: chunked" +:+ CRLF +:+ typeLine +:+ dateLine +:+ CRLF +:+
    "5" +:+ CRLF +:+ "hello" +:+ CRLF +:+ "0" +:+ CRLF +:+ CRLF /\
  written (tw (final
    ((sServeHTTP [OpHeader (Header_Set "Content-Length" "10");
                  OpHeader (Header_Set "Transfer-Encoding" "chunked");
                  OpReadFrom [mkRead "0123456789" (Some EOF)]];; sEndResponse)
       Sample.fresh))) =
    "HTTP/1.1 200 OK" +:+ CRLF +:+
    "Transfer-Encoding: chunked" +:+ CRLF +:+ dateLine +:+ CRLF +:+
    "a" +:+ CRLF +:+ "0123456789" +:+ CRLF +:+ "0" +:+ CRLF +:+ CRLF /\
  written (tw (final
    ((sServeHTTP [OpHeader (Header_Set "Content-Length" "10");
                  OpWrite "hello"];; sEndResponse) Sample.fresh))) =
    "HTTP/1.1 200 OK" +:+ CRLF +:+
    "Content-Length: 10" +:+ CRLF +:+ typeLine +:+ dateLine +:+ CRLF +:+
    "hello".
Proof. repeat split; vm_compute; reflexivity. Qed.

(* C7: WriteHeader(204) then Flush on a writer that is neither committed nor
   hijacked; the headers are committed, not in chunked mode and without a
   Transfer-Encoding line. *)
Lemma Flush_noBody_not_chunked :
  let s := final (sServeHTTP [OpWriteHeader 204; OpFlush] Sample.fresh) in
  wroteHeader (rw s) = true /\ chunked (rw s) = false /\
  written (tw s) = "HTTP/1.1 204 No Content" +:+ CRLF +:+ dateLine +:+ CRLF.
Proof. vm_compute. repeat split. Qed.

(* Flush frames the buffer also when the writer is in fixed-length mode:
   after a commit with Content-Length: 5 by ReadFrom, Write("hello") and
   Flush put a chunk frame behind a header that declares a plain body. *)
Example Flush_frames_in_fixed_mode :
  let s := final (sServeHTTP [OpHeader (Header_Set "Content-Length" "5");
                              OpReadFrom []; OpWrite "hello"; OpFlush]
                    Sample.fresh) in
  chunked (rw s) = false /\
  written (tw s) =
    "HTTP/1.1 200 OK" +:+ CRLF +:+ "Content-Length: 5" +:+ CRLF +:+ dateLine +:+
    CRLF +:+ "5" +:+ CRLF +:+ "hello" +:+ CRLF.
Proof. vm_compute. split; reflexivity. Qed.

(* --------------------------------------------------------------------- *)
(* The theorems at work on concrete runs                                 *)
(* --------------------------------------------------------------------- *)


(* status 204, an explicit Content-Length and a buffered body *)
Lemma EndResponse_noBody_status_witness :
  noBody 204 = true /\
  exists s',
    sEndResponse
      (final (sServeHTTP [OpWriteHeader 204;
                          OpHeader (Header_Set "Content-Length" "5");
                          OpWrite "hello"] Sample.fresh)) = Val None s' /\
    (false = true -> written (tw s') = "") /\
    (false = false ->
     written (tw s') =
       "" +:+ status_line "HTTP/1.1" 204 +:+
       header_lines Sample.order (header (rw s')) +:+ CRLF /\
     (forall v, ~ In ("Transfer-Encoding", v) (fields Sample.order (header (rw s')))) /\
     (forall v, In ("Content-Length", v) (fields Sample.order (header (rw s'))) <->
                exists vs, Header_Set "Content-Length" "5" ∅ !! "Content-Length"
                           = Some vs /\ In v vs)).
Proof.
  split; [reflexivity|].
  apply (EndResponse_noBody_status Sample.now Sample.sniff Sample.order
           Sample_order_perm
           (final (sServeHTTP [OpWriteHeader 204;
                               OpHeader (Header_Set "Content-Length" "5");
                               OpWrite "hello"] Sample.fresh))
           Sample.get (mkBuf 0 "hello")).
  - split; [exists Sample.rc, 1; split; reflexivity | split; reflexivity].
  - reflexivity.
  - split; [reflexivity | discriminate].
  - split; reflexivity.
  - reflexivity.
Defined.

(* WriteHeader(404), WriteHeader(500), EndResponse *)
Lemma WriteHeader_last_call_wins_witness :
  exists s1 s2 rest,
    sServeHTTP (map OpWriteHeader ([404%Z] ++ [500%Z])) Sample.fresh = Val tt s1 /\
    rw s1 = set_statusCode 500 (rw Sample.fresh) /\
    sEndResponse s1 = Val None s2 /\
    written (tw s2) =
      written (tw Sample.fresh) +:+ status_line "HTTP/1.1" (effStatus 500) +:+ rest /\
    (forall s' c', wroteHeader (rw s') = true \/ hijacked (rw s') = true ->
                   WriteHeader c' s' = Val tt s').
Proof.
  exact (WriteHeader_last_call_wins Sample.now Sample.sniff Sample.order
           Sample.fresh Sample.get (mkBuf 0 "") [404%Z] 500%Z
           Sample_fresh_bound Sample_fresh_uncommitted Sample_fresh_healthy).
Defined.

Lemma explicit_ContentLength_fixed_witness :
  Header_Get (Header_Set "Content-Length" "10" ∅) "Content-Length" <> "" /\
  (exists s',
     sEndResponse
       (final (sServeHTTP [OpHeader (Header_Set "Content-Length" "10")] Sample.fresh))
       = Val None s' /\
     chunked (rw s') = false /\
     written (tw s') =
       "" +:+ status_line "HTTP/1.1" (effStatus 0) +:+
       header_lines Sample.order (header (rw s')) +:+ CRLF +:+
       (if noBody 0 then "" else "") /\
     (forall v, ~ In ("Transfer-Encoding", v) (fields Sample.order (header (rw s')))) /\
     (forall v, In ("Content-Length", v) (fields Sample.order (header (rw s'))) <->
                exists vs, Header_Set "Content-Length" "10" ∅ !! "Content-Length"
                           = Some vs /\ In v vs)) /\
  (exists res s' s'',
     sReadFrom [mkRead "0123456789" (Some EOF)]
       (final (sServeHTTP [OpHeader (Header_Set "Content-Length" "10")] Sample.fresh))
       = Val res s' /\
     chunked (rw s') = false /\
     written (tw s') =
       "" +:+ status_line "HTTP/1.1" (effStatus 0) +:+
       header_lines Sample.order (header (rw s')) +:+ CRLF +:+
       streamed [mkRead "0123456789" (Some EOF)] /\
     (forall v, ~ In ("Transfer-Encoding", v) (fields Sample.order (header (rw s')))) /\
     (forall v, In ("Content-Length", v) (fields Sample.order (header (rw s'))) <->
                exists vs, Header_Set "Content-Length" "10" ∅ !! "Content-Length"
                           = Some vs /\ In v vs) /\
     sEndResponse s' = Val None s'' /\
     written (tw s'') = written (tw s') +:+ (if noBody 0 then "" else "")).
Proof.
  assert (Hcl : Header_Get (Header_Set "Content-Length" "10" ∅) "Content-Length" <> "")
    by (vm_compute; discriminate).
  split; [exact Hcl|].
  apply (explicit_ContentLength_fixed Sample.now Sample.sniff Sample.order
           Sample_order_perm
           (final (sServeHTTP [OpHeader (Header_Set "Content-Length" "10")] Sample.fresh))
           Sample.get (mkBuf 0 "") [mkRead "0123456789" (Some EOF)]).
  - split; [exists Sample.rc, 1; split; reflexivity | split; reflexivity].
  - repeat split.
  - split; reflexivity.
  - exact Hcl.
  - reflexivity.
Defined.

(* Write("part1"), Flush, and a later Write and Flush (the case of
   TestChunkedEncoding_Flush) *)
Lemma Flush_commits_and_frames_witness :
  flushMode (rw (final (sServeHTTP [OpWrite "part1"] Sample.fresh))) = true /\
  exists s' tail,
    sFlush (final (sServeHTTP [OpWrite "part1"] Sample.fresh)) = Val tt s' /\
    wroteHeader (rw s') = true /\
    chunked (rw s') = true /\
    pending (tw s') = "" /\
    written (tw s') =
      "" +:+
      headerBlock Sample.now Sample.sniff Sample.order true "HTTP/1.1" 200 "part1" ∅ +:+
      tail /\
    (true = true ->
     tail = framed "part1" /\
     body (rw s') = Some (mkBuf 0 "") /\
     forall p, exists s'',
       (Write p;; sFlush) s' = Val tt s'' /\
       written (tw s'') = written (tw s') +:+ framed p).
Proof.
  split; [reflexivity|].
  apply (Flush_commits_and_frames Sample.now Sample.sniff Sample.order
           (final (sServeHTTP [OpWrite "part1"] Sample.fresh))
           Sample.get (mkBuf 0 "part1")).
  - split; [exists Sample.rc, 1; split; reflexivity | split; reflexivity].
  - reflexivity.
  - split; reflexivity.
  - reflexivity.
Defined.



(* the handler of the first request buffers "oops" and panics *)
Lemma panic_recovery_emits_500_witness :
  sServeHTTP (oopsH (served Sample.addr Sample.get 1)) firstS = Fault oopsS /\
  exists b s2 s3 s',
    body (rw oopsS) = Some b /\
    recover_ (WriteHeader StatusInternalServerError)
      (sServeHTTP (oopsH (served Sample.addr Sample.get 1))) firstS = Val tt s2 /\
    statusCode (rw s2) = 500%Z /\
    sEndResponse s2 = Val None s3 /\
    written (tw s3) =
      written (tw oopsS) +:+ status_line (Proto Sample.get) 500 +:+
      (if explicitChunked (header (rw oopsS))
       then "Transfer-Encoding: chunked" +:+ CRLF else "") +:+
      header_lines Sample.order (header (rw s3)) +:+ CRLF +:+
      (if explicitChunked (header (rw oopsS))
       then framed (B b) +:+ zero_chunk else B b) /\
    (forall v, In ("Content-Length", v) (fields Sample.order (header (rw s3))) <->
       if explicitChunked (header (rw oopsS)) then False
       else if String.eqb (Header_Get (header (rw oopsS)) "Content-Length") ""
            then v = Itoa (Z.of_nat (String.length (B b)))
            else exists vs, header (rw oopsS) !! "Content-Length" = Some vs /\ In v vs) /\
    shandleRequest oopsH Sample.rc (Parsed Sample.get) Sample.boot =
      Val (GetReader Sample.rc, Some (served Sample.addr Sample.get 1), false, None) s' /\
    tw s' = tw s3.
Proof.
  assert (Hf : sServeHTTP (oopsH (served Sample.addr Sample.get 1)) firstS = Fault oopsS)
    by (vm_compute; reflexivity).
  assert (Hu : uncommitted oopsS) by (vm_compute; repeat split).
  split; [exact Hf|].
  exact (panic_recovery_emits_500 Sample.now Sample.sniff Sample.order Sample_order_perm
           Sample.addr oopsH Sample.rc Sample.get 1 Sample.boot oopsS
           eq_refl (conj eq_refl eq_refl) Hf Hu).
Defined.

(* the same with Content-Length: 100 set before the panic: the 500 response
   carries Content-Length: 100 and the four bytes *)
Example panic_keeps_explicit_ContentLength :
  written (tw (final (shandleRequest
     (fun _ => [OpHeader (Header_Set "Content-Length" "100"); OpWrite "oops"; OpPanic])
     Sample.rc (Parsed Sample.get) Sample.boot))) =
  "HTTP/1.1 500 Internal Server Error" +:+ CRLF +:+
  "Content-Length: 100" +:+ CRLF +:+ typeLine +:+ dateLine +:+ CRLF +:+ "oops".
Proof. vm_compute. reflexivity. Qed.

(* two requests are to be read and the first carries Connection: close: the
   loop answers it, returns nil and does not read again *)
Lemma ServeConn_closes_iff_asked_witness :
  closeTurn = Val (boundCtx, Some closeQ, false, None) (final closeTurn) /\
  Header_Get (ReqHeader closeQ) "Connection" = "close" /\
  sServeConn hiH 1 1 (Parsed Sample.getClose :: [Parsed Sample.get]) Sample.boot =
    Val ReturnNil
      (with_ctxPool (RequestContext_reset boundCtx :: ctxPool (final closeTurn))
         (final closeTurn)) /\
  nread (final (sServeConn hiH 1 1 (Parsed Sample.getClose :: [Parsed Sample.get])
                  Sample.boot)) = S (nread Sample.boot).
Proof.
  assert (H : closeTurn = Val (boundCtx, Some closeQ, false, None) (final closeTurn))
    by (vm_compute; reflexivity).
  assert (Hc : Header_Get (ReqHeader closeQ) "Connection" = "close")
    by (vm_compute; reflexivity).
  pose proof (ServeConn_closes_iff_asked Sample.now Sample.sniff Sample.order
                Sample.addr hiH 1 1 (Parsed Sample.getClose) [Parsed Sample.get]
                Sample.boot _ _ _ H) as T.
  cbv zeta in T. destruct T as (_ & _ & Hclose & _ & Hiff).
  split; [exact H|]. split; [exact Hc|].
  split; [exact (Hclose (or_intror Hc)) | exact (proj2 Hiff (or_intror Hc))].
Defined.

(* the loop at work: it stops at Connection: close and at Close, and goes on
   to the next read otherwise *)
Example ServeConn_stops_at_Connection_close :
  let r := sServeConn hiH 1 1 [Parsed Sample.getClose; Parsed Sample.get] Sample.boot in
  (exists s', r = Val ReturnNil s') /\ nread (final r) = 1.
Proof. vm_compute. split; [eexists|]; reflexivity. Qed.

Example ServeConn_stops_at_Close :
  let q := mkRequest "HTTP/1.0" true ∅ "" "" "" "" (Some "") in
  let r := sServeConn hiH 1 1 [Parsed q; Parsed Sample.get] Sample.boot in
  (exists s', r = Val ReturnNil s') /\ nread (final r) = 1.
Proof. vm_compute. split; [eexists|]; reflexivity. Qed.

Example ServeConn_goes_on_without_close :
  let r := sServeConn hiH 1 1 [Parsed Sample.get; Parsed Sample.getClose; Parsed Sample.get]
             Sample.boot in
  (exists s', r = Val ReturnNil s') /\ nread (final r) = 2.
Proof. vm_compute. split; [eexists|]; reflexivity. Qed.

(* a pool that holds a used writer: the writer of a request that set a
   header, answered 404 and was committed in chunked mode by Flush *)
Lemma NewResponseWriter_fresh_witness :
  rwPool usedS = [mkRW None None ∅ 404 true false true None] /\
  rwPool_clean usedS /\
  (exists s' b,
     NewResponseWriter Sample.rc Sample.get usedS = Val tt s' /\
     rw s' = mkRW (Some Sample.rc) (Some Sample.get) ∅ 0 false false false (Some b) /\
     rwPool_clean s') /\
  (forall h cn sc incoming,
     rwPool_clean (final (sServeConn h cn sc incoming usedS))).
Proof.
  assert (Hp : rwPool usedS = [mkRW None None ∅ 404 true false true None])
    by (vm_compute; reflexivity).
  assert (Hc : rwPool_clean usedS).
  { unfold rwPool_clean. rewrite Hp. repeat constructor. }
  split; [exact Hp|]. split; [exact Hc|].
  exact (NewResponseWriter_fresh Sample.now Sample.sniff Sample.order Sample.addr
           usedS Sample.rc Sample.get Hc).
Defined.

(* ... and the writer NewResponseWriter makes of it: the pooled writer is
   taken, its status and flags are reset, its header map is empty *)
Example NewResponseWriter_recycles :
  let s := final (NewResponseWriter Sample.rc Sample.get usedS) in
  rwPool s = [] /\
  rw s = mkRW (Some Sample.rc) (Some Sample.get) ∅ 0 false false false (Some (mkBuf 0 "")).
Proof. vm_compute. split; reflexivity. Qed.

(* --------------------------------------------------------------------- *)
(* The further properties at concrete inputs                             *)
(* --------------------------------------------------------------------- *)

Local Abbreviation sWrite := Write.
Local Abbreviation swriteHeaders := (writeHeaders Sample.now Sample.sniff Sample.order).
Local Abbreviation sheaderBlock := (headerBlock Sample.now Sample.sniff Sample.order).

(* Sample.fresh after a successful Hijack *)
Local Abbreviation hijackedS :=
  (with_rw (set_hijacked true (rw Sample.fresh)) Sample.fresh).
(* Sample.fresh with its headers committed *)
Local Abbreviation committedS :=
  (with_rw (set_wroteHeader true (rw Sample.fresh)) Sample.fresh).
(* Sample.fresh with Content-Length: 3 set *)
Local Abbreviation lengthS :=
  (with_rw (set_header {["Content-Length" := ["3"]]} (rw Sample.fresh)) Sample.fresh).
(* a transport whose Flush fails, one that refuses writes *)
Local Abbreviation noFlush := (mkWriter "" "" None (Some (errIO "connection reset"))).
Local Abbreviation noWrite := (mkWriter "" "" (Some (errIO "broken pipe")) None).
(* a source of three bytes *)
Local Abbreviation abc := [mkRead "abc" (Some EOF)].

(* Write, Flush, then Hijack: every call returns *)
Lemma handler_calls_return_witness :
  exists s',
    sServeHTTP [OpWrite "hi"; OpFlush; OpHijack] Sample.fresh = Val tt s' /\
    sameCycle Sample.fresh s' /\ live s' /\
    (Forall (fun o => o <> OpHijack) [OpWrite "hi"; OpFlush; OpHijack] ->
     hijacked (rw s') = hijacked (rw Sample.fresh)).
Proof.
  apply (handler_calls_return Sample.now Sample.sniff Sample.order).
  - exists Sample.get, (mkBuf 0 "").
    split; [exists Sample.rc, 1; split; reflexivity | split; reflexivity].
  - repeat constructor; discriminate.
Defined.

(* after a Hijack, a Write, a WriteHeader and a Flush leave the writer alone *)
Lemma hijacked_writer_is_inert_witness :
  (forall p, sWrite p hijackedS = Val (0, Some errHijacked) hijackedS) /\
  (forall r, sReadFrom r hijackedS = Val (0%Z, Some errHijacked) hijackedS) /\
  sFlush hijackedS = Val tt hijackedS /\
  Hijack hijackedS = Val (None, None, Some errHijacked) hijackedS /\
  (exists h',
     final (sServeHTTP [OpWrite "late"; OpWriteHeader 404; OpFlush] hijackedS) =
     with_rw (set_header h' (rw hijackedS)) hijackedS) /\
  tw (final (sEndResponse
        (final (sServeHTTP [OpWrite "late"; OpWriteHeader 404; OpFlush] hijackedS)))) =
  tw hijackedS.
Proof.
  apply (hijacked_writer_is_inert Sample.now Sample.sniff Sample.order).
  reflexivity.
Defined.

(* WriteHeader(404) and a Write after the commit *)
Lemma commit_is_final_witness :
  let s1 := final (sServeHTTP [OpWriteHeader 404; OpWrite "x"] committedS) in
  let s2 := final (sEndResponse s1) in
  (wroteHeader (rw s1) = true /\ chunked (rw s1) = chunked (rw committedS) /\
   effStatus (statusCode (rw s1)) = effStatus (statusCode (rw committedS))) /\
  (wroteHeader (rw s2) = true /\ chunked (rw s2) = chunked (rw committedS) /\
   effStatus (statusCode (rw s2)) = effStatus (statusCode (rw committedS))).
Proof.
  apply (commit_is_final Sample.now Sample.sniff Sample.order). reflexivity.
Defined.

(* EndResponse on a new writer *)
Lemma EndResponse_ends_response_witness :
  exists s',
    sEndResponse Sample.fresh = Val (flush_err (tw Sample.fresh)) s' /\
    written (tw s') =
      written (tw Sample.fresh) +:+
      endHead Sample.now Sample.sniff Sample.order (rw Sample.fresh) Sample.get
        (B (mkBuf 0 "")) +:+
      endTail (rw Sample.fresh) (B (mkBuf 0 "")) /\
    (flush_err (tw Sample.fresh) = None ->
     pending (tw s') = "" /\ wire (tw s') = written (tw s')) /\
    wroteHeader (rw s') = true /\
    chunked (rw s') = endChunked (rw Sample.fresh) /\
    body (rw s') = None /\
    bufPool s' = bytebufferpool_Put (mkBuf 0 "") (bufPool Sample.fresh).
Proof.
  apply (EndResponse_ends_response Sample.now Sample.sniff Sample.order).
  - split; [exists Sample.rc, 1; split; reflexivity | split; reflexivity].
  - reflexivity.
  - reflexivity.
Defined.

Lemma body_checked_in_once_witness :
  exists s',
    (sEndResponse;; Release) Sample.fresh = Val tt s' /\
    body (rw s') = None /\
    forall i, checkins i (bufPool s') =
              checkins i (bufPool Sample.fresh) +
              (if Nat.eqb (bid (mkBuf 0 "")) i then 1 else 0).
Proof.
  apply (body_checked_in_once Sample.now Sample.sniff Sample.order _ Sample.get).
  - split; [exists Sample.rc, 1; split; reflexivity | split; reflexivity].
  - reflexivity.
  - reflexivity.
Defined.

(* a handler that hijacks and then panics *)
Lemma ServeConn_hijacked_witness :
  exists s',
    sServeConn (fun _ => [OpHijack; OpPanic]) 1 1 [Parsed Sample.get] Sample.boot =
      Val AwaitDone s' /\
    nread s' = S (nread Sample.boot) /\
    ctxPool s' = tl (ctxPool Sample.boot).
Proof.
  apply (ServeConn_hijacked Sample.now Sample.sniff Sample.order Sample.addr
           (fun _ => [OpHijack; OpPanic]) 1 1 Sample.get [] Sample.boot [] [OpPanic]).
  - reflexivity.
  - constructor.
Defined.

(* a transport whose Flush fails *)
Lemma ServeConn_reports_flush_error_witness :
  exists s',
    sServeConn (fun _ => [OpWrite "x"]) 1 1 [Parsed Sample.get]
      (with_tw noFlush Sample.boot) =
      Val (ReturnErr (errIO "connection reset")) s' /\
    nread s' = S (nread (with_tw noFlush Sample.boot)) /\
    ctxPool s' =
      mkCtx None None (Some (Some 1)) :: tl (ctxPool (with_tw noFlush Sample.boot)).
Proof.
  apply (ServeConn_reports_flush_error Sample.now Sample.sniff Sample.order Sample.addr
           (fun _ => [OpWrite "x"]) 1 1 Sample.get [] (with_tw noFlush Sample.boot)).
  - reflexivity.
  - reflexivity.
  - repeat constructor; discriminate.
Defined.

(* Write("a"), Write("b"), EndResponse *)
Lemma Writes_then_EndResponse_witness :
  let sent := B (mkBuf 0 "") +:+ concat_str ["a"; "b"] in
  exists s1 s2,
    sServeHTTP (map OpWrite ["a"; "b"]) Sample.fresh = Val tt s1 /\
    tw s1 = tw Sample.fresh /\
    sEndResponse s1 = Val None s2 /\
    written (tw s2) =
      written (tw Sample.fresh) +:+
      status_line (Proto Sample.get) (effStatus (statusCode (rw Sample.fresh))) +:+
      header_lines Sample.order (header (rw s2)) +:+ CRLF +:+ sent /\
    (forall v, In ("Content-Length", v) (fields Sample.order (header (rw s2))) <->
               v = Itoa (Z.of_nat (String.length sent))) /\
    (forall v, ~ In ("Transfer-Encoding", v) (fields Sample.order (header (rw s2)))).
Proof.
  apply (Writes_then_EndResponse Sample.now Sample.sniff Sample.order Sample_order_perm
           Sample.fresh Sample.get (mkBuf 0 "") ["a"; "b"]).
  - split; [exists Sample.rc, 1; split; reflexivity | split; reflexivity].
  - repeat split.
  - split; reflexivity.
  - reflexivity.
  - reflexivity.
  - reflexivity.
Defined.

(* a commit with nothing buffered and no header set *)
Lemma commit_fills_Date_and_ContentType_witness :
  exists s',
    swriteHeaders false Sample.fresh = Val tt s' /\
    (forall v, In ("Date", v) (fields Sample.order (header (rw s'))) <->
       if String.eqb (Header_Get (header (rw Sample.fresh)) "Date") "" then v = Sample.now
       else exists vs, header (rw Sample.fresh) !! "Date" = Some vs /\ In v vs) /\
    (forall v, In ("Content-Type", v) (fields Sample.order (header (rw s'))) <->
       if String.eqb (Header_Get (header (rw Sample.fresh)) "Content-Type") "" then
         if (0 <? String.length (B (mkBuf 0 "")))%nat
         then v = Sample.sniff (take512 (B (mkBuf 0 "")))
         else exists vs, header (rw Sample.fresh) !! "Content-Type" = Some vs /\ In v vs
       else exists vs, header (rw Sample.fresh) !! "Content-Type" = Some vs /\ In v vs).
Proof.
  apply (commit_fills_Date_and_ContentType Sample.now Sample.sniff Sample.order
           Sample_order_perm false Sample.fresh Sample.get (mkBuf 0 "")).
  - reflexivity.
  - reflexivity.
  - reflexivity.
Defined.

(* ReadFrom of three bytes with Content-Length: 3 set *)
Lemma ReadFrom_fixed_returns_count_witness :
  exists s',
    sReadFrom abc lengthS =
      Val (Z.of_nat (String.length (streamed abc)), readError abc) s' /\
    wire (tw s') =
      written (tw lengthS) +:+
      sheaderBlock false (Proto Sample.get) (effStatus (statusCode (rw lengthS)))
        (B (mkBuf 0 "")) (header (rw lengthS)) +:+
      streamed abc /\
    pending (tw s') = "" /\
    body (rw s') = Some (mkBuf 0 "").
Proof.
  apply (ReadFrom_fixed_returns_count Sample.now Sample.sniff Sample.order abc lengthS
           Sample.get (mkBuf 0 "")).
  - split; [exists Sample.rc, 1; split; reflexivity | split; reflexivity].
  - repeat split.
  - split; reflexivity.
  - vm_compute. reflexivity.
  - vm_compute. reflexivity.
Defined.

(* ReadFrom of three bytes with no Content-Length set *)
Lemma ReadFrom_chunked_then_EndResponse_witness :
  exists s' s'',
    sReadFrom abc Sample.fresh = Val (0%Z, readError abc) s' /\
    body (rw s') = Some (mkBuf 0 "") /\
    sEndResponse s' = Val None s'' /\
    wire (tw s'') =
      written (tw Sample.fresh) +:+
      sheaderBlock true (Proto Sample.get) (effStatus (statusCode (rw Sample.fresh)))
        (B (mkBuf 0 "")) (header (rw Sample.fresh)) +:+
      streamedChunks abc +:+ framed (B (mkBuf 0 "")) +:+ zero_chunk /\
    pending (tw s'') = "".
Proof.
  apply (ReadFrom_chunked_then_EndResponse Sample.now Sample.sniff Sample.order abc
           Sample.fresh Sample.get (mkBuf 0 "")).
  - split; [exists Sample.rc, 1; split; reflexivity | split; reflexivity].
  - repeat split.
  - split; reflexivity.
  - vm_compute. reflexivity.
  - reflexivity.
Defined.

(* Write("a"), Flush, Write("b"), Flush, EndResponse *)
Lemma streamed_response_witness :
  exists s1 s2,
    sServeHTTP (streaming ["a"; "b"]) Sample.fresh = Val tt s1 /\
    wire (tw s1) =
      written (tw Sample.fresh) +:+
      sheaderBlock true (Proto Sample.get) (effStatus (statusCode (rw Sample.fresh)))
        "a" (header (rw Sample.fresh)) +:+
      concat_str (map framed ["a"; "b"]) /\
    sEndResponse s1 = Val None s2 /\
    wire (tw s2) = wire (tw s1) +:+ zero_chunk /\
    pending (tw s2) = "".
Proof.
  apply (streamed_response Sample.now Sample.sniff Sample.order Sample.addr
           Sample.fresh Sample.get 0 "a" ["b"]).
  - split; [exists Sample.rc, 1; split; reflexivity | split; reflexivity].
  - repeat split.
  - split; reflexivity.
  - reflexivity.
Defined.

(* a header set after the commit *)
Lemma headers_after_commit_are_not_sent_witness :
  exists hd',
    sServeHTTP [OpWrite "x"; OpFlush] (set_hdr {["X-Late" := ["1"]]} committedS) =
      Res_map (set_hdr hd') (sServeHTTP [OpWrite "x"; OpFlush] committedS) /\
    sEndResponse
      (final (sServeHTTP [OpWrite "x"; OpFlush] (set_hdr {["X-Late" := ["1"]]} committedS))) =
      Res_map (set_hdr hd')
        (sEndResponse (final (sServeHTTP [OpWrite "x"; OpFlush] committedS))) /\
    tw (final (sEndResponse
          (final (sServeHTTP [OpWrite "x"; OpFlush]
                    (set_hdr {["X-Late" := ["1"]]} committedS))))) =
    tw (final (sEndResponse (final (sServeHTTP [OpWrite "x"; OpFlush] committedS)))).
Proof.
  apply (headers_after_commit_are_not_sent Sample.now Sample.sniff Sample.order).
  reflexivity.
Defined.

(* a transport that refuses writes, nothing buffered: no error is reported *)
Lemma EndResponse_write_failure_witness :
  exists s',
    sEndResponse (with_tw noWrite Sample.fresh) =
      Val (if negb (endChunked (rw (with_tw noWrite Sample.fresh))) &&
              negb (noBody (statusCode (rw (with_tw noWrite Sample.fresh)))) &&
              (0 <? String.length (B (mkBuf 0 "")))%nat
           then Some (errIO "broken pipe")
           else flush_err (tw (with_tw noWrite Sample.fresh))) s' /\
    written (tw s') = written (tw (with_tw noWrite Sample.fresh)) /\
    wroteHeader (rw s') = true.
Proof.
  apply (EndResponse_write_failure Sample.now Sample.sniff Sample.order
           (with_tw noWrite Sample.fresh) Sample.get (mkBuf 0 "")).
  - split; [exists Sample.rc, 1; split; reflexivity | split; reflexivity].
  - reflexivity.
  - reflexivity.
Defined.

(* a connection that starts with an empty pool *)
Lemma ServeConn_pools_reset_contexts_witness :
  ctxPool_reset
    (final (sServeConn (fun _ => [OpWrite "x"]) 1 1
              [Parsed Sample.get; Parsed Sample.getClose] Sample.boot)).
Proof.
  apply (ServeConn_pools_reset_contexts Sample.now Sample.sniff Sample.order Sample.addr).
  constructor.
Defined.


(* three requests are read; the second carries Connection: close *)
Lemma ServeConn_keep_alive_witness :
  exists s',
    sServeConn (fun q => map OpWrite ["hello"]) 1 1
      (map Parsed [Sample.get; Sample.getClose; Sample.get]) Sample.boot =
      Val ReturnNil s' /\
    written (tw s') =
      written (tw Sample.boot) +:+
      responses Sample.now Sample.sniff Sample.order Sample.addr (fun _ => ["hello"]) 1
        [Sample.get; Sample.getClose; Sample.get] /\
    healthy (tw s') /\ rwPool_clean s'.
Proof.
  assert (Ho : outcome [Sample.get; Sample.getClose; Sample.get] = ReturnNil)
    by (vm_compute; reflexivity).
  destruct (ServeConn_keep_alive Sample.now Sample.sniff Sample.order Sample.addr
              (fun q => map OpWrite ["hello"]) (fun _ => ["hello"]) 1 1
              [Sample.get; Sample.getClose; Sample.get] Sample.boot
              (fun q => eq_refl) (conj eq_refl eq_refl) (List.Forall_nil _))
    as (s' & He & R).
  rewrite Ho in He. exists s'. split; [exact He | exact R].
Defined.

(* the bytes of that run: two responses, none for the third request *)
Example ServeConn_keep_alive_wire :
  written (tw (final (sServeConn (fun q => map OpWrite ["hello"]) 1 1
                        (map Parsed [Sample.get; Sample.getClose; Sample.get])
                        Sample.boot))) =
  ("HTTP/1.1 200 OK" +:+ CRLF +:+ "Content-Length: 5" +:+ CRLF +:+ typeLine +:+
   dateLine +:+ CRLF +:+ "hello") +:+
  ("HTTP/1.1 200 OK" +:+ CRLF +:+ "Content-Length: 5" +:+ CRLF +:+ typeLine +:+
   dateLine +:+ CRLF +:+ "hello").
Proof. vm_compute. reflexivity. Qed.

(* bytes buffered on a writer committed in fixed-length mode *)
Local Abbreviation fixedS :=
  (with_rw (set_body (Some (mkBuf 0 "late")) (rw committedS)) committedS).

Lemma Flush_frames_in_fixed_mode_too_witness :
  exists s',
    sFlush fixedS = Val tt s' /\
    chunked (rw s') = false /\
    body (rw s') = Some (mkBuf (bid (mkBuf 0 "late")) "") /\
    written (tw s') =
      written (tw fixedS) +:+ FormatHex (String.length (B (mkBuf 0 "late"))) +:+ CRLF +:+
      B (mkBuf 0 "late") +:+ CRLF.
Proof.
  apply (Flush_frames_in_fixed_mode_too Sample.now Sample.sniff Sample.order fixedS
           Sample.get (mkBuf 0 "late")).
  - split; [exists Sample.rc, 1; split; reflexivity | split; reflexivity].
  - reflexivity.
  - split; reflexivity.
  - reflexivity.
  - reflexivity.
  - reflexivity.
Defined.

Lemma ReadFrom_header_flush_error_witness :
  let hasCL := Header_has (header (rw (with_tw noFlush Sample.fresh))) "Content-Length" in
  let hasChunked := explicitChunked (header (rw (with_tw noFlush Sample.fresh))) in
  let shouldChunk := if hasChunked then true else negb hasCL && negb hasChunked in
  exists s',
    sReadFrom abc (with_tw noFlush Sample.fresh) =
      Val (0%Z, Some (errIO "connection reset")) s' /\
    wroteHeader (rw s') = true /\
    written (tw s') =
      written (tw (with_tw noFlush Sample.fresh)) +:+
      sheaderBlock shouldChunk (Proto Sample.get)
        (effStatus (statusCode (rw (with_tw noFlush Sample.fresh))))
        (B (mkBuf 0 "")) (header (rw (with_tw noFlush Sample.fresh))).
Proof.
  apply (ReadFrom_header_flush_error Sample.now Sample.sniff Sample.order abc
           (with_tw noFlush Sample.fresh) Sample.get (mkBuf 0 "")).
  - split; [exists Sample.rc, 1; split; reflexivity | split; reflexivity].
  - repeat split.
  - reflexivity.
  - reflexivity.
Defined.
